(** * bert-as-service: the ventilator / worker / sink pipeline

    A shallow embedding of [server/bert_serving/server/__init__.py]
    (the version check at import, the classes [BertServer], [BertSink],
    [BertWorker] and the helper [send_ndarray]) and the properties of its
    message handling.

    Byte strings are [string]s, Python integers are [Z], dictionaries are
    insertion-ordered association lists, ZeroMQ multipart messages are
    lists of frames.  Everything a loop does to the outside (sending on a
    socket, logging, sleeping) is appended to a trace of effects.  The
    external libraries (the JSON codec of [zmq.utils.jsonapi] and the
    array decoding of numpy) are a type class [Extern]; the general
    theorems hold for every instance of it. *)

From Stdlib Require Import String Ascii List ZArith Bool Lia.
From Stdlib Require Import Permutation Sorted.
Import ListNotations.

Open Scope string_scope.
Open Scope list_scope.
Open Scope Z_scope.
Set Warnings "-register-all".

(* ================================================================= *)
(** ** Python values used by the server *)

Definition bytes := string.

Notation "a +++ b" := (String.append a b) (at level 60, right associativity).

(** Exceptions the code can raise; only [ValueError] and
    [ContextTerminated] are caught by the loops. *)
Inductive exn : Type :=
| KeyError
| ValueError
| IndexError
| TypeError
| ContextTerminated.

Inductive outcome (A : Type) : Type :=
| Ok (a : A)
| Raise (e : exn)
| NoFuel.
Arguments Ok {A} a.
Arguments Raise {A} e.
Arguments NoFuel {A}.

(** *** [bytes.split(sep)] for a one-byte separator *)

Fixpoint split (sep : ascii) (s : bytes) : list bytes :=
  match s with
  | EmptyString => [EmptyString]
  | String c r =>
      if Ascii.eqb c sep then EmptyString :: split sep r
      else match split sep r with
           | [] => [String c EmptyString]
           | h :: t => String c h :: t
           end
  end.

Fixpoint contains (c : ascii) (s : bytes) : bool :=
  match s with
  | EmptyString => false
  | String a r => Ascii.eqb a c || contains c r
  end.

(** *** [int(b)] on a byte string, base 10

    Leading and trailing ASCII whitespace is skipped, one sign is allowed,
    then at least one digit; single underscores may separate digits. *)

Definition is_space (c : ascii) : bool :=
  let n := nat_of_ascii c in
  (Nat.eqb n 32 || (Nat.leb 9 n && Nat.leb n 13))%bool.

Definition is_digit (c : ascii) : bool :=
  let n := nat_of_ascii c in (Nat.leb 48 n && Nat.leb n 57)%bool.

Definition digit_val (c : ascii) : Z := Z.of_nat (nat_of_ascii c) - 48.

Fixpoint all_space (s : bytes) : bool :=
  match s with
  | EmptyString => true
  | String c r => is_space c && all_space r
  end.

Fixpoint lstrip (s : bytes) : bytes :=
  match s with
  | EmptyString => EmptyString
  | String c r => if is_space c then lstrip r else s
  end.

Fixpoint int_digits (acc : Z) (after_underscore : bool) (s : bytes) : option Z :=
  match s with
  | EmptyString => if after_underscore then None else Some acc
  | String c r =>
      if is_digit c then int_digits (acc * 10 + digit_val c) false r
      else if Ascii.eqb c "_" then
             if after_underscore then None else int_digits acc true r
           else if after_underscore then None
                else if all_space s then Some acc else None
  end.

Definition int_body (s : bytes) : option Z :=
  match s with
  | EmptyString => None
  | String c r => if is_digit c then int_digits (digit_val c) false r else None
  end.

Definition py_int (s : bytes) : option Z :=
  match lstrip s with
  | String "+" r => int_body r
  | String "-" r => option_map Z.opp (int_body r)
  | t => int_body t
  end.

(** *** [b'%d' % n] *)

Definition digit_char (d : Z) : ascii := ascii_of_nat (Z.to_nat (48 + d)).

Fixpoint fmt_digits (fuel : nat) (n : Z) (acc : bytes) : bytes :=
  let acc' := String (digit_char (n mod 10)) acc in
  match fuel with
  | O => acc'
  | S f => if n <? 10 then acc' else fmt_digits f (n / 10) acc'
  end.

Definition fmt_d (n : Z) : bytes :=
  if n <? 0 then String "-" (fmt_digits (Z.to_nat (Z.log2 (- n))) (- n) EmptyString)
  else fmt_digits (Z.to_nat (Z.log2 n)) n EmptyString.

(** *** Slices [l[lo:hi]] *)

Definition clamp_index (n i : Z) : Z :=
  if i <? 0 then Z.max (i + n) 0 else Z.min i n.

Definition py_slice {A : Type} (l : list A) (lo hi : Z) : list A :=
  let n := Z.of_nat (length l) in
  let lo' := clamp_index n lo in
  let hi' := clamp_index n hi in
  firstn (Z.to_nat (hi' - lo')) (skipn (Z.to_nat lo') l).

(** *** Dictionaries

    A Python [dict] keeps its keys in insertion order; assigning to a
    present key keeps the key's place. *)

Definition dict (V : Type) : Type := list (bytes * V).

Fixpoint dict_get {V : Type} (k : bytes) (d : dict V) : option V :=
  match d with
  | [] => None
  | (k', v) :: r => if String.eqb k' k then Some v else dict_get k r
  end.

Fixpoint dict_set {V : Type} (k : bytes) (v : V) (d : dict V) : dict V :=
  match d with
  | [] => [(k, v)]
  | (k', v') :: r =>
      if String.eqb k' k then (k, v) :: r else (k', v') :: dict_set k v r
  end.

Definition dict_remove {V : Type} (k : bytes) (d : dict V) : dict V :=
  filter (fun kv => negb (String.eqb (fst kv) k)) d.

(** [d.pop(k)]: [None] stands for [KeyError]. *)
Definition dict_pop {V : Type} (k : bytes) (d : dict V) : option (V * dict V) :=
  match dict_get k d with
  | Some v => Some (v, dict_remove k d)
  | None => None
  end.

(** [{**a, **b}] *)
Definition dict_merge {V : Type} (a b : dict V) : dict V :=
  fold_left (fun d kv => dict_set (fst kv) (snd kv) d) b a.

Definition keys {V : Type} (d : dict V) : list bytes := map fst d.

(** *** JSON values, as [jsonapi.loads] returns them *)

Inductive json : Type :=
| JNull
| JBool (b : bool)
| JInt (n : Z)
| JFloat (literal : string)
| JStr (s : string)
| JArr (l : list json)
| JObj (members : dict json).

(** [len(v)] *)
Definition py_len (v : json) : outcome Z :=
  match v with
  | JArr l => Ok (Z.of_nat (length l))
  | JStr s => Ok (Z.of_nat (String.length s))
  | JObj m => Ok (Z.of_nat (length m))
  | _ => Raise TypeError
  end.

(** [v[lo:hi]] *)
Definition py_getslice (v : json) (lo hi : Z) : outcome json :=
  match v with
  | JArr l => Ok (JArr (py_slice l lo hi))
  | JStr s => Ok (JStr (string_of_list_ascii (py_slice (list_ascii_of_string s) lo hi)))
  | _ => Raise TypeError
  end.

(** [v[key]] for a string key *)
Definition py_getitem (v : json) (key : string) : outcome json :=
  match v with
  | JObj m => match dict_get key m with Some x => Ok x | None => Raise KeyError end
  | _ => Raise TypeError
  end.

(** Truth value of a slice, which is a list or a string: [if tmp:] *)
Definition truthy (v : json) : bool :=
  match v with
  | JArr [] => false
  | JStr EmptyString => false
  | _ => true
  end.

(** *** numpy arrays

    An array is its element type, its shape and its C-contiguous buffer. *)

Record ndarray : Type := mk_ndarray {
  dtype : string;
  shape : list nat;
  buf : bytes
}.

(** [X.shape[0]] *)
Definition shape0 (X : ndarray) : outcome Z :=
  match shape X with
  | [] => Raise IndexError
  | r :: _ => Ok (Z.of_nat r)
  end.

Definition rows (X : ndarray) : nat := hd O (shape X).

Fixpoint list_eqb (l1 l2 : list nat) : bool :=
  match l1, l2 with
  | [], [] => true
  | a :: r1, b :: r2 => Nat.eqb a b && list_eqb r1 r2
  | _, _ => false
  end.

Definition same_trailing (tl : list nat) (X : ndarray) : bool :=
  match shape X with
  | [] => false
  | _ :: tl' => list_eqb tl tl'
  end.

Fixpoint bconcat (l : list bytes) : bytes :=
  match l with
  | [] => EmptyString
  | b :: r => b +++ bconcat r
  end.

(** The external libraries: the JSON codec and numpy's decoding of a
    received buffer.  [np_result_type] and [np_astype] are numpy's type
    promotion, used by [np.concatenate] on arrays of different element
    types only. *)
Class Extern : Type := {
  jsonapi_dumps : json -> bytes;
  jsonapi_loads : bytes -> option json;
  np_frombuffer : bytes -> json -> outcome ndarray;
  np_reshape : ndarray -> json -> outcome ndarray;
  np_result_type : list string -> string;
  np_astype : string -> ndarray -> bytes
}.

Section Model.
Context {E : Extern}.

(** [np.concatenate(l, axis=0)] *)
Definition np_concatenate (l : list ndarray) : outcome ndarray :=
  match l with
  | [] => Raise ValueError
  | X :: _ =>
      match shape X with
      | [] => Raise ValueError
      | _ :: tl =>
          if forallb (same_trailing tl) l then
            let n := fold_right Nat.add O (map rows l) in
            if forallb (fun Y => String.eqb (dtype X) (dtype Y)) l then
              Ok (mk_ndarray (dtype X) (n :: tl) (bconcat (map buf l)))
            else
              let d := np_result_type (map dtype l) in
              Ok (mk_ndarray d (n :: tl) (bconcat (map (np_astype d) l)))
          else Raise ValueError
      end
  end.

(* ================================================================= *)
(** ** Effects and the loop monad *)

Inductive level : Type := INFO | ERROR.

Inductive socket : Type :=
| VentSink        (* BertServer.sink, the pair socket to the sink *)
| VentBackend     (* BertServer.backend, the push socket to the workers *)
| SinkSender      (* BertSink's publisher *)
| WorkerSink.     (* BertWorker's push socket to the sink *)

Inductive log_msg : Type :=
| NewConfigRequest (req_id : Z) (client : bytes)
| NewEncodeRequest (req_id : Z) (client : bytes)
| ContextClosed
| WronglyFormatted (nframes : Z)
| Fields (frames : list bytes)
| CollectJob (job_id : bytes) (received expected : Z)
| SendBack (size : Z) (job_id : bytes)
| JobRegister (size : Z) (job_id : bytes)
| SendConfig (client : bytes)
| JobDone (shape : list nat) (client : bytes).

Inductive effect : Type :=
| Log (l : level) (m : log_msg)
| Send (s : socket) (frames : list bytes)
| Sleep (milliseconds : nat).

(** A computation over a loop's variables [S] that appends to the trace of
    effects and may raise. *)
Definition M (S A : Type) : Type := S * list effect -> outcome A * (S * list effect).

Definition ret {S A : Type} (a : A) : M S A := fun w => (Ok a, w).

Definition bind {S A B : Type} (m : M S A) (k : A -> M S B) : M S B :=
  fun w => match m w with
           | (Ok a, w') => k a w'
           | (Raise e, w') => (Raise e, w')
           | (NoFuel, w') => (NoFuel, w')
           end.

Definition raise {S A : Type} (e : exn) : M S A := fun w => (Raise e, w).

Definition out_of_fuel {S A : Type} : M S A := fun w => (NoFuel, w).

Definition emit {S : Type} (e : effect) : M S unit :=
  fun w => (Ok tt, (fst w, snd w ++ [e])).

Definition get {S : Type} : M S S := fun w => (Ok (fst w), w).

Definition modify {S : Type} (f : S -> S) : M S unit :=
  fun w => (Ok tt, (f (fst w), snd w)).

Definition lift {S A : Type} (o : outcome A) : M S A := fun w => (o, w).

Definition or_raise {S A : Type} (e : exn) (o : option A) : M S A :=
  match o with Some a => ret a | None => raise e end.

(** [try: m except ValueError: h1 except ContextTerminated: h2] *)
Definition try_except {S : Type} (m : M S unit)
    (on_value_error on_context_terminated : M S unit) : M S unit :=
  fun w => match m w with
           | (Raise ValueError, w') => on_value_error w'
           | (Raise ContextTerminated, w') => on_context_terminated w'
           | r => r
           end.

Notation "x <- m ;; k" := (bind m (fun x => k))
  (at level 61, m at next level, right associativity).
Notation "m ;; k" := (bind m (fun _ => k))
  (at level 61, right associativity).

(** [l[i]] *)
Definition index {S : Type} (l : list bytes) (i : nat) : M S bytes :=
  or_raise IndexError (nth_error l i).

(* ================================================================= *)
(** ** [ServerCommand] and [send_ndarray] *)

Definition terminate : bytes := "TERMINATION".
Definition show_config : bytes := "SHOW_CONFIG".
Definition new_job : bytes := "REGISTER".

Definition version : string := "1.5.4".

(** [dict(dtype=str(X.dtype), shape=X.shape)] *)
Definition md (X : ndarray) : json :=
  JObj [("dtype", JStr (dtype X));
        ("shape", JArr (map (fun n => JInt (Z.of_nat n)) (shape X)))].

(** The frames [send_ndarray(src, dest, X, req_id)] hands to
    [send_multipart]. *)
Definition ndarray_frames (dest : bytes) (X : ndarray) (req_id : bytes) : list bytes :=
  [dest; jsonapi_dumps (md X); buf X; req_id].

Definition send_ndarray {S : Type} (src : socket) (dest : bytes) (X : ndarray)
    (req_id : bytes) : M S unit :=
  emit (Send src (ndarray_frames dest X req_id)).

(** The default of [send_ndarray]'s parameter [req_id]. *)
Definition default_req_id : bytes := EmptyString.

(* ================================================================= *)
(** ** [BertServer]: the ventilator *)

Record BertServer : Type := {
  max_batch_size : Z;
  num_processes : Z;          (* len(self.processes) *)
  addr_backend : string;
  addr_sink : string;
  addr_front2sink : string;
  run_on_gpu : bool;
  args_dict : dict json
}.

(** The variable of [BertServer.run]'s loop. *)
Record Vent : Type := { num_req : Z }.

Fixpoint is_ascii (s : bytes) : bool :=
  match s with
  | EmptyString => true
  | String c r => Nat.ltb (nat_of_ascii c) 128 && is_ascii r
  end.

(** [client.decode('ascii')]; [UnicodeDecodeError] is a [ValueError]. *)
Definition decode_ascii (s : bytes) : outcome string :=
  if is_ascii s then Ok s else Raise ValueError.

Definition config (srv : BertServer) (client : string) (now : string) (n : Z) : json :=
  JObj (dict_merge
          [("client", JStr client);
           ("num_subprocess", JInt (num_processes srv));
           ("ventilator -> worker", JStr (addr_backend srv));
           ("worker -> sink", JStr (addr_sink srv));
           ("ventilator <-> sink", JStr (addr_front2sink srv));
           ("server_current_time", JStr now);
           ("num_request", JInt n);
           ("run_on_gpu", JBool (run_on_gpu srv));
           ("server_version", JStr version)]
          (args_dict srv)).

(** The inner [while s_idx < num_seqs] loop. *)
Fixpoint partition_loop (fuel : nat) (srv : BertServer) (job_id : bytes)
    (seqs : json) (num_seqs s_idx : Z) : M Vent unit :=
  if s_idx <? num_seqs then
    match fuel with
    | O => out_of_fuel
    | S f =>
        tmp <- lift (py_getslice seqs s_idx (s_idx + max_batch_size srv)) ;;
        (if truthy tmp then
           let partial_job_id := job_id +++ "@" +++ fmt_d s_idx in
           emit (Send VentBackend [partial_job_id; jsonapi_dumps tmp])
         else ret tt) ;;
        n <- lift (py_len tmp) ;;
        partition_loop f srv job_id seqs num_seqs (s_idx + n)
    end
  else ret tt.

(** The body of the [try] in [BertServer.run]; [now] is what
    [str(datetime.now())] returns. *)
Definition handle_request (fuel : nat) (srv : BertServer) (now : string)
    (request : list bytes) : M Vent unit :=
  match request with
  | [client; msg; req_id] =>
      if String.eqb msg show_config then
        r <- or_raise ValueError (py_int req_id) ;;
        emit (Log INFO (NewConfigRequest r client)) ;;
        c <- lift (decode_ascii client) ;;
        st <- get ;;
        emit (Send VentSink
                [client; msg; jsonapi_dumps (config srv c now (num_req st)); req_id])
      else
        r <- or_raise ValueError (py_int req_id) ;;
        emit (Log INFO (NewEncodeRequest r client)) ;;
        modify (fun st => {| num_req := num_req st + 1 |}) ;;
        seqs <- or_raise ValueError (jsonapi_loads msg) ;;
        num_seqs <- lift (py_len seqs) ;;
        emit (Send VentSink [client; new_job; fmt_d num_seqs; req_id]) ;;
        let job_id := client +++ "#" +++ req_id in
        if num_seqs >? max_batch_size srv then
          partition_loop fuel srv job_id seqs num_seqs 0
        else
          emit (Send VentBackend [job_id; msg])
  | _ => raise ValueError
  end.

(** One turn of [while True]: the [try] with its two handlers. *)
Definition serve (fuel : nat) (srv : BertServer) (now : string)
    (request : list bytes) : M Vent unit :=
  try_except (handle_request fuel srv now request)
    (emit (Log ERROR (WronglyFormatted (Z.of_nat (length request)))) ;;
     emit (Log ERROR (Fields request)))
    (emit (Log ERROR ContextClosed)).

(** [BertServer.run]'s loop over the requests that arrive, each with the
    clock reading of its turn. *)
Fixpoint ventilator_run (fuel : nat) (srv : BertServer)
    (requests : list (string * list bytes)) : M Vent unit :=
  match requests with
  | [] => ret tt
  | (now, request) :: rest =>
      serve fuel srv now request ;; ventilator_run fuel srv rest
  end.

(* ================================================================= *)
(** ** [BertSink] *)

(** A partial id is the bytes after [@], or the integer [0]. *)
Inductive pyval : Type :=
| VBytes (b : bytes)
| VInt (n : Z).

Definition int_of (v : pyval) : option Z :=
  match v with
  | VBytes b => py_int b
  | VInt n => Some n
  end.

Definition part : Type := (ndarray * pyval)%type.

Record Sink : Type := {
  pending_checksum : dict Z;           (* defaultdict(int) *)
  pending_result : dict (list part);   (* defaultdict(list) *)
  job_checksum : dict Z                (* {} *)
}.

Definition sink_init : Sink :=
  {| pending_checksum := []; pending_result := []; job_checksum := [] |}.

Definition set_pending_checksum (d : dict Z) (s : Sink) : Sink :=
  {| pending_checksum := d; pending_result := pending_result s;
     job_checksum := job_checksum s |}.

Definition set_pending_result (d : dict (list part)) (s : Sink) : Sink :=
  {| pending_checksum := pending_checksum s; pending_result := d;
     job_checksum := job_checksum s |}.

Definition set_job_checksum (d : dict Z) (s : Sink) : Sink :=
  {| pending_checksum := pending_checksum s; pending_result := pending_result s;
     job_checksum := d |}.

(** [pending_checksum[k]]: a missing key is inserted with [int()]. *)
Definition read_pending_checksum (k : bytes) : M Sink Z :=
  s <- get ;;
  match dict_get k (pending_checksum s) with
  | Some c => ret c
  | None => modify (set_pending_checksum (dict_set k 0 (pending_checksum s))) ;; ret 0
  end.

(** [pending_result[k]]: a missing key is inserted with [list()]. *)
Definition read_pending_result (k : bytes) : M Sink (list part) :=
  s <- get ;;
  match dict_get k (pending_result s) with
  | Some v => ret v
  | None => modify (set_pending_result (dict_set k [] (pending_result s))) ;; ret []
  end.

(** [job_checksum[k]] *)
Definition read_job_checksum (k : bytes) : M Sink Z :=
  s <- get ;; or_raise KeyError (dict_get k (job_checksum s)).

(** [sorted(tmp, key=lambda x: int(x[1]))]: the keys are computed first,
    the sort is stable. *)
Fixpoint sort_keys (tmp : list part) : option (list (Z * part)) :=
  match tmp with
  | [] => Some []
  | x :: r =>
      match int_of (snd x) with
      | None => None
      | Some k => option_map (cons (k, x)) (sort_keys r)
      end
  end.

Fixpoint insert_sorted (k : Z) (x : part) (l : list (Z * part)) : list (Z * part) :=
  match l with
  | [] => [(k, x)]
  | (k', y) :: r => if k <=? k' then (k, x) :: l else (k', y) :: insert_sorted k x r
  end.

Definition stable_sort (l : list (Z * part)) : list (Z * part) :=
  fold_right (fun kx acc => insert_sorted (fst kx) (snd kx) acc) [] l.

Definition sorted_parts (tmp : list part) : option (list part) :=
  option_map (fun l => map snd (stable_sort l)) (sort_keys tmp).

(** The list comprehension that computes [finished]. *)
Fixpoint scan_finished (items : list (bytes * list part))
    : M Sink (list (bytes * list part)) :=
  match items with
  | [] => ret []
  | (k, v) :: r =>
      c <- read_pending_checksum k ;;
      e <- read_job_checksum k ;;
      rest <- scan_finished r ;;
      ret (if c =? e then (k, v) :: rest else rest)
  end.

Definition pop_pending_result (k : bytes) : M Sink unit :=
  s <- get ;;
  match dict_pop k (pending_result s) with
  | Some (_, d) => modify (set_pending_result d)
  | None => raise KeyError
  end.

Definition pop_pending_checksum (k : bytes) : M Sink unit :=
  s <- get ;;
  match dict_pop k (pending_checksum s) with
  | Some (_, d) => modify (set_pending_checksum d)
  | None => raise KeyError
  end.

Definition pop_job_checksum (k : bytes) : M Sink unit :=
  s <- get ;;
  match dict_pop k (job_checksum s) with
  | Some (_, d) => modify (set_job_checksum d)
  | None => raise KeyError
  end.

(** The body of [for job_info, tmp in finished]. *)
Definition send_back (job : bytes * list part) : M Sink unit :=
  let (job_info, tmp) := job in
  size <- read_job_checksum job_info ;;
  emit (Log INFO (SendBack size job_info)) ;;
  tmp <- or_raise ValueError (sorted_parts tmp) ;;
  match split "#" job_info with
  | [client_addr; req_id] =>
      X <- lift (np_concatenate (map fst tmp)) ;;
      send_ndarray SinkSender client_addr X req_id ;;
      pop_pending_result job_info ;;
      pop_pending_checksum job_info ;;
      pop_job_checksum job_info
  | _ => raise ValueError
  end.

Fixpoint for_each {S A : Type} (f : A -> M S unit) (l : list A) : M S unit :=
  match l with
  | [] => ret tt
  | a :: r => f a ;; for_each f r
  end.

(** [X = np.frombuffer(memoryview(arr_val), dtype=arr_info['dtype'])]
    and [X = X.reshape(arr_info['shape'])]. *)
Definition materialize (arr_info : json) (arr_val : bytes) : outcome ndarray :=
  match py_getitem arr_info "dtype" with
  | Ok dt =>
      match np_frombuffer arr_val dt with
      | Ok X =>
          match py_getitem arr_info "shape" with
          | Ok sh => np_reshape X sh
          | Raise e => Raise e
          | NoFuel => NoFuel
          end
      | Raise e => Raise e
      | NoFuel => NoFuel
      end
  | Raise e => Raise e
  | NoFuel => NoFuel
  end.

(** [job_info = job_id.split(b'@')], then the job id and the partial id
    read off it. *)
Definition parse_chunk_id (chunk_id : bytes) : bytes * pyval :=
  let job_info := split "@" chunk_id in
  (hd EmptyString job_info,
   if Nat.eqb (length job_info) 2 then VBytes (nth 1 job_info EmptyString)
   else VInt 0).

(** Receiving and storing one worker output (up to the progress log). *)
Definition collect (msg : list bytes) : M Sink unit :=
  chunk_id <- index msg 0 ;;
  header <- index msg 1 ;;
  arr_info <- or_raise ValueError (jsonapi_loads header) ;;
  arr_val <- index msg 2 ;;
  X <- lift (materialize arr_info arr_val) ;;
  let (job_id, partial_id) := parse_chunk_id chunk_id in
  old <- read_pending_result job_id ;;
  modify (fun s => set_pending_result
                     (dict_set job_id (old ++ [(X, partial_id)]) (pending_result s)) s) ;;
  c <- read_pending_checksum job_id ;;
  r <- lift (shape0 X) ;;
  modify (fun s => set_pending_checksum (dict_set job_id (c + r) (pending_checksum s)) s) ;;
  received <- read_pending_checksum job_id ;;
  expected <- read_job_checksum job_id ;;
  emit (Log INFO (CollectJob job_id received expected)).

(** The completion check that follows. *)
Definition check_finished : M Sink unit :=
  s <- get ;;
  finished <- scan_finished (pending_result s) ;;
  for_each send_back finished.

(** The branch [if socks.get(receiver) == zmq.POLLIN]. *)
Definition on_receiver (msg : list bytes) : M Sink unit :=
  collect msg ;; check_finished.

(** The branch [if socks.get(frontend) == zmq.POLLIN]. *)
Definition on_frontend (msg : list bytes) : M Sink unit :=
  match msg with
  | [client_addr; msg_type; msg_info; req_id] =>
      if String.eqb msg_type new_job then
        let job_info := client_addr +++ "#" +++ req_id in
        n <- or_raise ValueError (py_int msg_info) ;;
        modify (fun s => set_job_checksum (dict_set job_info n (job_checksum s)) s) ;;
        emit (Log INFO (JobRegister n job_info))
      else if String.eqb msg_type show_config then
        emit (Sleep 100) ;;
        emit (Log INFO (SendConfig client_addr)) ;;
        emit (Send SinkSender [client_addr; msg_info; req_id])
      else ret tt
  | _ => raise ValueError
  end.

(** One turn of the sink's loop: what the poller reports on the two
    sockets. *)
Definition sink_turn (from_workers from_ventilator : option (list bytes)) : M Sink unit :=
  match from_workers with Some msg => on_receiver msg | None => ret tt end ;;
  match from_ventilator with Some msg => on_frontend msg | None => ret tt end.

Fixpoint sink_loop (polls : list (option (list bytes) * option (list bytes)))
    : M Sink unit :=
  match polls with
  | [] => ret tt
  | (rx, fx) :: rest => sink_turn rx fx ;; sink_loop rest
  end.

(** [BertSink.run]: the loop inside its [try]. *)
Definition sink_run (polls : list (option (list bytes) * option (list bytes)))
    : M Sink unit :=
  try_except (sink_loop polls) (raise ValueError) (emit (Log ERROR ContextClosed)).

(* ================================================================= *)
(** ** [BertWorker] *)

Record features : Type := {
  f_client_id : bytes;
  input_ids : list (list Z);
  input_mask : list (list Z);
  input_type_ids : list (list Z)
}.

(** What [gen] of [input_fn_builder] yields, every time. *)
Definition gen (max_seq_len : nat) : features :=
  {| f_client_id := "test";
     input_ids := [repeat 0 max_seq_len];
     input_mask := [repeat 1 max_seq_len];
     input_type_ids := [repeat 0 max_seq_len] |}.

(** A prediction of the estimator: [model_fn] passes the client id
    through and adds the encoding. *)
Record prediction : Type := {
  client_id : bytes;
  encodes : ndarray
}.

Definition predict (graph : features -> ndarray) (f : features) : prediction :=
  {| client_id := f_client_id f; encodes := graph f |}.

(** The body of [for r in estimator.predict(...)]. *)
Definition worker_step (r : prediction) : M unit unit :=
  send_ndarray WorkerSink (client_id r) (encodes r) default_req_id ;;
  emit (Log INFO (JobDone (shape (encodes r)) (client_id r))).

(** [BertWorker.run] over the first [n] items of the generator. *)
Definition worker_run (graph : features -> ndarray) (max_seq_len n : nat) : M unit unit :=
  for_each worker_step (repeat (predict graph (gen max_seq_len)) n).

End Model.

(* ================================================================= *)
(** ** Loading the module *)

(** How executing the top level of the module ends. *)
Inductive import_outcome : Type :=
| Imported
| AssertionError (message : string)
| ImportRaises (e : exn).

(** [_tf_ver = tf.__version__.split('.')] and
    [assert int(_tf_ver[0]) >= 1 and int(_tf_ver[1]) >= 10, '...'];
    the version string is ASCII. *)
Definition check_tf_version (tf_version : string) : import_outcome :=
  let _tf_ver := split "." tf_version in
  let required := AssertionError "Tensorflow >=1.10 is required!" in
  match nth_error _tf_ver 0 with
  | None => ImportRaises IndexError
  | Some v0 =>
      match py_int v0 with
      | None => ImportRaises ValueError
      | Some major =>
          if major >=? 1 then
            match nth_error _tf_ver 1 with
            | None => ImportRaises IndexError
            | Some v1 =>
                match py_int v1 with
                | None => ImportRaises ValueError
                | Some minor => if minor >=? 10 then Imported else required
                end
            end
          else required
      end
  end.

(* ================================================================= *)
(** ** Starting the workers: the head of [BertServer.run] *)

(** [l * n] *)
Definition py_repeat {A : Type} (l : list A) (n : Z) : list A :=
  concat (repeat l (Z.to_nat n)).

(** [enumerate(l)] *)
Fixpoint enumerate_from {A : Type} (i : Z) (l : list A) : list (Z * A) :=
  match l with
  | [] => []
  | a :: r => (i, a) :: enumerate_from (i + 1) r
  end.

Definition enumerate {A : Type} (l : list A) : list (Z * A) := enumerate_from 0 l.

(** [sep.join(l)] *)
Fixpoint py_join (sep : string) (l : list string) : string :=
  match l with
  | [] => EmptyString
  | [a] => a
  | a :: r => a +++ sep +++ py_join sep r
  end.

(** ['%2d' % n] *)
Definition fmt_2d (n : Z) : string :=
  let s := fmt_d n in
  if Nat.ltb (String.length s) 2 then " " +++ s else s.

(** What [GPUtil] answers when the server does not run with [-cpu]: the
    package may be missing; [getGPUs()] raises [FileNotFoundError] when
    nvidia-smi is missing; otherwise it lists the GPUs, and
    [getAvailable(order='memory', limit=l)] lists the ids of at most [l]
    free ones. *)
Inductive gputil : Type :=
| NotInstalled
| NvidiaSmiMissing
| Gpus (getGPUs : list Z) (getAvailable : Z -> list Z).

Inductive start_log : Type :=
| OnlySomeGpusFree (num_avail_gpu num_all_gpu num_worker : Z)   (* warn *)
| WorkersShareGpus                                              (* warn *)
| NvidiaSmiIsMissing                                            (* warn *)
| DeviceMap (text : string).                                    (* info *)

Inductive start_event : Type :=
| StartLog (m : start_log)
| StartWorker (worker_id device_id : Z).   (* BertWorker(idx, ..., device_id).start() *)

Record started : Type := {
  st_run_on_gpu : bool;
  st_device_map : list Z;
  st_events : list start_event
}.

Inductive startup : Type :=
| Started (b : started)
| ModuleNotFoundError.     (* [import GPUtil] failed; no handler catches it *)

(** The line break and the two tabs between the lines of the device map. *)
Definition line_break : string :=
  String "010" (String "009" (String "009" EmptyString)).

Definition device_line (p : Z * Z) : string :=
  "worker " +++ fmt_2d (fst p) +++ " -> "
  +++ (if snd p >=? 0 then "gpu " +++ fmt_2d (snd p) else "cpu").

Definition device_map_text (device_map : list Z) : string :=
  "device_map: " +++ line_break
  +++ py_join line_break (map device_line (enumerate device_map)).

(** The statements of [BertServer.run] before its loop. *)
Definition start_workers (cpu : bool) (num_worker : Z) (g : gputil) : startup :=
  let go (run_on_gpu : bool) (device_map : list Z) (warnings : list start_log) :=
    Started
      {| st_run_on_gpu := run_on_gpu;
         st_device_map := device_map;
         st_events :=
           map StartLog warnings
           ++ [StartLog (DeviceMap (device_map_text device_map))]
           ++ map (fun p => StartWorker (fst p) (snd p)) (enumerate device_map) |} in
  let cpu_map := py_repeat [-1] num_worker in
  if cpu then go false cpu_map []
  else
    match g with
    | NotInstalled => ModuleNotFoundError
    | NvidiaSmiMissing => go false cpu_map [NvidiaSmiIsMissing]
    | Gpus all_gpus getAvailable =>
        let num_all_gpu := Z.of_nat (length all_gpus) in
        let avail_gpu := getAvailable (Z.min num_all_gpu num_worker) in
        let num_avail_gpu := Z.of_nat (length avail_gpu) in
        go true
           (py_slice (py_repeat avail_gpu num_worker) 0 num_worker)
           (if num_avail_gpu <? num_worker
            then [OnlySomeGpusFree num_avail_gpu num_all_gpu num_worker; WorkersShareGpus]
            else [])
    end.

(* ================================================================= *)
(** ** A small instance of the external libraries

    A JSON codec for integers, strings without escapes, arrays and
    objects, written compactly as [jsonapi.dumps] does, and the decoding
    of buffers of the fixed-size element types.  The examples run the
    model on it. *)

Module Mini.

Definition quote : ascii := ascii_of_nat 34.

Fixpoint join (sep : string) (l : list string) : string :=
  match l with
  | [] => EmptyString
  | [x] => x
  | x :: r => x +++ sep +++ join sep r
  end.

Fixpoint dumps (j : json) : string :=
  match j with
  | JNull => "null"
  | JBool true => "true"
  | JBool false => "false"
  | JInt n => fmt_d n
  | JFloat literal => literal
  | JStr s => String quote (s +++ String quote EmptyString)
  | JArr l => "[" +++ join "," (map dumps l) +++ "]"
  | JObj m =>
      "{" +++ join "," (map (fun kv : string * json => let (k, v) := kv in
                                       String quote (k +++ String quote (":" +++ dumps v)))
                            m)
      +++ "}"
  end.

Definition is_ws (c : ascii) : bool :=
  let n := nat_of_ascii c in
  (Nat.eqb n 32 || Nat.eqb n 9 || Nat.eqb n 10 || Nat.eqb n 13)%bool.

Fixpoint skip_ws (s : string) : string :=
  match s with
  | String c r => if is_ws c then skip_ws r else s
  | EmptyString => s
  end.

(** The characters up to the closing quote, and what follows it. *)
Fixpoint read_string (s : string) : option (string * string) :=
  match s with
  | EmptyString => None
  | String c r =>
      if Ascii.eqb c quote then Some (EmptyString, r)
      else if Ascii.eqb c "\" then None
      else match read_string r with
           | Some (t, rest) => Some (String c t, rest)
           | None => None
           end
  end.

Fixpoint read_digits (acc : Z) (s : string) : Z * string :=
  match s with
  | String c r => if is_digit c then read_digits (acc * 10 + digit_val c) r else (acc, s)
  | EmptyString => (acc, s)
  end.

Definition read_number (s : string) : option (Z * string) :=
  match s with
  | String "-" (String c r) =>
      if is_digit c then let (n, rest) := read_digits (digit_val c) r in Some (- n, rest)
      else None
  | String c r =>
      if is_digit c then Some (read_digits (digit_val c) r) else None
  | EmptyString => None
  end.

Definition read_word (w : string) (v : json) (s : string) : option (json * string) :=
  if String.prefix w s
  then Some (v, substring (String.length w) (String.length s - String.length w) s)
  else None.

Fixpoint parse_value (fuel : nat) (s : string) : option (json * string) :=
  match fuel with
  | O => None
  | S f =>
      match skip_ws s with
      | EmptyString => None
      | String c r =>
          if Ascii.eqb c quote then
            match read_string r with
            | Some (t, rest) => Some (JStr t, rest)
            | None => None
            end
          else if Ascii.eqb c "[" then
            match skip_ws r with
            | String "]" rest => Some (JArr [], rest)
            | _ => match parse_elements f r with
                   | Some (l, rest) => Some (JArr l, rest)
                   | None => None
                   end
            end
          else if Ascii.eqb c "{" then
            match skip_ws r with
            | String "}" rest => Some (JObj [], rest)
            | _ => match parse_members f r with
                   | Some (m, rest) => Some (JObj m, rest)
                   | None => None
                   end
            end
          else if Ascii.eqb c "t" then read_word "true" (JBool true) (String c r)
          else if Ascii.eqb c "f" then read_word "false" (JBool false) (String c r)
          else if Ascii.eqb c "n" then read_word "null" JNull (String c r)
          else match read_number (String c r) with
               | Some (n, rest) => Some (JInt n, rest)
               | None => None
               end
      end
  end
with parse_elements (fuel : nat) (s : string) : option (list json * string) :=
  match fuel with
  | O => None
  | S f =>
      match parse_value f s with
      | Some (v, rest) =>
          match skip_ws rest with
          | String "," rest' =>
              match parse_elements f rest' with
              | Some (l, rest'') => Some (v :: l, rest'')
              | None => None
              end
          | String "]" rest' => Some ([v], rest')
          | _ => None
          end
      | None => None
      end
  end
with parse_members (fuel : nat) (s : string) : option (dict json * string) :=
  match fuel with
  | O => None
  | S f =>
      match skip_ws s with
      | String c r =>
          if Ascii.eqb c quote then
            match read_string r with
            | Some (k, rest) =>
                match skip_ws rest with
                | String ":" rest1 =>
                    match parse_value f rest1 with
                    | Some (v, rest2) =>
                        match skip_ws rest2 with
                        | String "," rest3 =>
                            match parse_members f rest3 with
                            | Some (m, rest4) =>
                                let v' := match dict_get k m with Some x => x | None => v end in
                                Some ((k, v') :: dict_remove k m, rest4)
                            | None => None
                            end
                        | String "}" rest3 => Some ([(k, v)], rest3)
                        | _ => None
                        end
                    | None => None
                    end
                | _ => None
                end
            | None => None
            end
          else None
      | EmptyString => None
      end
  end.

Definition loads (s : bytes) : option json :=
  match parse_value (S (String.length s)) s with
  | Some (v, rest) =>
      match skip_ws rest with
      | EmptyString => Some v
      | _ => None
      end
  | None => None
  end.

Definition itemsize (d : string) : option nat :=
  if String.eqb d "float32" then Some 4%nat
  else if String.eqb d "int32" then Some 4%nat
  else if String.eqb d "float64" then Some 8%nat
  else if String.eqb d "int64" then Some 8%nat
  else if String.eqb d "uint8" then Some 1%nat
  else None.

Definition frombuffer (b : bytes) (d : json) : outcome ndarray :=
  match d with
  | JStr name =>
      match itemsize name with
      | Some k =>
          if Nat.eqb (Nat.modulo (String.length b) k) 0
          then Ok (mk_ndarray name [Nat.div (String.length b) k] b)
          else Raise ValueError
      | None => Raise TypeError
      end
  | _ => Raise TypeError
  end.

Fixpoint dims (l : list json) : option (list nat) :=
  match l with
  | [] => Some []
  | JInt n :: r =>
      if n <? 0 then None
      else option_map (cons (Z.to_nat n)) (dims r)
  | _ => None
  end.

Definition reshape (X : ndarray) (sh : json) : outcome ndarray :=
  match sh with
  | JArr l =>
      match dims l with
      | Some ds =>
          if Nat.eqb (fold_right Nat.mul 1%nat ds) (fold_right Nat.mul 1%nat (shape X))
          then Ok (mk_ndarray (dtype X) ds (buf X))
          else Raise ValueError
      | None => Raise TypeError
      end
  | _ => Raise TypeError
  end.

Definition extern : Extern :=
  {| jsonapi_dumps := dumps;
     jsonapi_loads := loads;
     np_frombuffer := frombuffer;
     np_reshape := reshape;
     np_result_type := fun ds => hd EmptyString ds;
     np_astype := fun _ X => buf X |}.

End Mini.



(* ================================================================= *)
(** ** Notions used in the statements *)

(** The characters [int()] can read. *)
Definition int_char (c : ascii) : bool :=
  (is_space c || is_digit c || Ascii.eqb c "_" || Ascii.eqb c "+" || Ascii.eqb c "-")%bool.

Fixpoint all_chars (p : ascii -> bool) (s : bytes) : bool :=
  match s with
  | EmptyString => true
  | String c r => p c && all_chars p r
  end.

(** The two error lines of the [except ValueError] handler of
    [BertServer.run]. *)
Definition wrongly_formatted (request : list bytes) : list effect :=
  [Log ERROR (WronglyFormatted (Z.of_nat (length request)));
   Log ERROR (Fields request)].

(** The partition the specification asks for: contiguous chunks of at most
    [m] items, each with the offset it starts at. *)
Fixpoint chunks_from {A : Type} (fuel m : nat) (off : Z) (l : list A)
    : list (Z * list A) :=
  match fuel, l with
  | S f, _ :: _ =>
      (off, firstn m l) :: chunks_from f m (off + Z.of_nat m) (skipn m l)
  | _, _ => []
  end.

Definition chunks {A : Type} (m : Z) (l : list A) : list (Z * list A) :=
  chunks_from (length l) (Z.to_nat m) 0 l.

(** [received_count] and [parts] of a job, as the default dictionaries
    read them. *)
Definition received (k : bytes) (s : Sink) : Z :=
  match dict_get k (pending_checksum s) with Some c => c | None => 0 end.

Definition parts_of (k : bytes) (s : Sink) : list part :=
  match dict_get k (pending_result s) with Some v => v | None => [] end.

(** The tables after the partial [(X, partial_id)] of the job [k] is
    stored and counted. *)
Definition store (k : bytes) (X : ndarray) (partial_id : pyval) (s : Sink) : Sink :=
  {| pending_checksum :=
       dict_set k (received k s + Z.of_nat (rows X)) (pending_checksum s);
     pending_result := dict_set k (parts_of k s ++ [(X, partial_id)]) (pending_result s);
     job_checksum := job_checksum s |}.

(** The tables after the three [pop]s of the job [k]. *)
Definition forget (k : bytes) (s : Sink) : Sink :=
  {| pending_checksum := dict_remove k (pending_checksum s);
     pending_result := dict_remove k (pending_result s);
     job_checksum := dict_remove k (job_checksum s) |}.

(** The tables after the jobs of [fin] are popped. *)
Definition forget_all (fin : list (bytes * list part)) (s : Sink) : Sink :=
  fold_left (fun st kv => forget (fst kv) st) fin s.

(** The job [k] has an entry in none of the three tables. *)
Definition unknown (k : bytes) (s : Sink) : Prop :=
  dict_get k (pending_checksum s) = None
  /\ dict_get k (pending_result s) = None
  /\ dict_get k (job_checksum s) = None.

(** The effect [ev] publishes a result of the job [k]: four frames on the
    publisher whose first and last make up the job id. *)
Definition delivers (k : bytes) (ev : effect) : Prop :=
  exists client_addr header data req_id,
    ev = Send SinkSender [client_addr; header; data; req_id]
    /\ k = client_addr +++ "#" +++ req_id.





(** The computation [m] keeps [I], whatever its outcome. *)
Definition keeps {S A : Type} (I : S * list effect -> Prop) (m : M S A) : Prop :=
  forall w r w', I w -> m w = (r, w') -> I w'.

(** The rows counted for a list of parts. *)
Definition total_rows (v : list part) : Z :=
  fold_right (fun p acc => Z.of_nat (rows (fst p)) + acc) 0 v.

(** What holds of the tables between two turns of the sink's loop: a job
    has one entry, its count is the sum of the rows of its parts, a job
    with a count has parts, and a job with parts is registered. *)
Definition sink_inv (s : Sink) : Prop :=
  NoDup (keys (pending_result s))
  /\ Forall (fun kv => dict_get (fst kv) (pending_checksum s) = Some (total_rows (snd kv)))
            (pending_result s)
  /\ (forall k, dict_get k (pending_result s) = None ->
                dict_get k (pending_checksum s) = None)
  /\ Forall (fun kv => dict_get (fst kv) (job_checksum s) <> None) (pending_result s).

(** The job is complete: [pending_checksum[k] == job_checksum[k]]. *)
Definition complete (s : Sink) (kv : bytes * list part) : bool :=
  match dict_get (fst kv) (job_checksum s) with
  | Some e => received (fst kv) s =? e
  | None => false
  end.

(** The parts are in ascending order of their partial ids, read as
    integers. *)
Definition ascending (l : list part) : Prop :=
  exists ks, map (fun p => int_of (snd p)) l = map Some ks /\ StronglySorted Z.le ks.

(** The integer a partial id stands for ([0] when it is no integer). *)
Definition key_of (p : part) : Z :=
  match int_of (snd p) with Some k => k | None => 0 end.

(** The array a worker returns for [items]: one row [enc item] per item,
    in the order of the items. *)
Definition encoded (d : string) (tl : list nat) (enc : json -> bytes)
    (items : list json) : ndarray :=
  mk_ndarray d (length items :: tl) (bconcat (map enc items)).

(** The chunks the ventilator pushes for a batch, each with its label. *)
Definition dispatched (job_id : bytes) (m : Z) (seqs : list json)
    : list (bytes * list json) :=
  if Z.of_nat (length seqs) <=? m then [(job_id, seqs)]
  else map (fun c => (job_id +++ "@" +++ fmt_d (fst c), snd c)) (chunks m seqs).

Section Notions.
Context {E : Extern}.

(** What the ventilator pushes to the workers for the chunk [c] of the job
    [job_id]. *)
Definition chunk_send (job_id : bytes) (c : Z * list json) : effect :=
  Send VentBackend [job_id +++ "@" +++ fmt_d (fst c); jsonapi_dumps (JArr (snd c))].

(** The parts the sink holds once the workers' results for the chunks of a
    batch have arrived. *)
Definition expected_parts (job_id : bytes) (d : string) (tl : list nat)
    (enc : json -> bytes) (m : Z) (seqs : list json) : list part :=
  map (fun lc => (encoded d tl enc (snd lc), snd (parse_chunk_id (fst lc))))
      (dispatched job_id m seqs).

(** The parts of the job can be put together and sent: its id has a
    client address and a request id, its partial ids are integers, its
    arrays fit together. *)
Definition deliverable (kv : bytes * list part) : Prop :=
  exists client_addr req_id sorted X,
    split "#" (fst kv) = [client_addr; req_id]
    /\ sorted_parts (snd kv) = Some sorted
    /\ np_concatenate (map fst sorted) = Ok X.

(** The job, if it is complete, is deliverable. *)
Definition ready (s : Sink) (kv : bytes * list part) : Prop :=
  complete s kv = true -> deliverable kv.

End Notions.

(** The envelope is counted as an encode request: three frames, a payload
    that is not [SHOW_CONFIG], a request id that [int()] reads. *)
Definition counted (request : list bytes) : bool :=
  match request with
  | [_; msg; req_id] =>
      negb (String.eqb msg show_config)
      && match py_int req_id with Some _ => true | None => false end
  | _ => false
  end.

(** Since the trace was [tr0], only effects that satisfy [P] were added. *)
Definition emitted {S : Type} (P : effect -> Prop) (tr0 : list effect)
    (w : S * list effect) : Prop :=
  exists new, snd w = tr0 ++ new /\ Forall P new.

(** What the ventilator may emit while it handles a request of the client
    [client] with the request id [req_id]. *)
Definition ventilated (client req_id : bytes) (ev : effect) : Prop :=
  match ev with
  | Log _ _ => True
  | Send VentSink [c; t; info; r] =>
      c = client /\ r = req_id
      /\ (t = show_config \/ (t = new_job /\ exists n, info = fmt_d n))
  | Send VentBackend [label; _] =>
      py_int req_id <> None
      /\ (label = client +++ "#" +++ req_id
          \/ exists off, label = (client +++ "#" +++ req_id) +++ "@" +++ fmt_d off)
  | _ => False
  end.

(** The sink handles the control message without raising, in any state. *)
Definition accepted (frames : list bytes) : Prop :=
  forall (s : Sink) (tr : list effect),
    exists s' tr', on_frontend frames (s, tr) = (Ok tt, (s', tr')).

(** The effect publishes no result for a job id with an [@]. *)
Definition no_at (ev : effect) : Prop :=
  forall k, delivers k ev -> contains "@" k = false.

(** No job with parts has an [@] in its id, and no result was published
    for a job id with an [@]. *)
Definition at_free (w : Sink * list effect) : Prop :=
  Forall (fun kv => contains "@" (fst kv) = false) (pending_result (fst w))
  /\ Forall no_at (snd w).

(** Every registered job id holds a [#]. *)
Definition registered_with_hash (w : Sink * list effect) : Prop :=
  Forall (fun kv => contains "#" (fst kv) = true) (job_checksum (fst w)).

(** The part the sink stores for the worker output [o]. *)
Definition part_of (o : bytes * ndarray) : part :=
  (snd o, snd (parse_chunk_id (fst o))).

(** The results of ideal workers for the chunks of a batch. *)
Definition results_of (job_id : bytes) (d : string) (tl : list nat)
    (enc : json -> bytes) (m : Z) (seqs : list json) : list (bytes * ndarray) :=
  map (fun lc => (fst lc, encoded d tl enc (snd lc))) (dispatched job_id m seqs).

(** The device map when [avail_gpu] free GPUs are shared by [n] workers:
    worker [i] is given the GPU at place [i mod len(avail_gpu)]. *)
Definition shared (avail_gpu : list Z) (n : nat) : list Z :=
  map (fun i => nth (i mod length avail_gpu) avail_gpu 0) (seq 0 n).

Section NotionsOfTheCodec.
Context {E : Extern}.


(** The message of a worker that finished the array [snd o] for the chunk
    labelled [fst o]. *)
Definition worker_output (o : bytes * ndarray) : list bytes :=
  ndarray_frames (fst o) (snd o) default_req_id.

(** The sink decodes the header and the buffer of [X] back to [X]. *)
Definition decodable (X : ndarray) : Prop :=
  exists info,
    jsonapi_loads (jsonapi_dumps (md X)) = Some info
    /\ materialize info (buf X) = Ok X.

End NotionsOfTheCodec.

(* ================================================================= *)
(** ** Concrete messages and states for the examples *)

Definition ex_srv : BertServer :=
  {| max_batch_size := 2;
     num_processes := 2;
     addr_backend := "ipc://backend";
     addr_sink := "ipc://sink";
     addr_front2sink := "ipc://pair";
     run_on_gpu := false;
     args_dict := [("max_batch_size", JInt 2); ("port", JInt 5555);
                   ("port_out", JInt 5556)] |}.

Definition ex_vent : Vent := {| num_req := 0 |}.

Definition ex_batch : list json := [JStr "first"; JStr "second"; JStr "third"].

(** The payload of a client that asks for the encoding of [ex_batch]. *)
Definition ex_payload : bytes := Eval vm_compute in Mini.dumps (JArr ex_batch).

(** One row and two rows of four 32-bit numbers. *)
Definition ex_row : ndarray :=
  mk_ndarray "float32" [1%nat; 4%nat] "0000111122223333".

Definition ex_rows : ndarray :=
  mk_ndarray "float32" [2%nat; 4%nat] "aaaabbbbccccddddeeeeffffgggghhhh".

(** The messages of a worker that finished these arrays. *)
Definition ex_output (chunk_id : bytes) (X : ndarray) : list bytes :=
  ndarray_frames (E := Mini.extern) chunk_id X default_req_id.

(** The sink with the job [c#7] of three items registered and its last
    row received. *)
Definition ex_sink : Sink :=
  {| pending_checksum := [("c#7", 1)];
     pending_result := [("c#7", [(ex_row, VBytes "2")])];
     job_checksum := [("c#7", 3)] |}.

(** The sink with the job [c#1] of one item registered and its row
    received, before the completion check. *)
Definition ex_sink_full : Sink :=
  {| pending_checksum := [("c#1", 1)];
     pending_result := [("c#1", [(ex_row, VInt 0)])];
     job_checksum := [("c#1", 1)] |}.



(** The payload of a client that asks for the encoding of one sentence. *)
Definition ex_single_payload : bytes :=
  Eval vm_compute in Mini.dumps (JArr [JStr "first"]).

(** An encoder for the examples: sixteen bytes for every item. *)
Definition ex_enc (j : json) : bytes :=
  match j with
  | JStr "first" => "aaaabbbbccccdddd"
  | JStr "second" => "eeeeffffgggghhhh"
  | _ => "0000111122223333"
  end.

(** The sink with the job [a#b#7] of one item registered: the job of a
    client whose address holds [#]. *)
Definition ex_sink_hash : Sink :=
  {| pending_checksum := []; pending_result := []; job_checksum := [("a#b#7", 1)] |}.

(* ================================================================= *)
(** ** Facts about the Python layer *)

Lemma all_space_int_chars (s : bytes) :
  all_space s = true -> all_chars int_char s = true.
Proof.
  induction s as [|c r IH]; simpl; [reflexivity|].
  intros H. apply andb_true_iff in H as [Hc Hr].
  unfold int_char. rewrite Hc. simpl. auto.
Qed.

Lemma int_digits_chars (s : bytes) :
  forall acc b z, int_digits acc b s = Some z -> all_chars int_char s = true.
Proof.
  induction s as [|c r IH]; intros acc b z H; [reflexivity|].
  cbn [int_digits] in H. cbn [all_chars].
  destruct (is_digit c) eqn:Hd.
  - unfold int_char. rewrite Hd, orb_true_r. simpl. eauto.
  - destruct (Ascii.eqb c "_") eqn:Hu.
    + unfold int_char. rewrite Hu, !orb_true_r. simpl.
      destruct b; [discriminate|eauto].
    + destruct b; [discriminate|].
      destruct (all_space (String c r)) eqn:Hs; [|discriminate].
      apply all_space_int_chars in Hs. exact Hs.
Qed.

Lemma int_body_chars (s : bytes) (z : Z) :
  int_body s = Some z -> all_chars int_char s = true.
Proof.
  destruct s as [|c r]; simpl; [discriminate|].
  destruct (is_digit c) eqn:Hd; [|discriminate].
  intros H. apply int_digits_chars in H.
  unfold int_char. rewrite Hd, orb_true_r. simpl. exact H.
Qed.

Lemma lstrip_chars (s : bytes) :
  all_chars int_char (lstrip s) = true -> all_chars int_char s = true.
Proof.
  induction s as [|c r IH]; simpl; [auto|].
  destruct (is_space c) eqn:Hs; [|auto].
  intros H. unfold int_char at 1. rewrite Hs. simpl. auto.
Qed.

Lemma py_int_chars (s : bytes) (z : Z) :
  py_int s = Some z -> all_chars int_char s = true.
Proof.
  unfold py_int. intros H. apply lstrip_chars.
  destruct (lstrip s) as [|c r] eqn:Hl; [discriminate|].
  assert (Hcase : (c = "+"%char \/ c = "-"%char) \/
                  int_body (String c r) = Some z).
  { destruct c as [[] [] [] [] [] [] [] []]; auto. }
  destruct Hcase as [[-> | ->] | Hb].
  - apply int_body_chars in H. simpl. exact H.
  - destruct (int_body r) as [y|] eqn:Hb; [|discriminate].
    apply int_body_chars in Hb. simpl. exact Hb.
  - apply int_body_chars in Hb. exact Hb.
Qed.

Lemma contains_all_chars (p : ascii -> bool) (c : ascii) (s : bytes) :
  contains c s = true -> p c = false -> all_chars p s = false.
Proof.
  intros Hc Hp. induction s as [|a r IH]; simpl in *; [discriminate|].
  apply orb_true_iff in Hc as [Ha | Hr].
  - apply Ascii.eqb_eq in Ha. subst a. rewrite Hp. reflexivity.
  - rewrite (IH Hr). apply andb_false_r.
Qed.

(** [int()] fails on every byte string that holds a [#] or an [@]. *)
Lemma py_int_rejects_sentinels (s : bytes) :
  contains "#" s = true \/ contains "@" s = true -> py_int s = None.
Proof.
  intros H. destruct (py_int s) as [z|] eqn:Hz; [|reflexivity].
  apply py_int_chars in Hz.
  destruct H as [H | H];
    rewrite (contains_all_chars int_char _ s H eq_refl) in Hz; discriminate.
Qed.

Lemma digit_char_is_digit (d : Z) :
  0 <= d < 10 -> is_digit (digit_char d) = true /\ digit_val (digit_char d) = d.
Proof.
  intros H.
  assert (Hd : d = 0 \/ d = 1 \/ d = 2 \/ d = 3 \/ d = 4 \/ d = 5 \/ d = 6 \/
               d = 7 \/ d = 8 \/ d = 9) by lia.
  repeat (destruct Hd as [-> | Hd]; [split; reflexivity|]).
  subst d. split; reflexivity.
Qed.

Lemma int_digits_digit (a : Z) (b : bool) (d : Z) (r : bytes) :
  0 <= d < 10 ->
  int_digits a b (String (digit_char d) r) = int_digits (a * 10 + d) false r.
Proof.
  intros H. destruct (digit_char_is_digit d H) as [H1 H2].
  cbn [int_digits]. rewrite H1, H2. reflexivity.
Qed.

Lemma fmt_digits_parse (fuel : nat) :
  forall n, 0 <= n < 10 ^ Z.of_nat (S fuel) ->
  exists k, 0 <= k /\ forall a b acc,
    int_digits a b (fmt_digits fuel n acc) = int_digits (a * 10 ^ k + n) false acc.
Proof.
  induction fuel as [|f IH]; intros n Hn.
  - exists 1. split; [lia|]. intros a b acc. cbn [fmt_digits].
    change (10 ^ Z.of_nat 1) with 10 in Hn.
    rewrite Z.mod_small by lia.
    rewrite int_digits_digit by lia. f_equal; lia.
  - cbn [fmt_digits]. destruct (n <? 10) eqn:Hlt.
    + apply Z.ltb_lt in Hlt. exists 1. split; [lia|]. intros a b acc.
      rewrite Z.mod_small by lia.
      rewrite int_digits_digit by lia. f_equal; lia.
    + apply Z.ltb_ge in Hlt.
      assert (Hq : 0 <= n / 10 < 10 ^ Z.of_nat (S f)).
      { split; [apply Z.div_pos; lia|].
        apply Z.div_lt_upper_bound; [lia|].
        replace (Z.of_nat (S (S f))) with (Z.succ (Z.of_nat (S f))) in Hn by lia.
        rewrite Z.pow_succ_r in Hn by lia. lia. }
      destruct (IH _ Hq) as (k & Hk0 & Hk).
      exists (k + 1). split; [lia|]. intros a b acc.
      rewrite Hk.
      rewrite int_digits_digit by (apply Z.mod_pos_bound; lia).
      f_equal.
      pose proof (Z.div_mod n 10 ltac:(lia)) as Hdm.
      rewrite Z.pow_add_r by lia.
      change (10 ^ 1) with 10. rewrite Hdm at 3.
      generalize (10 ^ k), (n / 10), (n mod 10). intros; ring.
Qed.

Lemma fmt_digits_head (fuel : nat) :
  forall n acc, exists c r,
    fmt_digits fuel n acc = String c r /\ is_digit c = true.
Proof.
  induction fuel as [|f IH]; intros n acc; cbn [fmt_digits].
  - eexists _, _. split; [reflexivity|].
    apply digit_char_is_digit, Z.mod_pos_bound. lia.
  - destruct (n <? 10); [|apply IH].
    eexists _, _. split; [reflexivity|].
    apply digit_char_is_digit, Z.mod_pos_bound. lia.
Qed.

Lemma log2_fuel (n : Z) :
  0 <= n -> 0 <= n < 10 ^ Z.of_nat (S (Z.to_nat (Z.log2 n))).
Proof.
  intros H. split; [exact H|].
  pose proof (Z.log2_nonneg n) as Hl.
  replace (Z.of_nat (S (Z.to_nat (Z.log2 n)))) with (Z.succ (Z.log2 n)) by lia.
  assert (H0 : n = 0 \/ 0 < n) by lia. destruct H0 as [-> | Hp].
  - apply Z.pow_pos_nonneg; lia.
  - destruct (Z.log2_spec n Hp) as [_ Hu].
    eapply Z.lt_le_trans; [exact Hu|].
    apply Z.pow_le_mono_l. lia.
Qed.

Lemma int_body_fmt_digits (n : Z) :
  0 <= n -> int_body (fmt_digits (Z.to_nat (Z.log2 n)) n EmptyString) = Some n.
Proof.
  intros H.
  destruct (fmt_digits_parse _ n (log2_fuel n H)) as (k & _ & Hk).
  destruct (fmt_digits_head (Z.to_nat (Z.log2 n)) n EmptyString) as (c & r & Hs & Hc).
  specialize (Hk 0 false EmptyString). rewrite Hs in *.
  cbn [int_body]. rewrite Hc.
  cbn [int_digits] in Hk. rewrite Hc in Hk.
  replace (0 * 10 + digit_val c) with (digit_val c) in Hk by lia.
  rewrite Hk. cbn [int_digits]. f_equal; lia.
Qed.

(** [int(b'%d' % n) == n] *)
Lemma py_int_fmt_d (n : Z) : py_int (fmt_d n) = Some n.
Proof.
  unfold fmt_d. destruct (n <? 0) eqn:Hn.
  - apply Z.ltb_lt in Hn. unfold py_int. cbn [lstrip].
    change (is_space "-") with false. cbv iota.
    rewrite int_body_fmt_digits by lia. simpl. f_equal. lia.
  - apply Z.ltb_ge in Hn.
    pose proof (int_body_fmt_digits n Hn) as Hb.
    destruct (fmt_digits_head (Z.to_nat (Z.log2 n)) n EmptyString) as (c & r & Hs & Hc).
    rewrite Hs in *. unfold py_int. cbn [lstrip].
    assert (Hsp : is_space c = false).
    { destruct c as [[] [] [] [] [] [] [] []]; try reflexivity; discriminate Hc. }
    rewrite Hsp.
    destruct c as [[] [] [] [] [] [] [] []]; try exact Hb; discriminate Hc.
Qed.

Lemma contains_fmt_digits (x : ascii) (fuel : nat) :
  is_digit x = false ->
  forall n acc, contains x (fmt_digits fuel n acc) = contains x acc.
Proof.
  intros Hx. induction fuel as [|f IH]; intros n acc; cbn [fmt_digits].
  - cbn [contains].
    destruct (Ascii.eqb_spec (digit_char (n mod 10)) x) as [He|]; [|reflexivity].
    destruct (digit_char_is_digit (n mod 10)) as [Hd _];
      [apply Z.mod_pos_bound; lia|]. congruence.
  - assert (Hone : contains x (String (digit_char (n mod 10)) acc) = contains x acc).
    { cbn [contains].
      destruct (Ascii.eqb_spec (digit_char (n mod 10)) x) as [He|]; [|reflexivity].
      destruct (digit_char_is_digit (n mod 10)) as [Hd _];
        [apply Z.mod_pos_bound; lia|]. congruence. }
    destruct (n <? 10); [exact Hone|]. rewrite IH. exact Hone.
Qed.

(** [b'%d' % n] holds no [@]. *)
Lemma fmt_d_no_at (n : Z) : contains "@" (fmt_d n) = false.
Proof.
  unfold fmt_d. destruct (n <? 0); cbn [contains];
    rewrite contains_fmt_digits; reflexivity.
Qed.

Lemma split_not_nil (sep : ascii) (s : bytes) : split sep s <> [].
Proof.
  destruct s as [|c r]; simpl; [discriminate|].
  destruct (Ascii.eqb c sep); [discriminate|].
  destruct (split sep r); discriminate.
Qed.

Lemma split_no_sep (sep : ascii) (s : bytes) :
  contains sep s = false -> split sep s = [s].
Proof.
  induction s as [|c r IH]; simpl; [reflexivity|].
  intros H. apply orb_false_iff in H as [Hc Hr].
  rewrite Hc, (IH Hr). reflexivity.
Qed.

Lemma split_app (sep : ascii) (a b : bytes) :
  contains sep a = false ->
  split sep (a +++ String sep b) = a :: split sep b.
Proof.
  induction a as [|c r IH]; simpl.
  - intros _. rewrite Ascii.eqb_refl. reflexivity.
  - intros H. apply orb_false_iff in H as [Hc Hr].
    rewrite Hc, (IH Hr). reflexivity.
Qed.

Lemma split_one_inv (sep : ascii) (s b : bytes) :
  split sep s = [b] -> s = b.
Proof.
  revert b. induction s as [|c r IH]; intros b H; simpl in H.
  - injection H as <-. reflexivity.
  - destruct (Ascii.eqb c sep).
    + injection H as _ Hr. exfalso. exact (split_not_nil _ _ Hr).
    + destruct (split sep r) as [|h t] eqn:Hr; [exfalso; exact (split_not_nil _ _ Hr)|].
      injection H as <- ->. f_equal. apply IH. reflexivity.
Qed.

Lemma split_two_inv (sep : ascii) (s a b : bytes) :
  split sep s = [a; b] -> s = a +++ String sep b.
Proof.
  revert a. induction s as [|c r IH]; intros a H; simpl in H; [discriminate|].
  destruct (Ascii.eqb_spec c sep) as [-> | Hne].
  - injection H as <- Hr. apply split_one_inv in Hr. subst r. reflexivity.
  - destruct (split sep r) as [|h t] eqn:Hr; [discriminate|].
    injection H as <- ->. simpl. f_equal. apply IH. reflexivity.
Qed.

(** *** Dictionaries *)

Lemma dict_get_set_eq {V : Type} (k : bytes) (v : V) (d : dict V) :
  dict_get k (dict_set k v d) = Some v.
Proof.
  induction d as [|[k' v'] r IH]; simpl.
  - rewrite String.eqb_refl. reflexivity.
  - destruct (String.eqb k' k) eqn:Hk; simpl.
    + rewrite String.eqb_refl. reflexivity.
    + rewrite Hk. exact IH.
Qed.

Lemma dict_get_set_neq {V : Type} (k k' : bytes) (v : V) (d : dict V) :
  k <> k' -> dict_get k (dict_set k' v d) = dict_get k d.
Proof.
  intros Hne. induction d as [|[k0 v0] r IH]; simpl.
  - destruct (String.eqb_spec k' k); [congruence|reflexivity].
  - destruct (String.eqb_spec k0 k') as [-> | Hk]; simpl.
    + destruct (String.eqb_spec k' k); [congruence|reflexivity].
    + rewrite IH. reflexivity.
Qed.

Lemma dict_get_remove_eq {V : Type} (k : bytes) (d : dict V) :
  dict_get k (dict_remove k d) = None.
Proof.
  induction d as [|[k' v'] r IH]; simpl; [reflexivity|].
  destruct (String.eqb k' k) eqn:Hk; simpl; [exact IH|].
  rewrite Hk. exact IH.
Qed.

Lemma dict_get_remove_neq {V : Type} (k k' : bytes) (d : dict V) :
  k <> k' -> dict_get k (dict_remove k' d) = dict_get k d.
Proof.
  intros Hne. induction d as [|[k0 v0] r IH]; simpl; [reflexivity|].
  destruct (String.eqb_spec k0 k') as [-> | Hk]; simpl.
  - destruct (String.eqb_spec k' k); [congruence|exact IH].
  - rewrite IH. reflexivity.
Qed.

Lemma dict_get_In {V : Type} (k : bytes) (v : V) (d : dict V) :
  dict_get k d = Some v -> In (k, v) d.
Proof.
  induction d as [|[k' v'] r IH]; simpl; [discriminate|].
  destruct (String.eqb_spec k' k) as [-> | Hk].
  - intros H. injection H as ->. left. reflexivity.
  - intros H. right. exact (IH H).
Qed.

Lemma dict_In_get {V : Type} (k : bytes) (v : V) (d : dict V) :
  NoDup (keys d) -> In (k, v) d -> dict_get k d = Some v.
Proof.
  induction d as [|[k' v'] r IH]; simpl; [contradiction|].
  intros Hnd Hin. inversion Hnd as [|? ? Hnotin Hnd']; subst.
  destruct Hin as [Heq | Hin].
  - injection Heq as -> ->. rewrite String.eqb_refl. reflexivity.
  - destruct (String.eqb_spec k' k) as [-> | Hk].
    + exfalso. apply Hnotin. apply (in_map fst) in Hin. exact Hin.
    + exact (IH Hnd' Hin).
Qed.

Lemma keys_dict_remove {V : Type} (k : bytes) (d : dict V) :
  forall x, In x (keys (dict_remove k d)) -> In x (keys d) /\ x <> k.
Proof.
  unfold keys, dict_remove. intros x Hx.
  apply in_map_iff in Hx as ([k' v'] & <- & Hin).
  apply filter_In in Hin as [Hin Hf]. simpl in *.
  split; [apply (in_map fst) in Hin; exact Hin|].
  destruct (String.eqb_spec k' k); [discriminate|assumption].
Qed.

Lemma NoDup_keys_remove {V : Type} (k : bytes) (d : dict V) :
  NoDup (keys d) -> NoDup (keys (dict_remove k d)).
Proof.
  induction d as [|[k' v'] r IH]; simpl; [auto|].
  intros Hnd. inversion Hnd as [|? ? Hnotin Hnd']; subst.
  destruct (String.eqb k' k); simpl; [auto|].
  constructor; [|auto].
  intros Hin. apply keys_dict_remove in Hin as [Hin _]. auto.
Qed.

Lemma keys_dict_set {V : Type} (k : bytes) (v : V) (d : dict V) :
  forall x, In x (keys (dict_set k v d)) <-> In x (keys d) \/ x = k.
Proof.
  induction d as [|[k' v'] r IH]; simpl; intros x.
  - split; [intros [<- | []]; auto | intros [[] | ->]; auto].
  - destruct (String.eqb_spec k' k) as [-> | Hk]; simpl.
    + split; [intros [<- | H]; auto | intros [[<- | H] | ->]; auto].
    + rewrite IH. tauto.
Qed.

Lemma NoDup_keys_set {V : Type} (k : bytes) (v : V) (d : dict V) :
  NoDup (keys d) -> NoDup (keys (dict_set k v d)).
Proof.
  induction d as [|[k' v'] r IH]; simpl.
  - intros _. constructor; [intros []|constructor].
  - intros Hnd. inversion Hnd as [|? ? Hnotin Hnd']; subst.
    destruct (String.eqb_spec k' k) as [-> | Hk]; simpl.
    + constructor; assumption.
    + constructor; [|auto].
      intros Hin. apply keys_dict_set in Hin as [Hin | ->]; auto.
Qed.

(** *** The partition into chunks *)


Lemma chunks_from_concat {A : Type} (m : nat) :
  (1 <= m)%nat ->
  forall f off (l : list A),
    (length l <= f)%nat -> concat (map snd (chunks_from f m off l)) = l.
Proof.
  intros Hm. induction f as [|f IH]; intros off l Hf.
  - destruct l; [reflexivity|simpl in Hf; lia].
  - destruct l as [|x r]; [reflexivity|].
    cbn [chunks_from map snd concat].
    rewrite IH by (rewrite length_skipn; cbn [length] in *; lia).
    apply firstn_skipn.
Qed.

Lemma chunks_from_sizes {A : Type} (m : nat) :
  (1 <= m)%nat ->
  forall f off (l : list A) c,
    In c (chunks_from f m off l) -> (1 <= length (snd c) <= m)%nat.
Proof.
  intros Hm. induction f as [|f IH]; intros off l c Hin.
  - destruct l; destruct Hin.
  - destruct l as [|x r]; [destruct Hin|].
    cbn [chunks_from] in Hin. destruct Hin as [<- | Hin]; [|eauto].
    cbn [snd]. rewrite length_firstn. cbn [length]. lia.
Qed.




(** *** The loop monad *)

Section MonadLaws.
Context {S A B : Type}.

Lemma bind_ret (a : A) (k : A -> M S B) (w : S * list effect) :
  bind (ret a) k w = k a w.
Proof. reflexivity. Qed.

Lemma bind_lift_ok (a : A) (k : A -> M S B) (w : S * list effect) :
  bind (lift (Ok a)) k w = k a w.
Proof. reflexivity. Qed.

Lemma bind_lift_raise (e : exn) (k : A -> M S B) (w : S * list effect) :
  bind (lift (Raise e)) k w = (Raise e, w).
Proof. reflexivity. Qed.

Lemma bind_raise (e : exn) (k : A -> M S B) (w : S * list effect) :
  bind (raise e) k w = (Raise e, w).
Proof. reflexivity. Qed.

Lemma bind_or_raise_some (e : exn) (a : A) (k : A -> M S B) (w : S * list effect) :
  bind (or_raise e (Some a)) k w = k a w.
Proof. reflexivity. Qed.

Lemma bind_or_raise_none (e : exn) (k : A -> M S B) (w : S * list effect) :
  bind (or_raise e None) k w = (Raise e, w).
Proof. reflexivity. Qed.

Lemma bind_emit (e : effect) (k : unit -> M S B) (s : S) (tr : list effect) :
  bind (emit e) k (s, tr) = k tt (s, tr ++ [e]).
Proof. reflexivity. Qed.

Lemma bind_get (k : S -> M S B) (s : S) (tr : list effect) :
  bind get k (s, tr) = k s (s, tr).
Proof. reflexivity. Qed.

Lemma bind_modify (f : S -> S) (k : unit -> M S B) (s : S) (tr : list effect) :
  bind (modify f) k (s, tr) = k tt (f s, tr).
Proof. reflexivity. Qed.

Lemma bind_assoc {C : Type} (m : M S A) (f : A -> M S B) (g : B -> M S C)
    (w : S * list effect) :
  bind (bind m f) g w = bind m (fun a => bind (f a) g) w.
Proof.
  unfold bind. destruct (m w) as [[a | e |] w']; reflexivity.
Qed.

Lemma bind_ok (m : M S A) (k : A -> M S B) (w w' : S * list effect) (a : A) :
  m w = (Ok a, w') -> bind m k w = k a w'.
Proof. intros H. unfold bind. rewrite H. reflexivity. Qed.

Lemma bind_err (m : M S A) (k : A -> M S B) (w w' : S * list effect) (e : exn) :
  m w = (Raise e, w') -> bind m k w = (Raise e, w').
Proof. intros H. unfold bind. rewrite H. reflexivity. Qed.

End MonadLaws.

Lemma emit_run {S : Type} (e : effect) (s : S) (tr : list effect) :
  emit e (s, tr) = (Ok tt, (s, tr ++ [e])).
Proof. reflexivity. Qed.

Lemma ret_run {S A : Type} (a : A) (w : S * list effect) :
  ret a w = (Ok a, w).
Proof. reflexivity. Qed.

Ltac mstep :=
  repeat first
    [ rewrite bind_assoc
    | rewrite bind_ret
    | rewrite bind_lift_ok
    | rewrite bind_lift_raise
    | rewrite bind_raise
    | rewrite bind_or_raise_some
    | rewrite bind_or_raise_none
    | rewrite bind_emit
    | rewrite bind_get
    | rewrite bind_modify
    | rewrite emit_run
    | rewrite ret_run ].

(* ================================================================= *)
(** ** The ventilator *)

Section Ventilator.
Context {E : Extern}.

Lemma handle_request_wrong_length (fuel : nat) (srv : BertServer) (now : string)
    (request : list bytes) (w : Vent * list effect) :
  length request <> 3%nat ->
  handle_request fuel srv now request w = (Raise ValueError, w).
Proof.
  intros H. destruct request as [|a [|b [|c [|d r]]]]; try reflexivity.
  exfalso. apply H. reflexivity.
Qed.

(** C6.  An inbound envelope that does not have three frames is logged
    (two error lines, one with the frame count) and dropped: the turn of
    the loop raises nothing, the request counter is unchanged, nothing is
    sent to the sink or to the workers, and the loop goes on to serve the
    requests that follow from the same state. *)
Theorem wrong_frame_count_is_logged_and_dropped
    (fuel : nat) (srv : BertServer) (now : string) (request : list bytes)
    (st : Vent) (tr : list effect) (rest : list (string * list bytes)) :
  length request <> 3%nat ->
  serve fuel srv now request (st, tr) = (Ok tt, (st, tr ++ wrongly_formatted request))
  /\ ventilator_run fuel srv ((now, request) :: rest) (st, tr)
     = ventilator_run fuel srv rest (st, tr ++ wrongly_formatted request).
Proof.
  intros H.
  assert (Hs : serve fuel srv now request (st, tr)
               = (Ok tt, (st, tr ++ wrongly_formatted request))).
  { unfold serve, try_except.
    rewrite handle_request_wrong_length by exact H.
    unfold bind, emit, wrongly_formatted. simpl.
    rewrite <- app_assoc. reflexivity. }
  split; [exact Hs|].
  cbn [ventilator_run]. unfold bind at 1. rewrite Hs. reflexivity.
Qed.


(** C9, as the code does it.  An envelope whose request id holds [#] or
    [@] is dropped at the ventilator, whatever its payload: [int(req_id)]
    raises [ValueError], so the request is logged as wrongly formatted, the
    request counter is unchanged, no job is registered and no chunk is
    pushed.  The client address is not looked at. *)
Theorem sentinel_in_request_id_is_dropped
    (fuel : nat) (srv : BertServer) (now : string) (client msg req_id : bytes)
    (st : Vent) (tr : list effect) :
  contains "#" req_id = true \/ contains "@" req_id = true ->
  serve fuel srv now [client; msg; req_id] (st, tr)
  = (Ok tt, (st, tr ++ wrongly_formatted [client; msg; req_id])).
Proof.
  intros H. apply py_int_rejects_sentinels in H.
  unfold serve, try_except, handle_request.
  destruct (String.eqb msg show_config);
    unfold bind, or_raise, raise, emit; rewrite H; simpl;
    rewrite <- app_assoc; reflexivity.
Qed.



(** With a batch limit of zero the inner loop of the ventilator never
    ends on a non-empty batch: every slice is empty, so the offset stays
    where it is.  The job is announced to the sink and no chunk follows. *)
Theorem zero_batch_limit_never_ends
    (fuel : nat) (srv : BertServer) (now : string) (client msg req_id : bytes)
    (r : Z) (seqs : list json) (st : Vent) (tr : list effect) :
  max_batch_size srv = 0 ->
  seqs <> [] ->
  msg <> show_config ->
  py_int req_id = Some r ->
  jsonapi_loads msg = Some (JArr seqs) ->
  serve fuel srv now [client; msg; req_id] (st, tr)
  = (NoFuel,
     ({| num_req := num_req st + 1 |},
      tr ++ [Log INFO (NewEncodeRequest r client);
             Send VentSink [client; new_job; fmt_d (Z.of_nat (length seqs)); req_id]])).
Proof.
  intros Hm Hne Hmsg Hr Hl.
  assert (Hloop : forall f w,
            partition_loop f srv (client +++ "#" +++ req_id) (JArr seqs)
              (Z.of_nat (length seqs)) 0 w = (NoFuel, w)).
  { assert (Hpos : (0 <? Z.of_nat (length seqs)) = true).
    { apply Z.ltb_lt. destruct seqs; [congruence|cbn [length]; lia]. }
    induction f as [|f IH]; intros w; cbn [partition_loop]; rewrite Hpos; [reflexivity|].
    rewrite Hm. cbn [py_getslice].
    assert (Hs : py_slice seqs 0 (0 + 0) = []).
    { unfold py_slice, clamp_index. cbn.
      rewrite Z.min_l by lia. reflexivity. }
    rewrite Hs. cbn [truthy py_len length]. mstep. apply IH. }
  unfold serve, try_except, handle_request.
  destruct (String.eqb_spec msg show_config) as [Heq|_]; [contradiction|].
  rewrite Hr, Hl. mstep. cbn [py_len]. mstep. rewrite Hm.
  assert (Hgt : (Z.of_nat (length seqs) >? 0) = true).
  { destruct seqs; [congruence|reflexivity]. }
  rewrite Hgt, Hloop. rewrite <- app_assoc. reflexivity.
Qed.

(** A request whose payload is no JSON is dropped, but after it was
    counted: the request counter goes up, the request is logged as an
    encode request and then as wrongly formatted, and nothing is sent. *)
Theorem unparseable_payload_is_counted_and_dropped
    (fuel : nat) (srv : BertServer) (now : string) (client msg req_id : bytes)
    (r : Z) (st : Vent) (tr : list effect) :
  msg <> show_config ->
  py_int req_id = Some r ->
  jsonapi_loads msg = None ->
  serve fuel srv now [client; msg; req_id] (st, tr)
  = (Ok tt,
     ({| num_req := num_req st + 1 |},
      (tr ++ [Log INFO (NewEncodeRequest r client)])
         ++ wrongly_formatted [client; msg; req_id])).
Proof.
  intros Hmsg Hr Hl.
  unfold serve, try_except, handle_request.
  destruct (String.eqb_spec msg show_config) as [Heq|_]; [contradiction|].
  rewrite Hr, Hl. mstep. unfold wrongly_formatted.
  rewrite <- !app_assoc. reflexivity.
Qed.

End Ventilator.

(* ================================================================= *)
(** ** The sink and the worker *)

Section SinkFacts.
Context {E : Extern}.

(** C8.  Handling a [SHOW_CONFIG] control message in any state of the
    sink raises nothing and leaves [pending_checksum], [pending_result] and
    [job_checksum] as they were. *)
Theorem show_config_leaves_the_job_tables
    (s : Sink) (tr : list effect) (client_addr info req_id : bytes) :
  exists s' tr',
    on_frontend [client_addr; show_config; info; req_id] (s, tr) = (Ok tt, (s', tr'))
    /\ pending_checksum s' = pending_checksum s
    /\ pending_result s' = pending_result s
    /\ job_checksum s' = job_checksum s.
Proof.
  unfold on_frontend. change (String.eqb show_config new_job) with false.
  rewrite String.eqb_refl. cbv iota. mstep.
  eexists _, _. repeat split.
Qed.

Lemma on_receiver_three_frames (a b c : bytes) (extra : list bytes)
    (w : Sink * list effect) :
  on_receiver (a :: b :: c :: extra) w = on_receiver [a; b; c] w.
Proof. reflexivity. Qed.

(** C10, as the code does it.  For a finished prediction the worker sends
    four frames to the sink: the chunk id, the JSON header
    [{dtype, shape}], the buffer of the array and an empty fourth frame
    (the default [req_id] of [send_ndarray]); the sink reads the first
    three frames by position and does the same whether a fourth frame is
    there or not. *)
Theorem worker_output_has_an_empty_fourth_frame
    (r : prediction) (tr : list effect) :
  worker_step r (tt, tr)
  = (Ok tt, (tt, tr ++ [Send WorkerSink
                          [client_id r;
                           jsonapi_dumps
                             (JObj [("dtype", JStr (dtype (encodes r)));
                                    ("shape", JArr (map (fun n => JInt (Z.of_nat n))
                                                        (shape (encodes r))))]);
                           buf (encodes r);
                           EmptyString];
                        Log INFO (JobDone (shape (encodes r)) (client_id r))]))
  /\ forall (a b c d : bytes) (w : Sink * list effect),
       on_receiver [a; b; c; d] w = on_receiver [a; b; c] w.
Proof.
  split; [|intros; apply on_receiver_three_frames].
  unfold worker_step, send_ndarray, ndarray_frames, md, default_req_id.
  mstep. rewrite <- app_assoc. reflexivity.
Qed.

Lemma dict_set_set {V : Type} (k : bytes) (v v0 : V) (d : dict V) :
  dict_set k v (dict_set k v0 d) = dict_set k v d.
Proof.
  induction d as [|[k' v'] r IH]; simpl.
  - rewrite String.eqb_refl. reflexivity.
  - destruct (String.eqb k' k) eqn:Hk; simpl.
    + rewrite String.eqb_refl. reflexivity.
    + rewrite Hk, IH. reflexivity.
Qed.

Lemma read_pending_result_run (k : bytes) (s : Sink) (tr : list effect) :
  exists s1,
    read_pending_result k (s, tr) = (Ok (parts_of k s), (s1, tr))
    /\ pending_checksum s1 = pending_checksum s
    /\ job_checksum s1 = job_checksum s
    /\ forall v, dict_set k v (pending_result s1) = dict_set k v (pending_result s).
Proof.
  unfold read_pending_result, parts_of. mstep.
  destruct (dict_get k (pending_result s)) as [v|]; mstep.
  - exists s. auto.
  - eexists. split; [reflexivity|]. cbn. repeat split.
    intros v. apply dict_set_set.
Qed.

Lemma read_pending_checksum_run (k : bytes) (s : Sink) (tr : list effect) :
  exists s1,
    read_pending_checksum k (s, tr) = (Ok (received k s), (s1, tr))
    /\ pending_result s1 = pending_result s
    /\ job_checksum s1 = job_checksum s
    /\ (forall v, dict_set k v (pending_checksum s1) = dict_set k v (pending_checksum s))
    /\ (forall j, j <> k -> dict_get j (pending_checksum s1) = dict_get j (pending_checksum s))
    /\ (dict_get k (pending_checksum s) <> None -> s1 = s).
Proof.
  unfold read_pending_checksum, received. mstep.
  destruct (dict_get k (pending_checksum s)) as [v|]; mstep.
  - exists s. repeat split; auto.
  - eexists. split; [reflexivity|]. cbn. repeat split.
    + intros v. apply dict_set_set.
    + intros j Hj. apply dict_get_set_neq. exact Hj.
    + intros H. congruence.
Qed.

Lemma shape0_rows (X : ndarray) :
  shape X <> [] -> shape0 X = Ok (Z.of_nat (rows X)).
Proof.
  unfold shape0, rows. destruct (shape X); [congruence|reflexivity].
Qed.

(** What [collect] does with a message that decodes to an array. *)
Lemma collect_decoded (chunk_id header payload : bytes) (rest : list bytes)
    (arr_info : json) (X : ndarray) (k : bytes) (partial_id : pyval)
    (s : Sink) (tr : list effect) :
  jsonapi_loads header = Some arr_info ->
  materialize arr_info payload = Ok X ->
  shape X <> [] ->
  parse_chunk_id chunk_id = (k, partial_id) ->
  collect (chunk_id :: header :: payload :: rest) (s, tr)
  = match dict_get k (job_checksum s) with
    | Some e =>
        (Ok tt, (store k X partial_id s,
                 tr ++ [Log INFO (CollectJob k (received k s + Z.of_nat (rows X)) e)]))
    | None => (Raise KeyError, (store k X partial_id s, tr))
    end.
Proof.
  intros Hl Hm Hs Hp. unfold collect, index. cbn [nth_error].
  mstep. rewrite Hl. mstep. rewrite Hm. mstep. rewrite Hp.
  destruct (read_pending_result_run k s tr) as (s1 & H1 & Hpc1 & Hjc1 & Hset1).
  rewrite (bind_ok _ _ _ _ _ H1). mstep.
  set (s2 := set_pending_result _ s1).
  destruct (read_pending_checksum_run k s2 tr) as (s3 & H3 & Hpr3 & Hjc3 & Hset3 & _ & _).
  rewrite (bind_ok _ _ _ _ _ H3).
  rewrite (shape0_rows X Hs). mstep.
  set (s4 := set_pending_checksum _ s3).
  assert (Hs4 : s4 = store k X partial_id s).
  { unfold s4, store, set_pending_checksum. f_equal.
    - rewrite Hset3. unfold s2. cbn. rewrite Hpc1. unfold received. cbn.
      rewrite Hpc1. reflexivity.
    - rewrite Hpr3. unfold s2. cbn. apply Hset1.
    - rewrite Hjc3. unfold s2. cbn. exact Hjc1. }
  rewrite Hs4.
  unfold read_pending_checksum at 1. mstep.
  assert (Hget : dict_get k (pending_checksum (store k X partial_id s))
                 = Some (received k s + Z.of_nat (rows X))).
  { unfold store. cbn. apply dict_get_set_eq. }
  rewrite Hget. mstep.
  unfold read_job_checksum. mstep.
  change (job_checksum (store k X partial_id s)) with (job_checksum s).
  destruct (dict_get k (job_checksum s)); mstep; reflexivity.
Qed.

(** A partial of a job that is not registered makes the sink raise
    [KeyError], after the partial is stored. *)
Lemma unregistered_partial_raises (chunk_id header payload : bytes)
    (rest : list bytes) (arr_info : json) (X : ndarray) (k : bytes)
    (partial_id : pyval) (s : Sink) (tr : list effect) :
  jsonapi_loads header = Some arr_info ->
  materialize arr_info payload = Ok X ->
  shape X <> [] ->
  parse_chunk_id chunk_id = (k, partial_id) ->
  dict_get k (job_checksum s) = None ->
  on_receiver (chunk_id :: header :: payload :: rest) (s, tr)
  = (Raise KeyError, (store k X partial_id s, tr)).
Proof.
  intros Hl Hm Hs Hp Hk. unfold on_receiver, bind.
  rewrite (collect_decoded _ _ _ _ _ _ _ _ _ _ Hl Hm Hs Hp), Hk. reflexivity.
Qed.

(** C3.  A partial result whose job is not registered yet (there is no
    [job_checksum] entry for it), decoding to an array of at least one
    dimension: the sink stores its rows and then raises [KeyError] in the
    progress log line.  Nothing catches it: [BertSink.run] ends with that
    exception, even when the registration waits on the pair socket in the
    same turn, and no later message is handled. *)
Theorem partial_before_registration_kills_the_sink
    (chunk_id header payload : bytes) (rest : list bytes)
    (arr_info : json) (X : ndarray) (k : bytes) (partial_id : pyval)
    (s : Sink) (tr : list effect)
    (from_ventilator : option (list bytes))
    (polls : list (option (list bytes) * option (list bytes))) :
  jsonapi_loads header = Some arr_info ->
  materialize arr_info payload = Ok X ->
  shape X <> [] ->
  parse_chunk_id chunk_id = (k, partial_id) ->
  dict_get k (job_checksum s) = None ->
  on_receiver (chunk_id :: header :: payload :: rest) (s, tr)
  = (Raise KeyError, (store k X partial_id s, tr))
  /\ sink_run ((Some (chunk_id :: header :: payload :: rest), from_ventilator) :: polls)
       (s, tr)
     = (Raise KeyError, (store k X partial_id s, tr)).
Proof.
  intros Hl Hm Hs Hp Hk.
  pose proof (unregistered_partial_raises _ _ _ rest _ _ _ _ s tr Hl Hm Hs Hp Hk) as H.
  split; [exact H|].
  unfold sink_run, try_except. cbn [sink_loop]. unfold sink_turn.
  rewrite (bind_err _ _ _ _ _ (bind_err _ _ _ _ _ H)). reflexivity.
Qed.

Lemma dict_pop_some {V : Type} (k : bytes) (d : dict V) (v : V) (d' : dict V) :
  dict_pop k d = Some (v, d') -> d' = dict_remove k d /\ dict_get k d = Some v.
Proof.
  unfold dict_pop. destruct (dict_get k d); [|discriminate].
  intros H. injection H as -> <-. auto.
Qed.

(** A delivery that goes through: what was read, what was sent, and the
    tables it leaves. *)
Lemma send_back_ok_inv (k : bytes) (v : list part) (s : Sink) (tr : list effect)
    (w' : Sink * list effect) :
  send_back (k, v) (s, tr) = (Ok tt, w') ->
  exists size sorted client_addr req_id X,
    dict_get k (job_checksum s) = Some size
    /\ sorted_parts v = Some sorted
    /\ split "#" k = [client_addr; req_id]
    /\ np_concatenate (map fst sorted) = Ok X
    /\ w' = (forget k s,
             tr ++ [Log INFO (SendBack size k);
                    Send SinkSender (ndarray_frames client_addr X req_id)]).
Proof.
  unfold send_back, read_job_checksum. mstep.
  destruct (dict_get k (job_checksum s)) as [size|] eqn:Hsize; mstep; [|discriminate].
  destruct (sorted_parts v) as [sorted|]; mstep; [|discriminate].
  destruct (split "#" k) as [|ca [|rid [|x l]]]; mstep; try discriminate.
  destruct (np_concatenate (map fst sorted)) as [X| |] eqn:HX; mstep; try discriminate.
  unfold send_ndarray, pop_pending_result, pop_pending_checksum, pop_job_checksum.
  mstep.
  destruct (dict_pop k (pending_result s)) as [[v1 d1]|] eqn:H1; mstep; [|discriminate].
  cbn [pending_checksum set_pending_result].
  destruct (dict_pop k (pending_checksum s)) as [[v2 d2]|] eqn:H2; mstep; [|discriminate].
  cbn [job_checksum set_pending_checksum set_pending_result].
  destruct (dict_pop k (job_checksum s)) as [[v3 d3]|] eqn:H3; mstep; [|discriminate].
  intros H. injection H as <-.
  apply dict_pop_some in H1 as [-> _], H2 as [-> _], H3 as [-> _].
  exists size, sorted, ca, rid, X. repeat split; [exact HX|].
  rewrite <- app_assoc. reflexivity.
Qed.

Lemma forget_unknown (k : bytes) (s : Sink) : unknown k (forget k s).
Proof.
  unfold unknown, forget. cbn. repeat split; apply dict_get_remove_eq.
Qed.

(** C4.  After a delivery of the job [k] goes through, none of the three
    tables holds an entry for [k].  A partial of [k] that arrives then is
    not ignored: it is stored again (one part, its rows counted), and the
    sink raises [KeyError] since [k] is not registered; nothing is
    published a second time. *)
Theorem late_partial_after_delivery_raises
    (k : bytes) (v : list part) (s s' : Sink) (tr tr' : list effect)
    (chunk_id header payload : bytes) (rest : list bytes)
    (arr_info : json) (X : ndarray) (partial_id : pyval) :
  send_back (k, v) (s, tr) = (Ok tt, (s', tr')) ->
  jsonapi_loads header = Some arr_info ->
  materialize arr_info payload = Ok X ->
  shape X <> [] ->
  parse_chunk_id chunk_id = (k, partial_id) ->
  unknown k s'
  /\ on_receiver (chunk_id :: header :: payload :: rest) (s', tr')
     = (Raise KeyError, (store k X partial_id s', tr'))
  /\ dict_get k (pending_result (store k X partial_id s')) = Some [(X, partial_id)]
  /\ dict_get k (pending_checksum (store k X partial_id s')) = Some (Z.of_nat (rows X)).
Proof.
  intros Hsb Hl Hm Hs Hp.
  apply send_back_ok_inv in Hsb as (size & sorted & ca & rid & Y & _ & _ & _ & _ & Hw).
  injection Hw as -> ->.
  pose proof (forget_unknown k s) as Hu.
  destruct Hu as (Hu1 & Hu2 & Hu3).
  split; [repeat split; assumption|].
  split; [apply (unregistered_partial_raises _ _ _ rest _ _ _ _ _ _ Hl Hm Hs Hp Hu3)|].
  unfold store, parts_of, received. rewrite Hu1, Hu2. cbn.
  rewrite !dict_get_set_eq. auto.
Qed.

(** *** Invariants kept through every outcome *)

Lemma keeps_ret {S A : Type} (I : S * list effect -> Prop) (a : A) : keeps I (ret a).
Proof. intros w r w' HI H. injection H as _ <-. exact HI. Qed.

Lemma keeps_raise {S A : Type} (I : S * list effect -> Prop) (e : exn) :
  keeps I (@raise S A e).
Proof. intros w r w' HI H. injection H as _ <-. exact HI. Qed.

Lemma keeps_lift {S A : Type} (I : S * list effect -> Prop) (o : outcome A) :
  keeps I (@lift S A o).
Proof. intros w r w' HI H. injection H as _ <-. exact HI. Qed.

Lemma keeps_or_raise {S A : Type} (I : S * list effect -> Prop) (e : exn) (o : option A) :
  keeps I (@or_raise S A e o).
Proof. destruct o; [apply keeps_ret|apply keeps_raise]. Qed.

Lemma keeps_get {S : Type} (I : S * list effect -> Prop) : keeps I get.
Proof. intros w r w' HI H. injection H as _ <-. exact HI. Qed.

Lemma keeps_bind {S A B : Type} (I : S * list effect -> Prop)
    (m : M S A) (f : A -> M S B) :
  keeps I m -> (forall a, keeps I (f a)) -> keeps I (bind m f).
Proof.
  intros Hm Hf w r w' HI H. unfold bind in H.
  destruct (m w) as [[a | e |] w1] eqn:Hmw.
  - exact (Hf a w1 r w' (Hm _ _ _ HI Hmw) H).
  - injection H as _ <-. exact (Hm _ _ _ HI Hmw).
  - injection H as _ <-. exact (Hm _ _ _ HI Hmw).
Qed.

Lemma keeps_emit {S : Type} (I : S * list effect -> Prop) (e : effect) :
  (forall s tr, I (s, tr) -> I (s, tr ++ [e])) -> keeps I (emit e).
Proof.
  intros He [s tr] r w' HI H. injection H as _ <-. apply He. exact HI.
Qed.

Lemma keeps_modify {S : Type} (I : S * list effect -> Prop) (f : S -> S) :
  (forall s tr, I (s, tr) -> I (f s, tr)) -> keeps I (modify f).
Proof.
  intros Hf [s tr] r w' HI H. injection H as _ <-. apply Hf. exact HI.
Qed.

Lemma keeps_for_each {S A : Type} (I : S * list effect -> Prop)
    (f : A -> M S unit) (l : list A) :
  (forall a, In a l -> keeps I (f a)) -> keeps I (for_each f l).
Proof.
  induction l as [|a r IH]; intros H; cbn [for_each].
  - apply keeps_ret.
  - apply keeps_bind; [apply H; left; reflexivity|].
    intros _. apply IH. intros b Hb. apply H. right. exact Hb.
Qed.

Lemma keeps_try_except {S : Type} (I : S * list effect -> Prop)
    (m h1 h2 : M S unit) :
  keeps I m -> keeps I h1 -> keeps I h2 -> keeps I (try_except m h1 h2).
Proof.
  intros Hm H1 H2 w r w' HI H. unfold try_except in H.
  destruct (m w) as [[a | e |] w1] eqn:Hmw.
  - injection H as _ <-. exact (Hm _ _ _ HI Hmw).
  - destruct e; try (injection H as _ <-; exact (Hm _ _ _ HI Hmw)).
    + exact (H1 _ _ _ (Hm _ _ _ HI Hmw) H).
    + exact (H2 _ _ _ (Hm _ _ _ HI Hmw) H).
  - injection H as _ <-. exact (Hm _ _ _ HI Hmw).
Qed.

(** *** What keeps a job overfull and unpublished *)



Lemma log_delivers_nothing (k : bytes) (l : level) (m : log_msg) : ~ delivers k (Log l m).
Proof. intros (c & h & d & q & H & _). discriminate. Qed.

Lemma sleep_delivers_nothing (k : bytes) (n : nat) : ~ delivers k (Sleep n).
Proof. intros (c & h & d & q & H & _). discriminate. Qed.

Lemma config_reply_delivers_nothing (k a b c : bytes) :
  ~ delivers k (Send SinkSender [a; b; c]).
Proof. intros (c' & h & d & q & H & _). discriminate. Qed.

Lemma result_delivers_its_job (j k client_addr req_id : bytes) (X : ndarray) :
  split "#" j = [client_addr; req_id] ->
  delivers k (Send SinkSender (ndarray_frames client_addr X req_id)) -> k = j.
Proof.
  intros Hs (c & h & d & q & H & Hk). unfold ndarray_frames in H.
  injection H as -> _ _ ->. subst k. symmetry. apply split_two_inv. exact Hs.
Qed.
















(** *** Sorting the parts *)

Lemma insert_sorted_perm (k : Z) (x : part) (l : list (Z * part)) :
  Permutation (insert_sorted k x l) ((k, x) :: l).
Proof.
  induction l as [|[k' y] r IH]; cbn [insert_sorted]; [reflexivity|].
  destruct (k <=? k'); [reflexivity|].
  rewrite IH. apply perm_swap.
Qed.

Lemma stable_sort_perm (l : list (Z * part)) : Permutation (stable_sort l) l.
Proof.
  induction l as [|[k x] r IH]; cbn; [reflexivity|].
  rewrite insert_sorted_perm. apply perm_skip. exact IH.
Qed.

Lemma insert_sorted_sorted (k : Z) (x : part) (l : list (Z * part)) :
  StronglySorted (fun a b => fst a <= fst b) l ->
  StronglySorted (fun a b => fst a <= fst b) (insert_sorted k x l).
Proof.
  induction l as [|[k' y] r IH]; intros Hs; cbn [insert_sorted].
  - constructor; constructor.
  - inversion Hs as [|? ? Hr Hall]; subst.
    destruct (k <=? k') eqn:Hk.
    + apply Z.leb_le in Hk. constructor; [exact Hs|].
      constructor; [exact Hk|].
      rewrite Forall_forall in *. intros b Hb. specialize (Hall b Hb).
      cbn [fst] in *. lia.
    + apply Z.leb_gt in Hk. constructor; [apply IH; exact Hr|].
      rewrite Forall_forall in *. intros b Hb.
      apply (Permutation_in _ (insert_sorted_perm k x r)) in Hb.
      destruct Hb as [<- | Hb]; [cbn [fst]; lia|exact (Hall b Hb)].
Qed.

Lemma stable_sort_sorted (l : list (Z * part)) :
  StronglySorted (fun a b => fst a <= fst b) (stable_sort l).
Proof.
  induction l as [|[k x] r IH]; cbn; [constructor|].
  apply insert_sorted_sorted. exact IH.
Qed.

Lemma sort_keys_some (v : list part) (l : list (Z * part)) :
  sort_keys v = Some l ->
  l = map (fun p => (key_of p, p)) v
  /\ Forall (fun p => int_of (snd p) = Some (key_of p)) v.
Proof.
  revert l. induction v as [|p r IH]; intros l H; cbn in H.
  - injection H as <-. split; constructor.
  - destruct (int_of (snd p)) as [k|] eqn:Hk; [|discriminate].
    destruct (sort_keys r) as [l'|]; [|discriminate].
    injection H as <-. destruct (IH l' eq_refl) as [-> Hall].
    assert (Hkey : key_of p = k) by (unfold key_of; rewrite Hk; reflexivity).
    split; [cbn; rewrite Hkey; reflexivity|].
    constructor; [rewrite Hkey; exact Hk|exact Hall].
Qed.

Lemma sorted_parts_some (v sorted : list part) :
  sorted_parts v = Some sorted ->
  sorted = map snd (stable_sort (map (fun p => (key_of p, p)) v))
  /\ Permutation sorted v
  /\ ascending sorted.
Proof.
  unfold sorted_parts. destruct (sort_keys v) as [l|] eqn:Hl; [|discriminate].
  intros H. injection H as <-.
  destruct (sort_keys_some v l Hl) as [-> Hall].
  set (kv := map (fun p => (key_of p, p)) v).
  assert (Hperm : Permutation (map snd (stable_sort kv)) v).
  { rewrite (stable_sort_perm kv). unfold kv. rewrite map_map. cbn [snd].
    rewrite map_id. reflexivity. }
  assert (Hpairs : Forall (fun kp => fst kp = key_of (snd kp)) (stable_sort kv)).
  { apply (Permutation_Forall (Permutation_sym (stable_sort_perm kv))).
    unfold kv. apply Forall_map. apply Forall_forall. intros; reflexivity. }
  split; [reflexivity|]. split; [exact Hperm|].
  exists (map fst (stable_sort kv)). split.
  - rewrite !map_map.
    assert (Hall' : Forall (fun p => int_of (snd p) = Some (key_of p))
                      (map snd (stable_sort kv))).
    { apply (Permutation_Forall (Permutation_sym Hperm)). exact Hall. }
    clear - Hpairs Hall'. induction (stable_sort kv) as [|[k p] r IH]; [reflexivity|].
    inversion Hpairs as [|? ? Hk Hr]; inversion Hall' as [|? ? Hp Hr']; subst.
    cbn in *. rewrite Hp, Hk. f_equal. apply IH; assumption.
  - pose proof (stable_sort_sorted kv) as Hs. clear - Hs.
    induction Hs as [|a r Hr IH Hall']; cbn; constructor.
    + exact IH.
    + apply Forall_map. exact Hall'.
Qed.

Lemma sorted_unique {A : Type} (key : A -> Z) (l1 : list A) :
  forall l2,
    StronglySorted (fun a b => key a <= key b) l1 ->
    StronglySorted (fun a b => key a < key b) l2 ->
    Permutation l1 l2 -> l1 = l2.
Proof.
  induction l1 as [|a r1 IH]; intros l2 H1 H2 Hp.
  - apply Permutation_nil in Hp. congruence.
  - destruct l2 as [|b r2].
    { apply Permutation_sym, Permutation_nil in Hp. discriminate. }
    inversion H1 as [|? ? Hr1 Ha]; inversion H2 as [|? ? Hr2 Hb]; subst.
    assert (Hab : a = b).
    { assert (Hina : In a (b :: r2)) by (apply (Permutation_in _ Hp); left; reflexivity).
      assert (Hinb : In b (a :: r1))
        by (apply (Permutation_in _ (Permutation_sym Hp)); left; reflexivity).
      destruct Hina as [-> | Hina]; [reflexivity|].
      destruct Hinb as [-> | Hinb]; [reflexivity|].
      rewrite Forall_forall in Ha, Hb.
      specialize (Ha b Hinb). specialize (Hb a Hina). lia. }
    subst b. f_equal. apply IH; try assumption.
    exact (Permutation_cons_inv Hp).
Qed.

(** *** Concatenating the parts *)

Lemma np_concatenate_rows (l : list ndarray) (X : ndarray) :
  np_concatenate l = Ok X ->
  shape0 X = Ok (Z.of_nat (fold_right Nat.add O (map rows l))).
Proof.
  unfold np_concatenate. destruct l as [|Y r]; [discriminate|].
  destruct (shape Y) as [|n tl]; [discriminate|].
  destruct (forallb (same_trailing tl) (Y :: r)); [|discriminate].
  destruct (forallb _ (Y :: r)); intros H; injection H as <-; reflexivity.
Qed.

Lemma total_rows_sum (v : list part) :
  total_rows v = Z.of_nat (fold_right Nat.add O (map rows (map fst v))).
Proof.
  unfold total_rows. induction v as [|p r IH]; cbn [map fold_right]; lia.
Qed.

Lemma total_rows_perm (v v' : list part) :
  Permutation v v' -> total_rows v = total_rows v'.
Proof.
  unfold total_rows. induction 1; cbn [fold_right]; lia.
Qed.

Lemma total_rows_app (v v' : list part) :
  total_rows (v ++ v') = total_rows v + total_rows v'.
Proof.
  unfold total_rows. induction v as [|p r IH]; cbn [app fold_right]; lia.
Qed.

Lemma list_eqb_refl (l : list nat) : list_eqb l l = true.
Proof.
  induction l as [|a r IH]; cbn; [reflexivity|].
  rewrite Nat.eqb_refl. exact IH.
Qed.

Lemma append_assoc (a b c : string) : (a +++ b) +++ c = a +++ (b +++ c).
Proof. induction a as [|x r IH]; cbn; [reflexivity|]. rewrite IH. reflexivity. Qed.

Lemma append_empty (a : string) : a +++ EmptyString = a.
Proof. induction a as [|x r IH]; cbn; [reflexivity|]. rewrite IH. reflexivity. Qed.

Lemma bconcat_app (a b : list bytes) : bconcat (a ++ b) = bconcat a +++ bconcat b.
Proof.
  induction a as [|x r IH]; cbn; [reflexivity|].
  rewrite IH, append_assoc. reflexivity.
Qed.

Lemma rows_encoded (d : string) (tl : list nat) (enc : json -> bytes)
    (l : list (list json)) :
  fold_right Nat.add O (map rows (map (encoded d tl enc) l)) = length (concat l).
Proof.
  induction l as [|x l IH]; cbn [map fold_right concat]; [reflexivity|].
  rewrite length_app, IH. reflexivity.
Qed.

Lemma buf_encoded (d : string) (tl : list nat) (enc : json -> bytes)
    (l : list (list json)) :
  bconcat (map buf (map (encoded d tl enc) l)) = bconcat (map enc (concat l)).
Proof.
  induction l as [|x l IH]; cbn [map bconcat concat]; [reflexivity|].
  rewrite map_app, bconcat_app, IH. reflexivity.
Qed.

Lemma np_concatenate_encoded (d : string) (tl : list nat) (enc : json -> bytes)
    (cs : list (list json)) :
  cs <> [] ->
  np_concatenate (map (encoded d tl enc) cs) = Ok (encoded d tl enc (concat cs)).
Proof.
  intros Hne. destruct cs as [|c r]; [congruence|].
  set (l := map (encoded d tl enc) (c :: r)).
  assert (Htl : forallb (same_trailing tl) l = true).
  { apply forallb_forall. intros Y HY. apply in_map_iff in HY as (x & <- & _).
    unfold same_trailing. cbn. apply list_eqb_refl. }
  assert (Hdt : forallb (fun Y => String.eqb d (dtype Y)) l = true).
  { apply forallb_forall. intros Y HY. apply in_map_iff in HY as (x & <- & _).
    cbn. apply String.eqb_refl. }
  assert (Hunfold : np_concatenate l
                    = if forallb (same_trailing tl) l then
                        if forallb (fun Y => String.eqb d (dtype Y)) l then
                          Ok (mk_ndarray d (fold_right Nat.add O (map rows l) :: tl)
                                (bconcat (map buf l)))
                        else
                          Ok (mk_ndarray (np_result_type (map dtype l))
                                (fold_right Nat.add O (map rows l) :: tl)
                                (bconcat (map (np_astype (np_result_type (map dtype l))) l)))
                      else Raise ValueError) by reflexivity.
  rewrite Hunfold, Htl, Hdt. unfold l.
  rewrite rows_encoded, buf_encoded. reflexivity.
Qed.

Lemma parse_chunk_id_whole (job_id : bytes) :
  contains "@" job_id = false -> parse_chunk_id job_id = (job_id, VInt 0).
Proof.
  intros H. unfold parse_chunk_id. rewrite (split_no_sep _ _ H). reflexivity.
Qed.

Lemma parse_chunk_id_partial (job_id : bytes) (off : Z) :
  contains "@" job_id = false ->
  parse_chunk_id (job_id +++ "@" +++ fmt_d off) = (job_id, VBytes (fmt_d off)).
Proof.
  intros H. unfold parse_chunk_id.
  change ("@" +++ fmt_d off) with (String "@" (fmt_d off)).
  rewrite (split_app _ _ _ H), (split_no_sep _ _ (fmt_d_no_at off)). reflexivity.
Qed.

Lemma chunks_from_offsets {A : Type} (m : nat) :
  (1 <= m)%nat ->
  forall f off (l : list A),
    StronglySorted (fun a b => fst a < fst b) (chunks_from f m off l)
    /\ Forall (fun c => off <= fst c) (chunks_from f m off l).
Proof.
  intros Hm. induction f as [|f IH]; intros off l.
  - destruct l; split; constructor.
  - destruct l as [|x r]; [split; constructor|].
    cbn [chunks_from].
    destruct (IH (off + Z.of_nat m) (skipn m (x :: r))) as [Hs Hall].
    split.
    + constructor; [exact Hs|].
      rewrite Forall_forall in *. intros c Hc. specialize (Hall c Hc).
      cbn [fst]. lia.
    + constructor; [cbn [fst]; lia|].
      rewrite Forall_forall in *. intros c Hc. specialize (Hall c Hc). lia.
Qed.

Lemma sort_keys_total (v : list part) :
  Forall (fun p => int_of (snd p) <> None) v ->
  sort_keys v = Some (map (fun p => (key_of p, p)) v).
Proof.
  induction 1 as [|p r Hp Hr IH]; cbn; [reflexivity|].
  unfold key_of at 1. destruct (int_of (snd p)); [|congruence].
  rewrite IH. reflexivity.
Qed.

Lemma expected_parts_keys (job_id : bytes) (d : string) (tl : list nat)
    (enc : json -> bytes) (m : Z) (seqs : list json) :
  contains "@" job_id = false ->
  Forall (fun p => int_of (snd p) <> None) (expected_parts job_id d tl enc m seqs).
Proof.
  intros Hat. unfold expected_parts, dispatched.
  destruct (Z.of_nat (length seqs) <=? m).
  - cbn [map fst snd]. rewrite (parse_chunk_id_whole _ Hat).
    constructor; [discriminate|constructor].
  - rewrite map_map. apply Forall_map, Forall_forall. intros c _. cbn [fst snd].
    rewrite parse_chunk_id_partial by exact Hat. cbn. rewrite py_int_fmt_d. discriminate.
Qed.

(** Whatever the order the parts of a dispatched batch arrived in,
    sorting and concatenating them gives the rows of the batch in its
    order. *)
Lemma reassembly (job_id : bytes) (d : string) (tl : list nat) (enc : json -> bytes)
    (m : Z) (seqs : list json) (parts : list part) :
  0 < m ->
  contains "@" job_id = false ->
  Permutation parts (expected_parts job_id d tl enc m seqs) ->
  exists sorted,
    sorted_parts parts = Some sorted
    /\ np_concatenate (map fst sorted) = Ok (encoded d tl enc seqs).
Proof.
  intros Hm Hat Hperm.
  assert (Hkeys : Forall (fun p => int_of (snd p) <> None) parts).
  { apply (Permutation_Forall (Permutation_sym Hperm)).
    apply expected_parts_keys. exact Hat. }
  assert (Hsorted : sorted_parts parts
                    = Some (map snd (stable_sort (map (fun p => (key_of p, p)) parts)))).
  { unfold sorted_parts. rewrite (sort_keys_total _ Hkeys). reflexivity. }
  eexists. split; [exact Hsorted|].
  destruct (sorted_parts_some _ _ Hsorted) as (_ & Hps & _).
  unfold expected_parts, dispatched in Hperm.
  destruct (Z.of_nat (length seqs) <=? m) eqn:Hn.
  - cbn [map fst snd] in Hperm. rewrite (parse_chunk_id_whole _ Hat) in Hperm.
    cbn [snd] in Hperm.
    apply Permutation_sym, Permutation_length_1_inv in Hperm. subst parts.
    apply Permutation_sym, Permutation_length_1_inv in Hps. rewrite Hps.
    cbn [map fst].
    pose proof (np_concatenate_encoded d tl enc [seqs] ltac:(discriminate)) as Hc.
    cbn [map concat] in Hc. rewrite app_nil_r in Hc. exact Hc.
  - apply Z.leb_gt in Hn. rewrite map_map in Hperm. cbn [fst snd] in Hperm.
    set (g := fun c : Z * list json =>
                (encoded d tl enc (snd c), VBytes (fmt_d (fst c)))).
    assert (Hexp : map (fun x : Z * list json =>
                          (encoded d tl enc (snd x),
                           snd (parse_chunk_id (job_id +++ "@" +++ fmt_d (fst x)))))
                       (chunks m seqs)
                   = map g (chunks m seqs)).
    { apply map_ext. intros c. rewrite parse_chunk_id_partial by exact Hat. reflexivity. }
    rewrite Hexp in Hperm.
    set (kv := map (fun p => (key_of p, p)) parts) in *.
    set (E' := map (fun c => (fst c, g c)) (chunks m seqs)).
    assert (HkE : Permutation kv E').
    { unfold kv. rewrite Hperm, map_map. unfold E'.
      erewrite map_ext; [reflexivity|].
      intros c. unfold key_of, g. cbn. rewrite py_int_fmt_d. reflexivity. }
    assert (Hmn : (1 <= Z.to_nat m)%nat) by lia.
    assert (HsE : StronglySorted (fun a b : Z * part => fst a < fst b) E').
    { unfold E', chunks.
      destruct (chunks_from_offsets (A := json) _ Hmn (length seqs) 0 seqs) as [Hs _].
      induction Hs as [|a r Hr IH Hall]; cbn; constructor; [exact IH|].
      apply Forall_map. exact Hall. }
    assert (Heq : stable_sort kv = E').
    { apply (sorted_unique fst); [apply stable_sort_sorted|exact HsE|].
      rewrite stable_sort_perm. exact HkE. }
    rewrite Heq. unfold E'. rewrite !map_map.
    cbn [fst snd g].
    rewrite <- (map_map snd (encoded d tl enc)).
    assert (Hne : map snd (chunks m seqs) <> []).
    { unfold chunks. destruct seqs as [|x r]; [cbn in Hn; lia|]. cbn. discriminate. }
    rewrite (np_concatenate_encoded d tl enc _ Hne).
    unfold chunks. rewrite chunks_from_concat by lia. reflexivity.
Qed.

(** *** The tables between two turns *)

Lemma sink_inv_init : sink_inv sink_init.
Proof.
  unfold sink_inv, sink_init. cbn. repeat split; constructor.
Qed.

Lemma In_dict_set {V : Type} (k : bytes) (v : V) (d : dict V) (j : bytes) (w : V) :
  NoDup (keys d) ->
  In (j, w) (dict_set k v d) -> (j = k /\ w = v) \/ (j <> k /\ In (j, w) d).
Proof.
  induction d as [|[k' v'] r IH]; cbn; intros Hnd Hin.
  - destruct Hin as [H | []]. injection H as <- <-. auto.
  - inversion Hnd as [|? ? Hnotin Hnd']; subst.
    destruct (String.eqb_spec k' k) as [-> | Hk].
    + destruct Hin as [H | Hin]; [injection H as <- <-; auto|].
      right. split; [|right; exact Hin].
      intros ->. apply Hnotin. apply (in_map fst) in Hin. exact Hin.
    + destruct Hin as [H | Hin].
      * injection H as <- <-. right. split; [exact Hk|left; reflexivity].
      * destruct (IH Hnd' Hin) as [? | [? ?]]; auto.
Qed.

Lemma received_total (k : bytes) (s : Sink) :
  sink_inv s -> received k s = total_rows (parts_of k s).
Proof.
  intros (_ & Hall & Hnone & _). unfold received, parts_of.
  destruct (dict_get k (pending_result s)) as [v|] eqn:Hv.
  - apply dict_get_In in Hv. rewrite Forall_forall in Hall.
    specialize (Hall _ Hv). cbn in Hall. rewrite Hall. reflexivity.
  - rewrite (Hnone k Hv). reflexivity.
Qed.

Lemma sink_inv_store (k : bytes) (X : ndarray) (partial_id : pyval) (s : Sink) :
  dict_get k (job_checksum s) <> None ->
  sink_inv s -> sink_inv (store k X partial_id s).
Proof.
  intros Hk Hinv. pose proof (received_total k s Hinv) as Hrt.
  destruct Hinv as (Hnd & Hall & Hnone & Hreg).
  unfold sink_inv, store. cbn [pending_result pending_checksum job_checksum].
  split; [apply NoDup_keys_set; exact Hnd|]. split; [|split].
  - apply Forall_forall. intros [j w] Hin. cbn [fst snd].
    destruct (In_dict_set _ _ _ _ _ Hnd Hin) as [[-> ->] | [Hj Hin']].
    + rewrite dict_get_set_eq, total_rows_app, Hrt. cbn. f_equal. lia.
    + rewrite dict_get_set_neq by exact Hj.
      rewrite Forall_forall in Hall. exact (Hall _ Hin').
  - intros j Hj.
    destruct (String.eqb_spec j k) as [-> | Hjk].
    + rewrite dict_get_set_eq in Hj. discriminate.
    + rewrite dict_get_set_neq in Hj by exact Hjk.
      rewrite dict_get_set_neq by exact Hjk. apply Hnone. exact Hj.
  - apply Forall_forall. intros [j w] Hin. cbn [fst].
    destruct (In_dict_set _ _ _ _ _ Hnd Hin) as [[-> ->] | [Hj Hin']]; [exact Hk|].
    rewrite Forall_forall in Hreg. exact (Hreg _ Hin').
Qed.

Lemma collect_zero_dim (chunk_id header payload : bytes) (rest : list bytes)
    (arr_info : json) (X : ndarray) (s : Sink) (tr : list effect) :
  jsonapi_loads header = Some arr_info ->
  materialize arr_info payload = Ok X ->
  shape X = [] ->
  exists s', collect (chunk_id :: header :: payload :: rest) (s, tr)
             = (Raise IndexError, (s', tr)).
Proof.
  intros Hl Hm Hs. unfold collect, index. cbn [nth_error].
  mstep. rewrite Hl. mstep. rewrite Hm. mstep.
  destruct (parse_chunk_id chunk_id) as [k partial_id].
  destruct (read_pending_result_run k s tr) as (s1 & H1 & _).
  rewrite (bind_ok _ _ _ _ _ H1). mstep.
  set (s2 := set_pending_result _ s1).
  destruct (read_pending_checksum_run k s2 tr) as (s3 & H3 & _).
  rewrite (bind_ok _ _ _ _ _ H3).
  unfold shape0. rewrite Hs. mstep. eauto.
Qed.

(** A worker output that is stored without an exception. *)
Lemma collect_ok_inv (msg : list bytes) (s : Sink) (tr : list effect)
    (w1 : Sink * list effect) :
  collect msg (s, tr) = (Ok tt, w1) ->
  exists chunk_id header payload rest arr_info X k partial_id e,
    msg = chunk_id :: header :: payload :: rest
    /\ jsonapi_loads header = Some arr_info
    /\ materialize arr_info payload = Ok X
    /\ shape X <> []
    /\ parse_chunk_id chunk_id = (k, partial_id)
    /\ dict_get k (job_checksum s) = Some e
    /\ w1 = (store k X partial_id s,
             tr ++ [Log INFO (CollectJob k (received k s + Z.of_nat (rows X)) e)]).
Proof.
  intros H.
  destruct msg as [|chunk_id [|header [|payload rest]]];
    try (unfold collect, index in H; cbn [nth_error] in H;
         repeat first [rewrite bind_or_raise_some in H | rewrite bind_or_raise_none in H];
         discriminate H).
  - unfold collect, index in H; cbn [nth_error] in H.
    rewrite !bind_or_raise_some in H.
    destruct (jsonapi_loads header);
      [rewrite bind_or_raise_some, bind_or_raise_none in H
      |rewrite bind_or_raise_none in H]; discriminate H.
  - destruct (jsonapi_loads header) as [arr_info|] eqn:Hl.
    2:{ unfold collect, index in H; cbn [nth_error] in H.
        rewrite !bind_or_raise_some, Hl, bind_or_raise_none in H. discriminate H. }
    destruct (materialize arr_info payload) as [X | ex |] eqn:Hm.
    2:{ unfold collect, index in H; cbn [nth_error] in H.
        rewrite !bind_or_raise_some, Hl, !bind_or_raise_some, Hm in H.
        discriminate H. }
    2:{ unfold collect, index in H; cbn [nth_error] in H.
        rewrite !bind_or_raise_some, Hl, !bind_or_raise_some, Hm in H.
        discriminate H. }
    destruct (shape X) as [|n tl] eqn:Hs.
    { destruct (collect_zero_dim chunk_id header payload rest _ _ s tr Hl Hm Hs)
        as [s' Hz]. rewrite Hz in H. discriminate H. }
    assert (Hne : shape X <> []) by congruence.
    destruct (parse_chunk_id chunk_id) as [k partial_id] eqn:Hp.
    rewrite (collect_decoded _ _ _ rest _ _ _ _ s tr Hl Hm Hne Hp) in H.
    destruct (dict_get k (job_checksum s)) as [e|] eqn:He; [|discriminate H].
    injection H as <-.
    exists chunk_id, header, payload, rest, arr_info, X, k, partial_id, e.
    rewrite Hs. repeat split; auto. discriminate.
Qed.

(** *** The completion check *)

Lemma scan_finished_pure (s : Sink) (tr : list effect) :
  forall items fin w',
    Forall (fun kv => dict_get (fst kv) (pending_checksum s) <> None) items ->
    scan_finished items (s, tr) = (Ok fin, w') ->
    w' = (s, tr)
    /\ fin = filter (complete s) items
    /\ Forall (fun kv => dict_get (fst kv) (job_checksum s) <> None) items.
Proof.
  induction items as [|[j v] rest IH]; intros fin w' Hall H.
  - cbn in H. injection H as <- <-. repeat split. constructor.
  - inversion Hall as [|? ? Hj Hrest]; subst. cbn [fst] in Hj.
    cbn [scan_finished] in H.
    destruct (read_pending_checksum_run j s tr) as (s1 & H1 & _ & _ & _ & _ & Hsame).
    rewrite (Hsame Hj) in H1. rewrite (bind_ok _ _ _ _ _ H1) in H.
    unfold read_job_checksum in H. rewrite bind_assoc, bind_get in H.
    destruct (dict_get j (job_checksum s)) as [e|] eqn:He;
      [rewrite bind_or_raise_some in H|rewrite bind_or_raise_none in H; discriminate H].
    destruct (scan_finished rest (s, tr)) as [[fin' | ex |] w1] eqn:Hscan.
    + rewrite (bind_ok _ _ _ _ _ Hscan), ret_run in H. injection H as <- <-.
      destruct (IH _ _ Hrest eq_refl) as (-> & -> & Hreg).
      repeat split.
      * cbn [filter].
        assert (Hc : complete s (j, v) = (received j s =? e))
          by (unfold complete; cbn [fst]; rewrite He; reflexivity).
        rewrite Hc. reflexivity.
      * constructor; [cbn [fst]; congruence|exact Hreg].
    + rewrite (bind_err _ _ _ _ _ Hscan) in H. discriminate H.
    + unfold bind in H. rewrite Hscan in H. discriminate H.
Qed.

Lemma dict_get_remove_none {V : Type} (k j : bytes) (d : dict V) :
  dict_get k d = None -> dict_get k (dict_remove j d) = None.
Proof.
  intros H. destruct (String.eqb_spec k j) as [-> | Hkj].
  - apply dict_get_remove_eq.
  - rewrite dict_get_remove_neq by exact Hkj. exact H.
Qed.

Lemma forget_all_unknown (k : bytes) (fin : list (bytes * list part)) :
  forall s, In k (keys fin) \/ unknown k s -> unknown k (forget_all fin s).
Proof.
  induction fin as [|[j v] rest IH]; intros s H; cbn.
  - destruct H as [[] | H]. exact H.
  - apply IH. destruct H as [[<- | Hin] | (H1 & H2 & H3)].
    + right. apply forget_unknown.
    + left. exact Hin.
    + right. unfold unknown, forget. cbn.
      repeat split; apply dict_get_remove_none; assumption.
Qed.

Lemma forget_all_other (k : bytes) (fin : list (bytes * list part)) :
  forall s, ~ In k (keys fin) ->
    dict_get k (pending_result (forget_all fin s)) = dict_get k (pending_result s)
    /\ dict_get k (pending_checksum (forget_all fin s)) = dict_get k (pending_checksum s)
    /\ dict_get k (job_checksum (forget_all fin s)) = dict_get k (job_checksum s).
Proof.
  induction fin as [|[j v] rest IH]; intros s H; cbn; [auto|].
  cbn in H.
  destruct (IH (forget j s)) as (H1 & H2 & H3); [tauto|].
  unfold forget_all in *. rewrite H1, H2, H3. unfold forget. cbn.
  rewrite !dict_get_remove_neq by (intros ->; tauto). auto.
Qed.

(** The deliveries of a completion check that goes through. *)
Lemma deliver_all_inv (fin : list (bytes * list part)) :
  forall s tr s' tr',
    NoDup (keys fin) ->
    for_each send_back fin (s, tr) = (Ok tt, (s', tr')) ->
    s' = forget_all fin s
    /\ exists new,
         tr' = tr ++ new
         /\ (forall j v, In (j, v) fin ->
               exists size sorted client_addr req_id X,
                 dict_get j (job_checksum s) = Some size
                 /\ sorted_parts v = Some sorted
                 /\ split "#" j = [client_addr; req_id]
                 /\ np_concatenate (map fst sorted) = Ok X
                 /\ In (Send SinkSender (ndarray_frames client_addr X req_id)) new)
         /\ (forall ev k, In ev new -> delivers k ev -> In k (keys fin)).
Proof.
  induction fin as [|[j v] rest IH]; intros s tr s' tr' Hnd H.
  - cbn in H. injection H as <- <-. split; [reflexivity|].
    exists []. rewrite app_nil_r. repeat split; [intros ? ? []|intros ? ? []].
  - cbn [for_each] in H. cbn in Hnd.
    inversion Hnd as [|? ? Hnotin Hnd']; subst.
    destruct (send_back (j, v) (s, tr)) as [[[] | ex |] w1] eqn:Hsb.
    2:{ rewrite (bind_err _ _ _ _ _ Hsb) in H. discriminate H. }
    2:{ unfold bind in H. rewrite Hsb in H. discriminate H. }
    rewrite (bind_ok _ _ _ _ _ Hsb) in H.
    apply send_back_ok_inv in Hsb
      as (size & sorted & ca & rid & X & Hsize & Hsorted & Hsplit & HX & ->).
    destruct (IH _ _ _ _ Hnd' H) as (-> & new & -> & Hdel & Honly).
    split; [reflexivity|].
    eexists. split; [rewrite <- app_assoc; reflexivity|]. split.
    + intros j' v' [Heq | Hin].
      * injection Heq as <- <-.
        exists size, sorted, ca, rid, X. repeat split; try assumption.
        apply in_or_app. left. right. left. reflexivity.
      * destruct (Hdel j' v' Hin) as (size' & sorted' & ca' & rid' & X' & H1 & H2 & H3 & H4 & H5).
        exists size', sorted', ca', rid', X'. repeat split; try assumption.
        -- assert (Hne : j' <> j).
           { intros ->. apply Hnotin. apply (in_map fst) in Hin. exact Hin. }
           unfold forget in H1. cbn in H1.
           rewrite dict_get_remove_neq in H1 by exact Hne. exact H1.
        -- apply in_or_app. right. exact H5.
    + intros ev k Hin Hd. apply in_app_or in Hin as [Hin | Hin].
      * destruct Hin as [<- | [<- | []]].
        -- exfalso. exact (log_delivers_nothing _ _ _ Hd).
        -- left. symmetry. exact (result_delivers_its_job _ _ _ _ _ Hsplit Hd).
      * right. exact (Honly ev k Hin Hd).
Qed.

Lemma NoDup_keys_filter {V : Type} (f : bytes * V -> bool) (d : dict V) :
  NoDup (keys d) -> NoDup (keys (filter f d)).
Proof.
  induction d as [|[k v] r IH]; cbn; intros Hnd; [constructor|].
  inversion Hnd as [|? ? Hnotin Hnd']; subst.
  destruct (f (k, v)); cbn; [|auto].
  constructor; [|auto].
  intros Hin. apply Hnotin. unfold keys in *.
  apply in_map_iff in Hin as (x & <- & Hx). apply filter_In in Hx as [Hx _].
  apply in_map. exact Hx.
Qed.

Lemma send_back_ok (k : bytes) (v : list part) (s : Sink) (tr : list effect)
    (size : Z) (sorted : list part) (client_addr req_id : bytes) (X : ndarray) :
  dict_get k (job_checksum s) = Some size ->
  sorted_parts v = Some sorted ->
  split "#" k = [client_addr; req_id] ->
  np_concatenate (map fst sorted) = Ok X ->
  dict_get k (pending_result s) <> None ->
  dict_get k (pending_checksum s) <> None ->
  send_back (k, v) (s, tr)
  = (Ok tt, (forget k s,
             tr ++ [Log INFO (SendBack size k);
                    Send SinkSender (ndarray_frames client_addr X req_id)])).
Proof.
  intros Hsize Hsorted Hsplit HX Hpr Hpc.
  unfold send_back, read_job_checksum. mstep. rewrite Hsize. mstep.
  rewrite Hsorted. mstep. rewrite Hsplit, HX. mstep.
  unfold send_ndarray, pop_pending_result, pop_pending_checksum, pop_job_checksum.
  mstep. unfold dict_pop.
  destruct (dict_get k (pending_result s)); [|congruence]. mstep.
  cbn [pending_checksum set_pending_result].
  destruct (dict_get k (pending_checksum s)); [|congruence]. mstep.
  cbn [job_checksum set_pending_checksum set_pending_result].
  rewrite Hsize. mstep. rewrite <- app_assoc. reflexivity.
Qed.

Lemma scan_finished_ok (s : Sink) (tr : list effect) :
  forall items,
    Forall (fun kv => dict_get (fst kv) (pending_checksum s) <> None) items ->
    Forall (fun kv => dict_get (fst kv) (job_checksum s) <> None) items ->
    scan_finished items (s, tr) = (Ok (filter (complete s) items), (s, tr)).
Proof.
  induction items as [|[j v] rest IH]; intros Hpc Hjc; [reflexivity|].
  inversion Hpc as [|? ? Hj Hrest]; inversion Hjc as [|? ? Hj' Hrest']; subst.
  cbn [fst] in Hj, Hj'. cbn [scan_finished].
  destruct (read_pending_checksum_run j s tr) as (s1 & H1 & _ & _ & _ & _ & Hsame).
  rewrite (Hsame Hj) in H1. rewrite (bind_ok _ _ _ _ _ H1).
  unfold read_job_checksum. mstep.
  destruct (dict_get j (job_checksum s)) as [e|] eqn:He; [|congruence]. mstep.
  rewrite (bind_ok _ _ _ _ _ (IH Hrest Hrest')). mstep.
  cbn [filter].
  assert (Hc : complete s (j, v) = (received j s =? e))
    by (unfold complete; cbn [fst]; rewrite He; reflexivity).
  rewrite Hc. reflexivity.
Qed.

Lemma deliver_all_ok (fin : list (bytes * list part)) :
  forall s tr,
    NoDup (keys fin) ->
    Forall (fun kv => dict_get (fst kv) (job_checksum s) <> None
                      /\ dict_get (fst kv) (pending_result s) <> None
                      /\ dict_get (fst kv) (pending_checksum s) <> None
                      /\ deliverable kv) fin ->
    exists w', for_each send_back fin (s, tr) = (Ok tt, w').
Proof.
  induction fin as [|[k v] rest IH]; intros s tr Hnd Hall.
  - eexists. reflexivity.
  - cbn in Hnd. inversion Hnd as [|? ? Hnotin Hnd']; subst.
    inversion Hall as [|? ? Hk Hrest]; subst. cbn [fst] in Hk.
    destruct Hk as (Hjc & Hpr & Hpc & (ca & rid & sorted & X & Hsplit & Hsorted & HX)).
    cbn [fst snd] in *.
    destruct (dict_get k (job_checksum s)) as [size|] eqn:Hsize; [|congruence].
    cbn [for_each].
    rewrite (bind_ok _ _ _ _ _
               (send_back_ok k v s tr size sorted ca rid X Hsize Hsorted Hsplit HX Hpr Hpc)).
    apply IH; [exact Hnd'|].
    rewrite Forall_forall in *. intros [j w] Hin.
    assert (Hne : j <> k).
    { intros ->. apply Hnotin. apply (in_map fst) in Hin. exact Hin. }
    specialize (Hrest _ Hin). cbn [fst] in *.
    unfold forget. cbn. rewrite !dict_get_remove_neq by exact Hne. exact Hrest.
Qed.

(** The completion check raises nothing when every complete job is
    deliverable. *)
Lemma check_finished_ok (s : Sink) (tr : list effect) :
  sink_inv s ->
  Forall (ready s) (pending_result s) ->
  exists w', check_finished (s, tr) = (Ok tt, w').
Proof.
  intros (Hnd & Hall & _ & Hjc) Hready.
  assert (Hpc : Forall (fun kv => dict_get (fst kv) (pending_checksum s) <> None)
                  (pending_result s)).
  { revert Hall. apply Forall_impl. intros kv H. rewrite H. discriminate. }
  unfold check_finished. rewrite bind_get.
  rewrite (bind_ok _ _ _ _ _ (scan_finished_ok s tr _ Hpc Hjc)).
  apply deliver_all_ok; [apply NoDup_keys_filter; exact Hnd|].
  rewrite Forall_forall in *. intros [k v] Hin.
  apply filter_In in Hin as [Hin Hc]. cbn [fst].
  specialize (Hpc _ Hin). specialize (Hjc _ Hin). cbn [fst] in Hpc, Hjc.
  repeat split; try assumption.
  - rewrite (dict_In_get _ _ _ Hnd Hin). discriminate.
  - exact (Hready _ Hin Hc).
Qed.

(** A job the ventilator dispatched, with client address and request id
    free of sentinels, is deliverable once the results of its chunks are
    there, in whatever order. *)
Lemma dispatched_job_deliverable (client req_id : bytes) (d : string) (tl : list nat)
    (enc : json -> bytes) (m : Z) (seqs : list json) (parts : list part) :
  0 < m ->
  contains "#" client = false ->
  contains "#" req_id = false ->
  contains "@" (client +++ "#" +++ req_id) = false ->
  Permutation parts (expected_parts (client +++ "#" +++ req_id) d tl enc m seqs) ->
  deliverable (client +++ "#" +++ req_id, parts).
Proof.
  intros Hm Hc Hr Hat Hperm.
  destruct (reassembly _ d tl enc m seqs parts Hm Hat Hperm) as (sorted & Hs & HX).
  exists client, req_id, sorted, (encoded d tl enc seqs). cbn [fst snd].
  repeat split; try assumption.
  change ("#" +++ req_id) with (String "#" req_id).
  rewrite (split_app _ _ _ Hc), (split_no_sep _ _ Hr). reflexivity.
Qed.

(** After a worker output is stored in a sink whose tables satisfy
    [sink_inv] (as they do after every turn that raised nothing), with
    every complete job deliverable (its id has two pieces at [#], its
    partial ids are integers, its arrays fit together), the completion
    check raises nothing and, for every job
    [k] with parts: if [pending_checksum[k] = job_checksum[k]] the job is
    published as [client_addr; header_json; buffer; req_id], where
    [client_addr] and [req_id] are the two pieces of [k] at [#] and the
    array is the concatenation along axis 0 of the parts sorted by the
    integer value of their partial ids; its first dimension is the expected
    count; the three tables drop [k]; and when the parts are the results
    for the chunks the ventilator dispatched, in any order of arrival, the
    array is the encoding of the batch in the client's order.  Otherwise
    nothing is published for [k] and its entries stay. *)
Theorem complete_jobs_are_delivered_in_input_order
    (msg : list bytes) (s s1 : Sink) (tr tr1 : list effect) :
  sink_inv s ->
  collect msg (s, tr) = (Ok tt, (s1, tr1)) ->
  Forall (ready s1) (pending_result s1) ->
  exists s' new,
    check_finished (s1, tr1) = (Ok tt, (s', tr1 ++ new))
    /\ forall k parts,
         dict_get k (pending_result s1) = Some parts ->
         exists expected,
           dict_get k (job_checksum s1) = Some expected
           /\ if received k s1 =? expected then
                exists client_addr req_id sorted X,
                  split "#" k = [client_addr; req_id]
                  /\ sorted_parts parts = Some sorted
                  /\ Permutation sorted parts
                  /\ ascending sorted
                  /\ np_concatenate (map fst sorted) = Ok X
                  /\ shape0 X = Ok expected
                  /\ In (Send SinkSender
                           [client_addr; jsonapi_dumps (md X); buf X; req_id]) new
                  /\ unknown k s'
                  /\ (forall m seqs d tl enc,
                        0 < m ->
                        contains "@" k = false ->
                        Permutation parts (expected_parts k d tl enc m seqs) ->
                        X = encoded d tl enc seqs)
              else
                (forall ev, In ev new -> ~ delivers k ev)
                /\ dict_get k (pending_result s') = Some parts
                /\ dict_get k (pending_checksum s') = dict_get k (pending_checksum s1)
                /\ dict_get k (job_checksum s') = Some expected.
Proof.
  intros Hinv Hcollect Hready.
  apply collect_ok_inv in Hcollect
    as (chunk_id & header & payload & rest & arr_info & X0 & k0 & pid0 & e0
        & _ & _ & _ & _ & _ & He0 & Hw).
  injection Hw as Hs1 Htr1.
  assert (Hinv1 : sink_inv s1).
  { rewrite Hs1. apply sink_inv_store; [congruence|exact Hinv]. }
  clear Hs1 Htr1.
  destruct (check_finished_ok s1 tr1 Hinv1 Hready) as [[s' tr'] Hcheck].
  destruct Hinv1 as (Hnd & Hall & Hnone & _).
  pose proof Hcheck as Hrun.
  unfold check_finished in Hcheck. rewrite bind_get in Hcheck.
  destruct (scan_finished (pending_result s1) (s1, tr1)) as [[fin | ex |] w] eqn:Hscan.
  2:{ rewrite (bind_err _ _ _ _ _ Hscan) in Hcheck. discriminate Hcheck. }
  2:{ unfold bind in Hcheck. rewrite Hscan in Hcheck. discriminate Hcheck. }
  rewrite (bind_ok _ _ _ _ _ Hscan) in Hcheck.
  apply scan_finished_pure in Hscan as (-> & -> & Hreg).
  2:{ revert Hall. apply Forall_impl. intros kv H. rewrite H. discriminate. }
  set (fin := filter (complete s1) (pending_result s1)) in *.
  assert (Hndf : NoDup (keys fin)) by (apply NoDup_keys_filter; exact Hnd).
  destruct (deliver_all_inv fin _ _ _ _ Hndf Hcheck) as (-> & new & -> & Hdel & Honly).
  exists (forget_all fin s1), new. split; [exact Hrun|].
  intros k parts Hk.
  pose proof (dict_get_In _ _ _ Hk) as Hin.
  rewrite Forall_forall in Hreg, Hall.
  pose proof (Hreg _ Hin) as Hr. pose proof (Hall _ Hin) as Hc. cbn [fst snd] in Hr, Hc.
  destruct (dict_get k (job_checksum s1)) as [expected|] eqn:He; [|congruence].
  exists expected. split; [reflexivity|].
  assert (Hrecv : received k s1 = total_rows parts)
    by (unfold received; rewrite Hc; reflexivity).
  assert (Hcomplete : forall v, complete s1 (k, v) = (received k s1 =? expected))
    by (intros v; unfold complete; cbn [fst]; rewrite He; reflexivity).
  destruct (received k s1 =? expected) eqn:Heq.
  - apply Z.eqb_eq in Heq.
    assert (Hinf : In (k, parts) fin).
    { apply filter_In. split; [exact Hin|]. apply Hcomplete. }
    destruct (Hdel _ _ Hinf) as (size & sorted & ca & rid & X & _ & Hsorted & Hsplit & HX & Hsent).
    destruct (sorted_parts_some _ _ Hsorted) as (_ & Hperm & Hasc).
    exists ca, rid, sorted, X. repeat split; try assumption.
    + rewrite (np_concatenate_rows _ _ HX), <- total_rows_sum.
      rewrite (total_rows_perm _ _ Hperm). congruence.
    + apply forget_all_unknown. left. apply (in_map fst) in Hinf. exact Hinf.
    + apply forget_all_unknown. left. apply (in_map fst) in Hinf. exact Hinf.
    + apply forget_all_unknown. left. apply (in_map fst) in Hinf. exact Hinf.
    + intros m seqs d tl enc Hm Hat Hp.
      destruct (reassembly k d tl enc m seqs parts Hm Hat Hp) as (sorted' & Hs' & HX').
      rewrite Hsorted in Hs'. injection Hs' as <-. congruence.
  - assert (Hnotin : ~ In k (keys fin)).
    { intros Hkin. unfold keys in Hkin. apply in_map_iff in Hkin as ([k' v'] & Hk' & Hv').
      cbn in Hk'. subst k'. apply filter_In in Hv' as [_ Hv'].
      rewrite Hcomplete in Hv'. discriminate Hv'. }
    destruct (forget_all_other k fin s1 Hnotin) as (H1 & H2 & H3).
    repeat split.
    + intros ev Hev Hd. exact (Hnotin (Honly ev k Hev Hd)).
    + rewrite H1. exact Hk.
    + exact H2.
    + rewrite H3. exact He.
Qed.

(** The tables keep [sink_inv] through a turn of the loop that raises
    nothing. *)
Lemma sink_inv_forget (k : bytes) (s : Sink) : sink_inv s -> sink_inv (forget k s).
Proof.
  intros (Hnd & Hall & Hnone & Hreg). unfold sink_inv, forget. cbn.
  split; [apply NoDup_keys_remove; exact Hnd|]. split; [|split].
  - apply Forall_forall. intros [j w] Hin. cbn [fst snd].
    apply filter_In in Hin as [Hin Hf]. cbn in Hf.
    destruct (String.eqb_spec j k) as [|Hjk]; [discriminate|].
    rewrite dict_get_remove_neq by exact Hjk.
    rewrite Forall_forall in Hall. exact (Hall _ Hin).
  - intros j Hj. destruct (String.eqb_spec j k) as [-> | Hjk].
    + apply dict_get_remove_eq.
    + rewrite dict_get_remove_neq in Hj by exact Hjk.
      rewrite dict_get_remove_neq by exact Hjk. apply Hnone. exact Hj.
  - apply Forall_forall. intros [j w] Hin. cbn [fst].
    apply filter_In in Hin as [Hin Hf]. cbn in Hf.
    destruct (String.eqb_spec j k) as [|Hjk]; [discriminate|].
    rewrite dict_get_remove_neq by exact Hjk.
    rewrite Forall_forall in Hreg. exact (Hreg _ Hin).
Qed.

Lemma sink_inv_forget_all (fin : list (bytes * list part)) :
  forall s, sink_inv s -> sink_inv (forget_all fin s).
Proof.
  induction fin as [|[j v] rest IH]; intros s H; cbn; [exact H|].
  apply IH, sink_inv_forget. exact H.
Qed.

Lemma sink_inv_on_receiver (msg : list bytes) (s s' : Sink) (tr tr' : list effect) :
  sink_inv s ->
  on_receiver msg (s, tr) = (Ok tt, (s', tr')) ->
  sink_inv s'.
Proof.
  intros Hinv H. unfold on_receiver in H.
  destruct (collect msg (s, tr)) as [[[] | ex |] [s1 tr1]] eqn:Hc.
  2:{ rewrite (bind_err _ _ _ _ _ Hc) in H. discriminate H. }
  2:{ unfold bind in H. rewrite Hc in H. discriminate H. }
  rewrite (bind_ok _ _ _ _ _ Hc) in H.
  apply collect_ok_inv in Hc
    as (chunk_id & header & payload & rest & arr_info & X0 & k0 & pid0 & e0
        & _ & _ & _ & _ & _ & He0 & Hw).
  injection Hw as -> ->.
  assert (Hinv1 : sink_inv (store k0 X0 pid0 s)).
  { apply sink_inv_store; [congruence|exact Hinv]. }
  set (s1 := store k0 X0 pid0 s) in *.
  set (tr1 := tr ++ _) in *.
  unfold check_finished in H. rewrite bind_get in H.
  destruct (scan_finished (pending_result s1) (s1, tr1)) as [[fin | ex |] w] eqn:Hscan.
  2:{ rewrite (bind_err _ _ _ _ _ Hscan) in H. discriminate H. }
  2:{ unfold bind in H. rewrite Hscan in H. discriminate H. }
  rewrite (bind_ok _ _ _ _ _ Hscan) in H.
  pose proof Hinv1 as (Hnd & Hall & _ & _).
  apply scan_finished_pure in Hscan as (-> & -> & _).
  2:{ revert Hall. apply Forall_impl. intros kv Hkv. rewrite Hkv. discriminate. }
  set (fin := filter _ _) in *.
  assert (Hndf : NoDup (keys fin)) by (apply NoDup_keys_filter; exact Hnd).
  destruct (deliver_all_inv fin _ _ _ _ Hndf H) as (-> & _).
  apply sink_inv_forget_all. exact Hinv1.
Qed.

Lemma sink_inv_on_frontend (msg : list bytes) (s s' : Sink) (tr tr' : list effect) :
  sink_inv s ->
  on_frontend msg (s, tr) = (Ok tt, (s', tr')) ->
  sink_inv s'.
Proof.
  intros Hinv H. unfold on_frontend in H.
  destruct msg as [|client_addr [|msg_type [|msg_info [|req_id [|x l]]]]];
    try discriminate H.
  destruct (String.eqb msg_type new_job).
  - destruct (py_int msg_info) as [n|];
      [rewrite bind_or_raise_some, bind_modify, emit_run in H
      |rewrite bind_or_raise_none in H; discriminate H].
    injection H as <- _.
    destruct Hinv as (Hnd & Hall & Hnone & Hreg).
    unfold sink_inv. cbn. repeat split; try assumption.
    revert Hreg. apply Forall_impl. intros [j w] Hj. cbn [fst] in *.
    destruct (String.eqb_spec j (client_addr +++ "#" +++ req_id)) as [-> | Hne].
    + rewrite dict_get_set_eq. discriminate.
    + rewrite dict_get_set_neq by exact Hne. exact Hj.
  - destruct (String.eqb msg_type show_config).
    + rewrite !bind_emit, emit_run in H. injection H as <- _. exact Hinv.
    + injection H as <- _. exact Hinv.
Qed.

(** Every state the sink's loop reaches without an exception satisfies
    [sink_inv]. *)
Lemma sink_inv_loop (polls : list (option (list bytes) * option (list bytes))) :
  forall s tr s' tr',
    sink_inv s ->
    sink_loop polls (s, tr) = (Ok tt, (s', tr')) ->
    sink_inv s'.
Proof.
  induction polls as [|[rx fx] rest IH]; intros s tr s' tr' Hinv H.
  - injection H as <- _. exact Hinv.
  - cbn [sink_loop] in H. unfold sink_turn in H. rewrite !bind_assoc in H.
    assert (Hrx : exists s1 tr1,
               (match rx with Some msg => on_receiver msg | None => ret tt end) (s, tr)
               = (Ok tt, (s1, tr1)) /\ sink_inv s1).
    { destruct rx as [msg|]; [|exists s, tr; split; [reflexivity|exact Hinv]].
      destruct (on_receiver msg (s, tr)) as [[[] | ex |] [s1 tr1]] eqn:Hr.
      - exists s1, tr1. split; [reflexivity|].
        exact (sink_inv_on_receiver _ _ _ _ _ Hinv Hr).
      - rewrite (bind_err _ _ _ _ _ Hr) in H. discriminate H.
      - unfold bind in H. rewrite Hr in H. discriminate H. }
    destruct Hrx as (s1 & tr1 & Hr & Hinv1).
    rewrite (bind_ok _ _ _ _ _ Hr) in H.
    assert (Hfx : exists s2 tr2,
               (match fx with Some msg => on_frontend msg | None => ret tt end) (s1, tr1)
               = (Ok tt, (s2, tr2)) /\ sink_inv s2).
    { destruct fx as [msg|]; [|exists s1, tr1; split; [reflexivity|exact Hinv1]].
      destruct (on_frontend msg (s1, tr1)) as [[[] | ex |] [s2 tr2]] eqn:Hf.
      - exists s2, tr2. split; [reflexivity|].
        exact (sink_inv_on_frontend _ _ _ _ _ Hinv1 Hf).
      - rewrite (bind_err _ _ _ _ _ Hf) in H. discriminate H.
      - unfold bind in H. rewrite Hf in H. discriminate H. }
    destruct Hfx as (s2 & tr2 & Hf & Hinv2).
    rewrite (bind_ok _ _ _ _ _ Hf) in H.
    exact (IH _ _ _ _ Hinv2 H).
Qed.

(** The generator of the worker is a placeholder: whatever was dispatched,
    every prediction carries the client id [test], so the worker sends the
    same four frames each time. *)
Theorem worker_sends_the_placeholder
    (graph : features -> ndarray) (max_seq_len n : nat) (tr : list effect) :
  worker_run graph max_seq_len n (tt, tr)
  = (Ok tt,
     (tt, tr ++ concat (repeat
                          [Send WorkerSink
                             (ndarray_frames "test" (graph (gen max_seq_len))
                                default_req_id);
                           Log INFO (JobDone (shape (graph (gen max_seq_len))) "test")]
                          n))).
Proof.
  unfold worker_run. revert tr.
  induction n as [|n IH]; intros tr; cbn [repeat for_each concat].
  - rewrite app_nil_r. reflexivity.
  - unfold worker_step at 1, send_ndarray. mstep. rewrite IH.
    cbn [predict client_id encodes gen f_client_id].
    rewrite <- !app_assoc. reflexivity.
Qed.

End SinkFacts.

(* ================================================================= *)
(** ** What a loop emits, whatever its outcome *)

Lemma emitted_refl {S : Type} (P : effect -> Prop) (w : S * list effect) :
  emitted P (snd w) w.
Proof. exists []. split; [symmetry; apply app_nil_r|constructor]. Qed.

Lemma emitted_emit {S : Type} (P : effect -> Prop) (tr0 : list effect) (e : effect) :
  P e -> forall (s : S) tr, emitted P tr0 (s, tr) -> emitted P tr0 (s, tr ++ [e]).
Proof.
  intros He s tr (new & Hn & Hf). cbn [snd] in *. subst tr.
  exists (new ++ [e]). split; [cbn; rewrite app_assoc; reflexivity|].
  apply Forall_app. split; [exact Hf|constructor; [exact He|constructor]].
Qed.

Lemma emitted_state {S : Type} (P : effect -> Prop) (tr0 : list effect)
    (f : S -> S) :
  forall (s : S) tr, emitted P tr0 (s, tr) -> emitted P tr0 (f s, tr).
Proof. intros s tr H. exact H. Qed.

Lemma emitted_weaken {S : Type} (P Q : effect -> Prop) (tr0 : list effect)
    (w : S * list effect) :
  (forall e, P e -> Q e) -> emitted P tr0 w -> emitted Q tr0 w.
Proof.
  intros H (new & Hn & Hf). exists new. split; [exact Hn|].
  eapply Forall_impl; [exact H|exact Hf].
Qed.

Lemma emitted_trans {S : Type} (P : effect -> Prop) (tr0 tr1 : list effect)
    (s : S) (w : S * list effect) :
  emitted P tr0 (s, tr1) -> emitted P tr1 w -> emitted P tr0 w.
Proof.
  intros (n1 & H1 & F1) (n2 & H2 & F2). cbn [snd] in H1. subst tr1.
  exists (n1 ++ n2). split; [rewrite H2, app_assoc; reflexivity|].
  apply Forall_app. split; assumption.
Qed.

Lemma keeps_out_of_fuel {S A : Type} (I : S * list effect -> Prop) :
  keeps I (@out_of_fuel S A).
Proof. intros w r w' HI H. injection H as _ <-. exact HI. Qed.

Ltac keeps_steps :=
  repeat lazymatch goal with
    | |- keeps _ (bind _ _) => apply keeps_bind; [|intros ?]
    | |- keeps _ (ret _) => apply keeps_ret
    | |- keeps _ (raise _) => apply keeps_raise
    | |- keeps _ (lift _) => apply keeps_lift
    | |- keeps _ (or_raise _ _) => apply keeps_or_raise
    | |- keeps _ (index _ _) => apply keeps_or_raise
    | |- keeps _ get => apply keeps_get
    | |- keeps _ out_of_fuel => apply keeps_out_of_fuel
    | |- keeps _ (if ?b then _ else _) => destruct b
    end.

Lemma contains_append (c : ascii) (a b : bytes) :
  contains c (a +++ b) = (contains c a || contains c b)%bool.
Proof.
  induction a as [|x r IH]; cbn; [reflexivity|].
  rewrite IH. apply orb_assoc.
Qed.

Lemma contains_sep_app (sep : ascii) (a b : bytes) :
  contains sep (a +++ String sep b) = true.
Proof.
  rewrite contains_append. cbn [contains]. rewrite Ascii.eqb_refl.
  apply orb_true_r.
Qed.

(* ================================================================= *)
(** ** More on the ventilator *)

Section VentilatorRuns.
Context {E : Extern}.

(** A payload that decodes to a value without a length (a number, a
    boolean, [null]) stops the ventilator: [len(seqs)] raises [TypeError],
    which neither handler of the loop catches.  The request was counted
    and logged; nothing is sent, and the requests that follow are not
    served. *)
Theorem unsized_payload_stops_the_ventilator
    (fuel : nat) (srv : BertServer) (now : string) (client msg req_id : bytes)
    (r : Z) (v : json) (st : Vent) (tr : list effect)
    (rest : list (string * list bytes)) :
  msg <> show_config ->
  py_int req_id = Some r ->
  jsonapi_loads msg = Some v ->
  py_len v = Raise TypeError ->
  ventilator_run fuel srv ((now, [client; msg; req_id]) :: rest) (st, tr)
  = (Raise TypeError,
     ({| num_req := num_req st + 1 |}, tr ++ [Log INFO (NewEncodeRequest r client)])).
Proof.
  intros Hmsg Hr Hl Hlen.
  cbn [ventilator_run]. unfold bind at 1.
  unfold serve, try_except, handle_request.
  destruct (String.eqb_spec msg show_config) as [Heq|_]; [contradiction|].
  rewrite Hr, Hl. mstep. rewrite Hlen. mstep. reflexivity.
Qed.




Lemma keeps_partition_loop (I : Vent * list effect -> Prop)
    (srv : BertServer) (job_id : bytes) (seqs : json) (n : Z) :
  (forall off payload st tr,
     I (st, tr) ->
     I (st, tr ++ [Send VentBackend [job_id +++ "@" +++ fmt_d off; payload]])) ->
  forall fuel s_idx, keeps I (partition_loop fuel srv job_id seqs n s_idx).
Proof.
  intros Hsend. induction fuel as [|f IH]; intros s_idx; cbn [partition_loop].
  - keeps_steps.
  - keeps_steps; [|apply IH].
    apply keeps_emit. intros st tr. apply Hsend.
Qed.

Lemma handle_request_state (fuel : nat) (srv : BertServer) (now : string)
    (request : list bytes) (st : Vent) (tr : list effect)
    (o : outcome unit) (st' : Vent) (tr' : list effect) :
  handle_request fuel srv now request (st, tr) = (o, (st', tr')) ->
  st' = if counted request then {| num_req := num_req st + 1 |} else st.
Proof.
  intros H.
  assert (Hk : forall c (m : M Vent unit) w r w',
             keeps (fun w => fst w = c) m -> m w = (r, w') -> fst w = c -> fst w' = c).
  { intros c m w r w' K Hm Hw. exact (K w r w' Hw Hm). }
  destruct request as [|client [|msg [|req_id [|x rest]]]];
    try (cbn in H; injection H as _ <- _; reflexivity).
  unfold handle_request in H. cbn [counted].
  destruct (String.eqb msg show_config) eqn:Hmsg; cbn [negb andb].
  - refine (Hk st _ _ _ _ _ H eq_refl). keeps_steps.
    + apply keeps_emit. intros; assumption.
    + apply keeps_emit. intros; assumption.
  - destruct (py_int req_id) as [r|] eqn:Hr.
    + revert H. mstep. intros H.
      refine (Hk {| num_req := num_req st + 1 |} _ _ _ _ _ H eq_refl). keeps_steps.
      * apply keeps_emit. intros; assumption.
      * apply keeps_partition_loop. intros; assumption.
      * apply keeps_emit. intros; assumption.
    + revert H. mstep. intros H. injection H as _ <- _. reflexivity.
Qed.

Lemma serve_state (fuel : nat) (srv : BertServer) (now : string)
    (request : list bytes) (st : Vent) (tr : list effect)
    (o : outcome unit) (st' : Vent) (tr' : list effect) :
  serve fuel srv now request (st, tr) = (o, (st', tr')) ->
  st' = if counted request then {| num_req := num_req st + 1 |} else st.
Proof.
  unfold serve, try_except.
  destruct (handle_request fuel srv now request (st, tr)) as [r [st1 tr1]] eqn:Hh.
  apply handle_request_state in Hh.
  destruct r as [[]|[]|]; intros H; injection H as _ <- _; exact Hh.
Qed.

(** Over a run of the ventilator that serves all [requests], the request
    counter goes up by the number of envelopes of three frames that are no
    [SHOW_CONFIG] and whose request id [int()] reads, whether their payload
    could be decoded or not. *)
Theorem request_counter_counts_numbered_encode_requests
    (fuel : nat) (srv : BertServer) (requests : list (string * list bytes))
    (st : Vent) (tr : list effect) (st' : Vent) (tr' : list effect) :
  ventilator_run fuel srv requests (st, tr) = (Ok tt, (st', tr')) ->
  num_req st' = num_req st + Z.of_nat (length (filter counted (map snd requests))).
Proof.
  revert st tr. induction requests as [|[now request] rest IH]; intros st tr H.
  - cbn in H. injection H as <- _. cbn. lia.
  - cbn [ventilator_run] in H. unfold bind at 1 in H.
    destruct (serve fuel srv now request (st, tr)) as [r [st1 tr1]] eqn:Hs.
    destruct r as [[]|e|]; [|discriminate|discriminate].
    apply serve_state in Hs. apply IH in H. rewrite H, Hs.
    cbn [map snd filter]. destruct (counted request); cbn [length num_req]; lia.
Qed.

Lemma handle_request_ventilated (fuel : nat) (srv : BertServer) (now : string)
    (client msg req_id : bytes) (tr0 : list effect) :
  keeps (emitted (ventilated client req_id) tr0)
    (handle_request fuel srv now [client; msg; req_id]).
Proof.
  unfold handle_request.
  destruct (String.eqb msg show_config) eqn:Hmsg.
  - apply String.eqb_eq in Hmsg. subst msg. keeps_steps.
    + apply keeps_emit. apply emitted_emit. exact I.
    + apply keeps_emit. apply emitted_emit. cbn. auto.
  - destruct (py_int req_id) as [r|] eqn:Hr;
      [|intros w o w' HI H; revert H; mstep; intros H; injection H as _ <-; exact HI].
    keeps_steps.
    + apply keeps_emit. apply emitted_emit. exact I.
    + apply keeps_modify. apply emitted_state.
    + apply keeps_emit. apply emitted_emit. cbn. eauto 6.
    + apply keeps_partition_loop. intros off payload st tr.
      apply emitted_emit. cbn. rewrite Hr. split; [discriminate|]. right.
      exists off. rewrite !append_assoc. reflexivity.
    + apply keeps_emit. apply emitted_emit. cbn. rewrite Hr.
      split; [discriminate|]. left. reflexivity.
Qed.

Lemma keeps_error_handlers (P : effect -> Prop) (tr0 : list effect)
    (request : list bytes) :
  (forall l m, P (Log l m)) ->
  keeps (@emitted Vent P tr0)
    (bind (emit (Log ERROR (WronglyFormatted (Z.of_nat (length request)))))
          (fun _ => emit (Log ERROR (Fields request))))
  /\ keeps (@emitted Vent P tr0) (emit (Log ERROR ContextClosed)).
Proof.
  intros HP. split; keeps_steps; apply keeps_emit; apply emitted_emit; apply HP.
Qed.

Lemma serve_ventilated (fuel : nat) (srv : BertServer) (now : string)
    (client msg req_id : bytes) (tr0 : list effect) :
  keeps (emitted (ventilated client req_id) tr0)
    (serve fuel srv now [client; msg; req_id]).
Proof.
  unfold serve.
  destruct (keeps_error_handlers (ventilated client req_id) tr0 [client; msg; req_id])
    as [H1 H2]; [intros; exact I|].
  apply keeps_try_except; [apply handle_request_ventilated|exact H1|exact H2].
Qed.

Lemma serve_logs_only (P : effect -> Prop) (fuel : nat) (srv : BertServer)
    (now : string) (request : list bytes) (tr0 : list effect) :
  (forall l m, P (Log l m)) ->
  length request <> 3%nat ->
  keeps (@emitted Vent P tr0) (serve fuel srv now request).
Proof.
  intros HP Hlen. unfold serve.
  destruct (keeps_error_handlers P tr0 request HP) as [H1 H2].
  apply keeps_try_except; [|exact H1|exact H2].
  intros w r w' HI H. rewrite handle_request_wrong_length in H by exact Hlen.
  injection H as _ <-. exact HI.
Qed.

Lemma ventilated_accepted (client req_id : bytes) (frames : list bytes) :
  ventilated client req_id (Send VentSink frames) -> accepted frames.
Proof.
  destruct frames as [|c [|t [|info [|r [|x rest]]]]]; cbn; try contradiction.
  intros (_ & _ & [Ht | (Ht & n & Hn)]) s tr; subst.
  - eexists _, _. unfold on_frontend.
    change (String.eqb show_config new_job) with false.
    rewrite String.eqb_refl. cbv iota. mstep. reflexivity.
  - eexists _, _. unfold on_frontend. rewrite String.eqb_refl.
    rewrite py_int_fmt_d. mstep. reflexivity.
Qed.

(** Whatever arrives at the ventilator and however its loop ends, every
    control message it has sent on the pair socket is one the sink handles
    without raising, in any state: four frames, and a count that [int()]
    reads after [NEW_JOB]. *)
Theorem sink_accepts_what_the_ventilator_sends
    (fuel : nat) (srv : BertServer) (requests : list (string * list bytes))
    (st : Vent) (tr : list effect) (o : outcome unit) (st' : Vent)
    (tr' : list effect) :
  ventilator_run fuel srv requests (st, tr) = (o, (st', tr')) ->
  exists new,
    tr' = tr ++ new
    /\ forall frames, In (Send VentSink frames) new -> accepted frames.
Proof.
  set (P := fun ev => forall frames, ev = Send VentSink frames -> accepted frames).
  assert (Hlog : forall l m, P (Log l m)) by (intros l m frames Hf; discriminate).
  assert (K : forall tr0, keeps (emitted P tr0) (ventilator_run fuel srv requests)).
  { induction requests as [|[now request] rest IH]; intros tr0; cbn [ventilator_run].
    - apply keeps_ret.
    - apply keeps_bind; [|intros _; apply IH].
      assert (D : length request <> 3%nat \/ exists c m r, request = [c; m; r]).
      { destruct request as [|c [|m [|r [|x q]]]];
          try (left; discriminate). right. eauto. }
      destruct D as [D | (c & m & r & ->)]; [apply serve_logs_only; assumption|].
      intros [s0 t0] res w' HI H.
      apply (emitted_trans P tr0 t0 s0 w' HI).
      apply (emitted_weaken (ventilated c r) P).
      + intros e He frames ->. exact (ventilated_accepted c r frames He).
      + exact (serve_ventilated fuel srv now c m r t0 (s0, t0) res w'
                 (emitted_refl _ (s0, t0)) H). }
  intros H. destruct (K tr (st, tr) o (st', tr') (emitted_refl P (st, tr)) H)
    as (new & Hn & Hf).
  exists new. split; [exact Hn|]. intros frames Hin.
  rewrite Forall_forall in Hf. exact (Hf _ Hin frames eq_refl).
Qed.

(** The labels of the chunks the ventilator pushes for a request are read
    back by the sink as the job of that request: when the client address
    holds no [@], the sink's parsing of every label gives the job id
    [client#req_id] and a partial id that [int()] reads. *)
Theorem chunk_labels_name_their_job
    (fuel : nat) (srv : BertServer) (now : string) (client msg req_id : bytes)
    (st : Vent) (tr : list effect) (o : outcome unit) (st' : Vent)
    (tr' : list effect) :
  contains "@" client = false ->
  serve fuel srv now [client; msg; req_id] (st, tr) = (o, (st', tr')) ->
  exists new,
    tr' = tr ++ new
    /\ forall frames, In (Send VentBackend frames) new ->
         exists label payload partial_id off,
           frames = [label; payload]
           /\ parse_chunk_id label = (client +++ "#" +++ req_id, partial_id)
           /\ int_of partial_id = Some off.
Proof.
  intros Hc H.
  destruct (serve_ventilated fuel srv now client msg req_id tr (st, tr) o (st', tr')
              (emitted_refl _ (st, tr)) H) as (new & Hn & Hf).
  exists new. split; [exact Hn|]. intros frames Hin.
  rewrite Forall_forall in Hf. specialize (Hf _ Hin).
  destruct frames as [|label [|payload [|x rest]]]; cbn in Hf; try contradiction.
  destruct Hf as (Hr & Hl).
  assert (Hat : contains "@" (client +++ "#" +++ req_id) = false).
  { rewrite contains_append, Hc. cbn.
    destruct (contains "@" req_id) eqn:Hq; [|reflexivity].
    exfalso. apply Hr. apply py_int_rejects_sentinels. right. exact Hq. }
  destruct Hl as [-> | (off & ->)].
  - exists (client +++ "#" +++ req_id), payload, (VInt 0), 0.
    rewrite parse_chunk_id_whole by exact Hat. repeat split.
  - eexists _, payload, (VBytes (fmt_d off)), off.
    rewrite parse_chunk_id_partial by exact Hat.
    repeat split. apply py_int_fmt_d.
Qed.



End VentilatorRuns.

(* ================================================================= *)
(** ** More on the sink *)

Section SinkRuns.
Context {E : Extern}.

Lemma np_concatenate_raises (l : list ndarray) :
  np_concatenate l <> NoFuel /\ forall e, np_concatenate l = Raise e -> e = ValueError.
Proof.
  unfold np_concatenate. destruct l as [|X r]; [split; [discriminate|congruence]|].
  destruct (shape X); [split; [discriminate|congruence]|].
  destruct (forallb _ _); [|split; [discriminate|congruence]].
  destruct (forallb _ _); split; discriminate.
Qed.

Lemma send_back_undeliverable (k : bytes) (parts : list part) (s : Sink)
    (tr : list effect) (e : Z) :
  dict_get k (job_checksum s) = Some e ->
  ~ deliverable (k, parts) ->
  send_back (k, parts) (s, tr)
  = (Raise ValueError, (s, tr ++ [Log INFO (SendBack e k)])).
Proof.
  intros He Hnd. unfold send_back, read_job_checksum. mstep. rewrite He. mstep.
  destruct (sorted_parts parts) as [sorted|] eqn:Hs; mstep; [|reflexivity].
  destruct (split "#" k) as [|a [|b [|c q]]] eqn:Hk; mstep; try reflexivity.
  destruct (np_concatenate (map fst sorted)) as [X|e'|] eqn:HX; mstep.
  - exfalso. apply Hnd. exists a, b, sorted, X. cbn [fst snd]. auto.
  - apply (proj2 (np_concatenate_raises _)) in HX. subst e'. reflexivity.
  - exfalso. exact (proj1 (np_concatenate_raises _) HX).
Qed.

Lemma filter_only {V : Type} (f : bytes * V -> bool) (k : bytes) (v : V) (d : dict V) :
  NoDup (keys d) ->
  dict_get k d = Some v ->
  f (k, v) = true ->
  (forall j u, In (j, u) d -> f (j, u) = true -> j = k) ->
  filter f d = [(k, v)].
Proof.
  induction d as [|[j u] r IH]; intros Hnd Hg Hf Ho; [discriminate|].
  cbn [dict_get] in Hg. cbn [keys map fst] in Hnd. inversion Hnd as [|? ? Hnin Hnd']; subst.
  cbn [filter].
  assert (Hrest : forall k', ~ In k' (keys r) ->
            (forall j u, In (j, u) r -> f (j, u) = true -> j = k') -> filter f r = []).
  { clear. intros k' Hnin Ho. induction r as [|[j u] r IH]; [reflexivity|].
    cbn [filter]. destruct (f (j, u)) eqn:Hf.
    - exfalso. apply Hnin. left. cbn. apply (Ho j u); [left; reflexivity|exact Hf].
    - apply IH; [intros Hin; apply Hnin; right; exact Hin|].
      intros j' u' Hin. apply Ho. right. exact Hin. }
  destruct (String.eqb_spec j k) as [->|Hne].
  - injection Hg as ->. rewrite Hf. f_equal.
    apply (Hrest k); [exact Hnin|]. intros j u' Hin. apply Ho. right. exact Hin.
  - destruct (f (j, u)) eqn:Hfj.
    + exfalso. apply Hne. apply (Ho j u); [left; reflexivity|exact Hfj].
    + apply IH; try assumption. intros j' u' Hin. apply Ho. right. exact Hin.
Qed.

(** A complete job that cannot be put together ends the sink.  When the
    received count of a job reaches the registered one and its id does not
    split in two at [#], or a partial id is no integer, or its arrays do not
    fit together, the delivery raises [ValueError] right after its log
    line: nothing is published, no entry is popped, and since the sink
    catches only [ContextTerminated] its loop is over; the polls that
    follow are not served. *)
Theorem undeliverable_job_ends_the_sink
    (msg : list bytes) (s s1 : Sink) (tr tr1 : list effect)
    (k : bytes) (parts : list part) (e : Z)
    (from_ventilator : option (list bytes))
    (polls : list (option (list bytes) * option (list bytes))) :
  sink_inv s ->
  collect msg (s, tr) = (Ok tt, (s1, tr1)) ->
  dict_get k (pending_result s1) = Some parts ->
  dict_get k (job_checksum s1) = Some e ->
  received k s1 = e ->
  ~ deliverable (k, parts) ->
  (forall j v, In (j, v) (pending_result s1) -> complete s1 (j, v) = true -> j = k) ->
  sink_run ((Some msg, from_ventilator) :: polls) (s, tr)
  = (Raise ValueError, (s1, tr1 ++ [Log INFO (SendBack e k)])).
Proof.
  intros Hinv Hc Hparts He Hrec Hnd Honly.
  assert (Hinv1 : sink_inv s1).
  { destruct (collect_ok_inv _ _ _ _ Hc)
      as (ci & h & p & rest & ai & X & j & pid & e' & _ & _ & _ & _ & _ & Hj & Hw).
    injection Hw as -> _. apply sink_inv_store; [congruence|exact Hinv]. }
  destruct Hinv1 as (Hnd1 & Hcnt & _ & Hreg).
  assert (Hscan : scan_finished (pending_result s1) (s1, tr1)
                  = (Ok [(k, parts)], (s1, tr1))).
  { rewrite scan_finished_ok.
    - rewrite (filter_only (complete s1) k parts); try assumption; [reflexivity|].
      unfold complete. cbn [fst]. rewrite He. apply Z.eqb_eq. exact Hrec.
    - eapply Forall_impl; [|exact Hcnt]. intros kv Hkv. cbn in Hkv. congruence.
    - exact Hreg. }
  assert (Hrx : on_receiver msg (s, tr)
                = (Raise ValueError, (s1, tr1 ++ [Log INFO (SendBack e k)]))).
  { unfold on_receiver. rewrite (bind_ok _ _ _ _ _ Hc).
    unfold check_finished. mstep. rewrite (bind_ok _ _ _ _ _ Hscan).
    cbn [for_each]. rewrite (bind_err _ _ _ _ _ (send_back_undeliverable _ _ _ _ _ He Hnd)).
    reflexivity. }
  unfold sink_run, try_except. cbn [sink_loop]. unfold sink_turn.
  rewrite bind_assoc. rewrite (bind_err _ _ _ _ _ Hrx). reflexivity.
Qed.

Lemma split_sep_app (sep : ascii) (a b : bytes) :
  split sep (a +++ String sep b) = split sep a ++ split sep b.
Proof.
  induction a as [|c r IH]; cbn [String.append split].
  - rewrite Ascii.eqb_refl. reflexivity.
  - destruct (Ascii.eqb c sep); [rewrite IH; reflexivity|].
    rewrite IH. destruct (split sep r) as [|h t] eqn:Hr.
    + exfalso. exact (split_not_nil _ _ Hr).
    + reflexivity.
Qed.

Lemma split_contains (sep : ascii) (s : bytes) :
  contains sep s = true -> (2 <= length (split sep s))%nat.
Proof.
  induction s as [|c r IH]; cbn [contains split]; [discriminate|].
  destruct (Ascii.eqb c sep); cbn [orb].
  - intros _. cbn [length]. pose proof (split_not_nil sep r).
    destruct (split sep r); [contradiction|cbn [length]; lia].
  - intros H. specialize (IH H). destruct (split sep r); cbn [length] in *; lia.
Qed.

(** A client address that holds [#] is let through by the ventilator, but
    its job is never answered: the sink splits the job id
    [client#req_id] at every [#] and unpacks two fields, so for such a job
    the delivery raises [ValueError] after its log line, whatever parts
    were received.  Nothing is published and no entry is popped. *)
Theorem hash_in_client_address_is_never_answered
    (client req_id : bytes) (parts : list part) (s : Sink) (tr : list effect) (e : Z) :
  contains "#" client = true ->
  dict_get (client +++ "#" +++ req_id) (job_checksum s) = Some e ->
  send_back (client +++ "#" +++ req_id, parts) (s, tr)
  = (Raise ValueError, (s, tr ++ [Log INFO (SendBack e (client +++ "#" +++ req_id))])).
Proof.
  intros Hc He. apply send_back_undeliverable; [exact He|].
  intros (a & b & sorted & X & Hsplit & _). cbn [fst] in Hsplit.
  change (client +++ "#" +++ req_id) with (client +++ String "#" req_id) in Hsplit.
  rewrite split_sep_app in Hsplit.
  apply split_contains in Hc.
  pose proof (split_not_nil "#" req_id) as Hr.
  apply (f_equal (@length bytes)) in Hsplit. rewrite length_app in Hsplit.
  destruct (split "#" req_id); [contradiction|]. cbn [length] in Hsplit. lia.
Qed.

Lemma hash_client_is_undeliverable (client req_id : bytes) (parts : list part) :
  contains "#" client = true -> ~ deliverable (client +++ "#" +++ req_id, parts).
Proof.
  intros Hc (a & b & sorted & X & Hsplit & _). cbn [fst] in Hsplit.
  change (client +++ "#" +++ req_id) with (client +++ String "#" req_id) in Hsplit.
  rewrite split_sep_app in Hsplit.
  apply split_contains in Hc.
  pose proof (split_not_nil "#" req_id) as Hr.
  apply (f_equal (@length bytes)) in Hsplit. rewrite length_app in Hsplit.
  destruct (split "#" req_id); [contradiction|]. cbn [length] in Hsplit. lia.
Qed.

Lemma complete_store_other (k j : bytes) (v : list part) (X : ndarray)
    (partial_id : pyval) (s : Sink) :
  j <> k -> complete (store k X partial_id s) (j, v) = complete s (j, v).
Proof.
  intros Hj. unfold complete, received, store.
  cbn [fst pending_checksum job_checksum].
  rewrite dict_get_set_neq by exact Hj. reflexivity.
Qed.

(** C1, as the code does it.  The sink does not deliver every job it
    holds.  The job of a client whose address holds [#] is registered by
    the ventilator like any other; when the worker output arrives that
    makes its received count equal to its expected count, the job is
    complete and the scan selects it, but
    [client_addr, req_id = job_info.split(b'#')] raises [ValueError] after
    the log line of the delivery.  No result is published for the job, its
    entries stay in the tables, and since the sink catches only
    [ContextTerminated] its loop is over: the job is never delivered, and
    no job after it. *)
Theorem complete_job_with_hash_in_client_address_is_not_delivered
    (client req_id chunk_id header payload : bytes) (rest : list bytes)
    (arr_info : json) (X : ndarray) (partial_id : pyval)
    (s : Sink) (tr : list effect) (expected : Z)
    (from_ventilator : option (list bytes))
    (polls : list (option (list bytes) * option (list bytes))) :
  let k := client +++ "#" +++ req_id in
  let s1 := store k X partial_id s in
  let new := [Log INFO (CollectJob k expected expected); Log INFO (SendBack expected k)] in
  contains "#" client = true ->
  sink_inv s ->
  Forall (fun kv => complete s kv = false) (pending_result s) ->
  dict_get k (job_checksum s) = Some expected ->
  jsonapi_loads header = Some arr_info ->
  materialize arr_info payload = Ok X ->
  shape X <> [] ->
  parse_chunk_id chunk_id = (k, partial_id) ->
  received k s + Z.of_nat (rows X) = expected ->
  received k s1 = expected
  /\ dict_get k (job_checksum s1) = Some expected
  /\ dict_get k (pending_result s1) = Some (parts_of k s ++ [(X, partial_id)])
  /\ sink_run ((Some (chunk_id :: header :: payload :: rest), from_ventilator) :: polls)
       (s, tr)
     = (Raise ValueError, (s1, tr ++ new))
  /\ forall ev, In ev new -> ~ delivers k ev.
Proof.
  intros k s1 new Hc Hinv Hidle He Hload Hmat Hshape Hp Hsum.
  assert (Hrec : received k s1 = expected).
  { unfold received, s1, store. cbn [pending_checksum].
    rewrite dict_get_set_eq. exact Hsum. }
  assert (Hparts : dict_get k (pending_result s1) = Some (parts_of k s ++ [(X, partial_id)])).
  { unfold s1, store. cbn [pending_result]. apply dict_get_set_eq. }
  assert (Hreg : dict_get k (job_checksum s1) = Some expected) by exact He.
  split; [exact Hrec|]. split; [exact Hreg|]. split; [exact Hparts|].
  split; [|intros ev [<-|[<-|[]]]; apply log_delivers_nothing].
  assert (Hcollect : collect (chunk_id :: header :: payload :: rest) (s, tr)
                     = (Ok tt, (s1, tr ++ [Log INFO (CollectJob k expected expected)]))).
  { rewrite (collect_decoded chunk_id header payload rest arr_info X k partial_id s tr
               Hload Hmat Hshape Hp).
    rewrite He, Hsum. reflexivity. }
  assert (Hinv1 : sink_inv s1) by (apply sink_inv_store; [congruence|exact Hinv]).
  destruct Hinv1 as (Hnd1 & Hcnt1 & _ & Hregs1).
  assert (Honly : forall j v, In (j, v) (pending_result s1) ->
                    complete s1 (j, v) = true -> j = k).
  { intros j v Hj Hcomp. destruct (String.eqb_spec j k) as [Heq|Hneq]; [exact Heq|].
    exfalso. unfold s1 in Hcomp. rewrite complete_store_other in Hcomp by exact Hneq.
    unfold s1, store in Hj. cbn [pending_result] in Hj.
    apply In_dict_set in Hj; [|exact (proj1 Hinv)].
    destruct Hj as [[Heq _]|[_ Hj]]; [contradiction|].
    rewrite (proj1 (Forall_forall _ _) Hidle (j, v) Hj) in Hcomp. discriminate. }
  assert (Hscan : forall t, scan_finished (pending_result s1) (s1, t)
                  = (Ok [(k, parts_of k s ++ [(X, partial_id)])], (s1, t))).
  { intros t. rewrite scan_finished_ok.
    - rewrite (filter_only (complete s1) k _ _ Hnd1 Hparts); [reflexivity| |exact Honly].
      unfold complete. cbn [fst]. rewrite Hreg, Hrec. apply Z.eqb_refl.
    - eapply Forall_impl; [|exact Hcnt1]. intros kv Hkv. rewrite Hkv. discriminate.
    - exact Hregs1. }
  assert (Hrx : on_receiver (chunk_id :: header :: payload :: rest) (s, tr)
                = (Raise ValueError, (s1, tr ++ new))).
  { unfold on_receiver. rewrite (bind_ok _ _ _ _ _ Hcollect).
    unfold check_finished. mstep. rewrite (bind_ok _ _ _ _ _ (Hscan _)).
    cbn [for_each].
    rewrite (bind_err _ _ _ _ _
               (send_back_undeliverable k _ s1 _ expected Hreg
                  (hash_client_is_undeliverable client req_id _ Hc))).
    unfold new. rewrite <- app_assoc. reflexivity. }
  unfold sink_run, try_except. cbn [sink_loop]. unfold sink_turn.
  rewrite bind_assoc. rewrite (bind_err _ _ _ _ _ Hrx). reflexivity.
Qed.

Lemma hd_split_no_sep (sep : ascii) (s : bytes) :
  contains sep (hd EmptyString (split sep s)) = false.
Proof.
  induction s as [|c r IH]; cbn [split]; [reflexivity|].
  destruct (Ascii.eqb c sep) eqn:Hc; [reflexivity|].
  destruct (split sep r) as [|h t]; cbn [hd contains] in *; rewrite Hc; [reflexivity|].
  exact IH.
Qed.

Lemma at_free_emit (e : effect) :
  no_at e -> forall s tr, at_free (s, tr) -> at_free (s, tr ++ [e]).
Proof.
  intros He s tr [H1 H2]. split; [exact H1|]. cbn [snd] in *.
  apply Forall_app. split; [exact H2|constructor; [exact He|constructor]].
Qed.

Lemma no_at_log (l : level) (m : log_msg) : no_at (Log l m).
Proof. intros k H. exfalso. exact (log_delivers_nothing _ _ _ H). Qed.

Lemma Forall_dict_set {V : Type} (P : bytes * V -> Prop) (k : bytes) (v : V)
    (d : dict V) :
  P (k, v) -> Forall P d -> Forall P (dict_set k v d).
Proof.
  intros Hk. induction d as [|[j u] r IH]; intros Hd; cbn [dict_set].
  - constructor; [exact Hk|constructor].
  - inversion Hd; subst. destruct (String.eqb j k); constructor; auto.
Qed.

Lemma Forall_dict_remove {V : Type} (P : bytes * V -> Prop) (k : bytes) (d : dict V) :
  Forall P d -> Forall P (dict_remove k d).
Proof.
  intros H. unfold dict_remove. apply Forall_forall. intros x Hx.
  apply filter_In in Hx as [Hx _]. rewrite Forall_forall in H. exact (H x Hx).
Qed.

Lemma at_free_result_table (f : Sink -> Sink) :
  (forall s, pending_result (f s) = pending_result s) ->
  forall s tr, at_free (s, tr) -> at_free (f s, tr).
Proof. intros Hf s tr [H1 H2]. split; [cbn [fst] in *; rewrite Hf; exact H1|exact H2]. Qed.

Lemma keeps_at_free_read_pending_checksum (k : bytes) :
  keeps at_free (read_pending_checksum k).
Proof.
  unfold read_pending_checksum. apply keeps_bind; [apply keeps_get|intros s].
  destruct (dict_get k (pending_checksum s)); keeps_steps.
  apply keeps_modify. apply at_free_result_table. reflexivity.
Qed.

Lemma keeps_at_free_read_pending_result (k : bytes) :
  contains "@" k = false -> keeps at_free (read_pending_result k).
Proof.
  intros Hk [s tr] r w' HI H. unfold read_pending_result in H. revert H. mstep.
  destruct (dict_get k (pending_result s)); mstep; intros H; injection H as _ <-;
    [exact HI|].
  destruct HI as [H1 H2]. split; [|exact H2].
  cbn [fst pending_result set_pending_result] in *.
  apply Forall_dict_set; [exact Hk|exact H1].
Qed.

Lemma keeps_at_free_collect (msg : list bytes) : keeps at_free (collect msg).
Proof.
  unfold collect. keeps_steps.
  destruct (parse_chunk_id _) as [job_id partial_id] eqn:Hp.
  assert (Hj : contains "@" job_id = false).
  { unfold parse_chunk_id in Hp. injection Hp as <- _. apply hd_split_no_sep. }
  keeps_steps.
  - apply keeps_at_free_read_pending_result. exact Hj.
  - apply keeps_modify. intros s tr [H1 H2]. split; [|exact H2].
    cbn [fst pending_result set_pending_result] in *.
    apply Forall_dict_set; [exact Hj|exact H1].
  - apply keeps_at_free_read_pending_checksum.
  - apply keeps_modify. apply at_free_result_table. reflexivity.
  - apply keeps_at_free_read_pending_checksum.
  - unfold read_job_checksum. keeps_steps.
  - apply keeps_emit. apply at_free_emit. apply no_at_log.
Qed.

Lemma scan_finished_sublist (items : list (bytes * list part)) :
  forall s tr r s' tr',
    scan_finished items (s, tr) = (r, (s', tr')) ->
    pending_result s' = pending_result s /\ tr' = tr
    /\ forall fin, r = Ok fin -> incl fin items.
Proof.
  induction items as [|[k v] rest IH]; intros s tr r s' tr' H.
  - cbn in H. injection H as <- <- <-. repeat split. intros fin Hf.
    injection Hf as <-. intros x [].
  - cbn [scan_finished] in H.
    destruct (read_pending_checksum_run k s tr) as (s1 & Hrun & Hpr & _).
    rewrite (bind_ok _ _ _ _ _ Hrun) in H.
    unfold read_job_checksum in H. revert H. mstep.
    destruct (dict_get k (job_checksum s1)) as [e|]; mstep.
    + destruct (scan_finished rest (s1, tr)) as [[fin|x|] [s2 tr2]] eqn:Hrest;
        destruct (IH _ _ _ _ _ Hrest) as (Hp2 & Ht2 & Hincl);
        rewrite ?(bind_ok _ _ _ _ _ Hrest); unfold bind; rewrite ?Hrest; cbn;
        intros H; injection H as <- <- <-;
        (split; [congruence|split; [exact Ht2|]]); intros fin' Hf; try discriminate.
      injection Hf as <-. specialize (Hincl fin eq_refl).
      destruct (received k s =? e).
      * intros x [<-|Hx]; [left; reflexivity|right; exact (Hincl x Hx)].
      * intros x Hx. right. exact (Hincl x Hx).
    + intros H. injection H as <- <- <-. repeat split; [exact Hpr|]. discriminate.
Qed.

Lemma keeps_at_free_pops (k : bytes) :
  keeps at_free (pop_pending_result k)
  /\ keeps at_free (pop_pending_checksum k)
  /\ keeps at_free (pop_job_checksum k).
Proof.
  split; [|split]; intros [s tr] r w' HI H.
  - unfold pop_pending_result in H. revert H. mstep.
    destruct (dict_pop k (pending_result s)) as [[u d]|] eqn:Hpop; mstep;
      intros H; injection H as _ <-; [|exact HI].
    apply dict_pop_some in Hpop as [-> _].
    destruct HI as [H1 H2]. split; [|exact H2].
    cbn [fst pending_result set_pending_result] in *.
    apply Forall_dict_remove. exact H1.
  - unfold pop_pending_checksum in H. revert H. mstep.
    destruct (dict_pop k (pending_checksum s)) as [[u d]|]; mstep;
      intros H; injection H as _ <-; exact HI.
  - unfold pop_job_checksum in H. revert H. mstep.
    destruct (dict_pop k (job_checksum s)) as [[u d]|]; mstep;
      intros H; injection H as _ <-; exact HI.
Qed.

Lemma keeps_at_free_send_back (k : bytes) (v : list part) :
  contains "@" k = false -> keeps at_free (send_back (k, v)).
Proof.
  intros Hk. unfold send_back, read_job_checksum. keeps_steps.
  - apply keeps_emit. apply at_free_emit. apply no_at_log.
  - destruct (keeps_at_free_pops k) as (P1 & P2 & P3).
    destruct (split "#" k) as [|ca [|rid [|x q]]] eqn:Hs; keeps_steps;
      [|exact P1|exact P2|exact P3].
    unfold send_ndarray. apply keeps_emit. apply at_free_emit.
    intros j Hj. rewrite (result_delivers_its_job k j ca rid _ Hs Hj). exact Hk.
Qed.

Lemma keeps_at_free_check_finished : keeps at_free check_finished.
Proof.
  intros [s tr] r w' HI H. unfold check_finished in H. revert H. mstep.
  destruct (scan_finished (pending_result s) (s, tr)) as [o [s1 tr1]] eqn:Hscan.
  destruct (scan_finished_sublist _ _ _ _ _ _ Hscan) as (Hpr & -> & Hincl).
  assert (HI1 : at_free (s1, tr)).
  { destruct HI as [H1 H2]. split; [cbn [fst] in *; rewrite Hpr; exact H1|exact H2]. }
  destruct o as [fin|e|].
  - rewrite (bind_ok _ _ _ _ _ Hscan). intros H.
    refine (keeps_for_each at_free send_back fin _ _ _ _ HI1 H).
    intros [k v] Hin. apply keeps_at_free_send_back.
    destruct HI as [H1 _]. rewrite Forall_forall in H1.
    exact (H1 (k, v) (Hincl fin eq_refl _ Hin)).
  - rewrite (bind_err _ _ _ _ _ Hscan). intros H. injection H as _ <-. exact HI1.
  - unfold bind. rewrite Hscan. intros H. injection H as _ <-. exact HI1.
Qed.

Lemma keeps_at_free_on_frontend (msg : list bytes) : keeps at_free (on_frontend msg).
Proof.
  unfold on_frontend.
  destruct msg as [|a [|b [|c [|d [|x q]]]]]; keeps_steps.
  - apply keeps_modify. apply at_free_result_table. reflexivity.
  - apply keeps_emit. apply at_free_emit. apply no_at_log.
  - apply keeps_emit. apply at_free_emit.
    intros k H. exfalso. exact (sleep_delivers_nothing _ _ H).
  - apply keeps_emit. apply at_free_emit. apply no_at_log.
  - apply keeps_emit. apply at_free_emit.
    intros k H. exfalso. exact (config_reply_delivers_nothing _ _ _ _ H).
Qed.

Lemma keeps_at_free_sink_loop (polls : list (option (list bytes) * option (list bytes))) :
  keeps at_free (sink_loop polls).
Proof.
  induction polls as [|[rx fx] rest IH]; cbn [sink_loop]; [apply keeps_ret|].
  apply keeps_bind; [|intros _; exact IH].
  unfold sink_turn. apply keeps_bind; [|intros _].
  - destruct rx; [|apply keeps_ret]. unfold on_receiver.
    apply keeps_bind; [apply keeps_at_free_collect|intros _; apply keeps_at_free_check_finished].
  - destruct fx; [apply keeps_at_free_on_frontend|apply keeps_ret].
Qed.

(** A client address that holds [@] is let through by the ventilator, but
    no result is ever published for it: the sink files every worker output
    under the bytes before the first [@] of its label, so a job whose id
    holds an [@] never has parts.  Whatever the sink receives from its
    start and however its loop ends, it has published no result for a
    client address and request id that make up a job id with an [@]. *)
Theorem at_in_client_address_is_never_answered
    (polls : list (option (list bytes) * option (list bytes)))
    (r : outcome unit) (s' : Sink) (tr' : list effect)
    (client req_id header data : bytes) :
  sink_run polls (sink_init, []) = (r, (s', tr')) ->
  contains "@" (client +++ "#" +++ req_id) = true ->
  ~ In (Send SinkSender [client; header; data; req_id]) tr'.
Proof.
  intros H Hat Hin.
  assert (K : keeps at_free (sink_run polls)).
  { unfold sink_run. apply keeps_try_except;
      [apply keeps_at_free_sink_loop|apply keeps_raise|].
    apply keeps_emit. apply at_free_emit. apply no_at_log. }
  assert (H0 : at_free (sink_init, [])) by (split; constructor).
  destruct (K _ _ _ H0 H) as [_ H2]. cbn [snd] in H2.
  rewrite Forall_forall in H2. specialize (H2 _ Hin (client +++ "#" +++ req_id)).
  rewrite H2 in Hat; [discriminate|].
  exists client, header, data, req_id. split; reflexivity.
Qed.

Lemma dict_remove_set {V : Type} (k : bytes) (v : V) (d : dict V) :
  dict_remove k (dict_set k v d) = dict_remove k d.
Proof.
  unfold dict_remove. induction d as [|[j u] r IH]; cbn [dict_set filter fst].
  - rewrite String.eqb_refl. reflexivity.
  - destruct (String.eqb j k) eqn:Hj; cbn [filter fst negb].
    + rewrite String.eqb_refl. reflexivity.
    + rewrite Hj. cbn [negb]. rewrite IH. reflexivity.
Qed.

Lemma dict_remove_absent {V : Type} (k : bytes) (d : dict V) :
  dict_get k d = None -> dict_remove k d = d.
Proof.
  unfold dict_remove. induction d as [|[j u] r IH]; cbn [dict_get filter fst];
    [reflexivity|].
  destruct (String.eqb j k); [discriminate|]. intros H. cbn [negb]. rewrite IH by exact H.
  reflexivity.
Qed.

Lemma forget_store (k : bytes) (X : ndarray) (pid : pyval) (s : Sink) :
  forget k (store k X pid s) = forget k s.
Proof.
  unfold forget, store. cbn [pending_checksum pending_result job_checksum].
  rewrite !dict_remove_set. reflexivity.
Qed.

Lemma forget_unknown_id (k : bytes) (s : Sink) : unknown k s -> forget k s = s.
Proof.
  intros (H1 & H2 & H3). unfold forget.
  rewrite !dict_remove_absent by assumption. destruct s; reflexivity.
Qed.

Lemma results_parts (job_id : bytes) (d : string) (tl : list nat)
    (enc : json -> bytes) (m : Z) (seqs : list json) :
  map part_of (results_of job_id d tl enc m seqs)
  = expected_parts job_id d tl enc m seqs.
Proof. unfold results_of, expected_parts. rewrite map_map. reflexivity. Qed.

Lemma dispatched_labels (job_id : bytes) (m : Z) (seqs : list json) :
  contains "@" job_id = false ->
  Forall (fun lc => fst (parse_chunk_id (fst lc)) = job_id) (dispatched job_id m seqs).
Proof.
  intros Hat. unfold dispatched. destruct (_ <=? _).
  - constructor; [|constructor]. cbn [fst]. rewrite parse_chunk_id_whole by exact Hat.
    reflexivity.
  - apply Forall_forall. intros lc Hin. apply in_map_iff in Hin as (c & <- & _).
    cbn [fst]. rewrite parse_chunk_id_partial by exact Hat. reflexivity.
Qed.

Lemma dispatched_items (job_id : bytes) (m : Z) (seqs : list json) :
  0 < m ->
  concat (map snd (dispatched job_id m seqs)) = seqs
  /\ dispatched job_id m seqs <> []
  /\ (Forall (fun lc => (1 <= length (snd lc))%nat) (dispatched job_id m seqs)
      \/ length (dispatched job_id m seqs) = 1%nat).
Proof.
  intros Hm. unfold dispatched. destruct (_ <=? _) eqn:Hle.
  - cbn. rewrite app_nil_r. repeat split; [discriminate|right; reflexivity].
  - apply Z.leb_gt in Hle. rewrite map_map. cbn [snd].
    assert (Hm1 : (1 <= Z.to_nat m)%nat) by lia.
    split; [apply chunks_from_concat; [exact Hm1|lia]|]. split.
    + unfold chunks. destruct seqs as [|x r]; [cbn in Hle; lia|]. cbn. discriminate.
    + left. apply Forall_forall. intros lc Hin. apply in_map_iff in Hin as (c & <- & Hc).
      cbn [snd]. exact (proj1 (chunks_from_sizes _ Hm1 _ _ _ _ Hc)).
Qed.

Lemma total_rows_results (job_id : bytes) (d : string) (tl : list nat)
    (enc : json -> bytes) (m : Z) (seqs : list json) :
  0 < m ->
  total_rows (map part_of (results_of job_id d tl enc m seqs)) = Z.of_nat (length seqs).
Proof.
  intros Hm. destruct (dispatched_items job_id m seqs Hm) as (Hc & _).
  rewrite total_rows_sum. unfold results_of. rewrite !map_map. cbn [part_of fst snd].
  rewrite <- Hc at 2. f_equal. clear Hc.
  induction (dispatched job_id m seqs) as [|lc r IH]; [reflexivity|].
  cbn [map fold_right concat]. rewrite length_app, IH. reflexivity.
Qed.

Lemma complete_elsewhere (k j : bytes) (v : list part) (s1 s : Sink) :
  forget k s1 = s -> j <> k -> complete s1 (j, v) = complete s (j, v).
Proof.
  intros <- Hj. unfold complete, received, forget.
  cbn [fst pending_checksum job_checksum].
  rewrite !dict_get_remove_neq by exact Hj. reflexivity.
Qed.

Lemma In_dict_remove {V : Type} (k j : bytes) (v : V) (d : dict V) :
  j <> k -> In (j, v) d -> In (j, v) (dict_remove k d).
Proof.
  intros Hj Hin. unfold dict_remove. apply filter_In. split; [exact Hin|].
  cbn [fst]. destruct (String.eqb_spec j k); [contradiction|reflexivity].
Qed.

Lemma filter_none {A : Type} (f : A -> bool) (l : list A) :
  (forall x, In x l -> f x = false) -> filter f l = [].
Proof.
  induction l as [|a r IH]; intros H; [reflexivity|]. cbn [filter].
  rewrite (H a (or_introl eq_refl)). apply IH. intros x Hx. apply H. right. exact Hx.
Qed.

Section Reassembly.

Variables (client req_id : bytes) (d : string) (tl : list nat) (enc : json -> bytes).
Variables (m : Z) (seqs : list json) (outs : list (bytes * ndarray)) (s : Sink).

Let k : bytes := client +++ "#" +++ req_id.
Let n : Z := Z.of_nat (length seqs).
Let answer : effect :=
  Send SinkSender (ndarray_frames client (encoded d tl enc seqs) req_id).

Hypothesis Hm : 0 < m.
Hypothesis Hsplit : split "#" k = [client; req_id].
Hypothesis Hat : contains "@" k = false.
Hypothesis Hidle : Forall (fun kv => complete s kv = false) (pending_result s).
Hypothesis Hperm : Permutation outs (results_of k d tl enc m seqs).
Hypothesis Hdec : Forall (fun o => decodable (snd o)) outs.

Lemma outs_facts :
  Forall (fun o => fst (parse_chunk_id (fst o)) = k /\ shape (snd o) <> []) outs
  /\ total_rows (map part_of outs) = n
  /\ (Forall (fun o => (1 <= rows (snd o))%nat) outs \/ length outs = 1%nat)
  /\ Permutation (map part_of outs) (expected_parts k d tl enc m seqs)
  /\ outs <> [].
Proof using Hm Hat Hperm.
  destruct (dispatched_items k m seqs Hm) as (_ & Hne & Hsz).
  split; [|split; [|split; [|split]]].
  - eapply Permutation_Forall; [symmetry; exact Hperm|].
    unfold results_of. apply Forall_forall. intros o Hin.
    apply in_map_iff in Hin as (lc & <- & Hlc). cbn [fst snd]. split; [|discriminate].
    pose proof (dispatched_labels k m seqs Hat) as Hl.
    rewrite Forall_forall in Hl. exact (Hl lc Hlc).
  - rewrite (total_rows_perm _ _ (Permutation_map part_of Hperm)).
    apply total_rows_results. exact Hm.
  - destruct Hsz as [Hsz|Hone].
    + left. eapply Permutation_Forall; [symmetry; exact Hperm|].
      unfold results_of. apply Forall_forall. intros o Hin.
      apply in_map_iff in Hin as (lc & <- & Hlc). cbn [snd].
      rewrite Forall_forall in Hsz. exact (Hsz lc Hlc).
    + right. rewrite (Permutation_length Hperm). unfold results_of.
      rewrite length_map. exact Hone.
  - rewrite <- results_parts. apply Permutation_map. exact Hperm.
  - intros Hnil. pose proof Hperm as Hp. rewrite Hnil in Hp.
    apply Permutation_nil in Hp. unfold results_of in Hp.
    apply map_eq_nil in Hp. exact (Hne Hp).
Qed.

Lemma total_rows_nonneg (v : list part) : 0 <= total_rows v.
Proof. unfold total_rows. induction v; cbn [fold_right]; lia. Qed.

Lemma early_results_are_short (done : list (bytes * ndarray)) (o : bytes * ndarray)
    (todo : list (bytes * ndarray)) :
  outs = done ++ o :: todo -> todo <> [] ->
  total_rows (map part_of (done ++ [o])) <> n.
Proof using Hm Hat Hperm.
  intros Ho Hne. destruct outs_facts as (_ & Htot & Hsz & _).
  rewrite Ho in Htot, Hsz.
  replace (done ++ o :: todo) with ((done ++ [o]) ++ todo) in Htot, Hsz
    by (rewrite <- app_assoc; reflexivity).
  rewrite map_app, total_rows_app in Htot.
  destruct Hsz as [Hsz|Hone].
  - apply Forall_app in Hsz as [_ Hsz].
    destruct todo as [|t q]; [contradiction|].
    inversion Hsz as [|? ? Hpos Hrest]. cbn [map] in Htot.
    change (total_rows (part_of t :: map part_of q))
      with (Z.of_nat (rows (fst (part_of t))) + total_rows (map part_of q)) in Htot.
    pose proof (total_rows_nonneg (map part_of q)). cbn [part_of fst] in Htot. lia.
  - rewrite !length_app in Hone. cbn [length] in Hone.
    destruct todo; [contradiction|cbn [length] in Hone; lia].
Qed.

Lemma loop_reassembles (todo : list (bytes * ndarray)) :
  forall done s_cur tr_cur,
    outs = done ++ todo ->
    todo <> [] ->
    sink_inv s_cur ->
    forget k s_cur = s ->
    dict_get k (job_checksum s_cur) = Some n ->
    parts_of k s_cur = map part_of done ->
    exists logs,
      sink_loop (map (fun o => (Some (worker_output o), None)) todo) (s_cur, tr_cur)
      = (Ok tt, (s, tr_cur ++ map (Log INFO) logs ++ [answer])).
Proof.
  induction todo as [|o todo IH]; intros done s_cur tr_cur Ho Hne Hinv Hfor Hreg Hparts;
    [contradiction|].
  destruct outs_facts as (Hall & Htot & _ & Hexp & _).
  assert (Hin : In o outs) by (rewrite Ho; apply in_or_app; right; left; reflexivity).
  rewrite Forall_forall in Hall. destruct (Hall o Hin) as [Hk Hshape].
  destruct (proj1 (Forall_forall _ _) Hdec o Hin) as (info & Hload & Hmat).
  destruct o as [label X]. cbn [fst snd] in *.
  set (pid := snd (parse_chunk_id label)).
  assert (Hp : parse_chunk_id label = (k, pid)).
  { unfold pid. rewrite <- Hk. destruct (parse_chunk_id label); reflexivity. }
  set (s1 := store k X pid s_cur).
  set (c := received k s_cur + Z.of_nat (rows X)).
  assert (Hcollect : collect (worker_output (label, X)) (s_cur, tr_cur)
                     = (Ok tt, (s1, tr_cur ++ [Log INFO (CollectJob k c n)]))).
  { unfold worker_output, ndarray_frames. cbn [fst snd].
    rewrite (collect_decoded label _ _ _ info X k pid s_cur tr_cur Hload Hmat Hshape Hp).
    rewrite Hreg. reflexivity. }
  assert (Hinv1 : sink_inv s1) by (apply sink_inv_store; [congruence|exact Hinv]).
  assert (Hfor1 : forget k s1 = s) by (unfold s1; rewrite forget_store; exact Hfor).
  assert (Hreg1 : dict_get k (job_checksum s1) = Some n) by exact Hreg.
  assert (Hparts1 : dict_get k (pending_result s1) = Some (map part_of (done ++ [(label, X)]))).
  { unfold s1, store. cbn [pending_result]. rewrite dict_get_set_eq.
    rewrite Hparts, map_app. reflexivity. }
  assert (Hrec1 : received k s1 = total_rows (map part_of (done ++ [(label, X)]))).
  { rewrite (received_total k s1 Hinv1). unfold parts_of. rewrite Hparts1. reflexivity. }
  destruct Hinv1 as (Hnd1 & Hcnt1 & Hnone1 & Hregs1).
  assert (Hscan : forall t, scan_finished (pending_result s1) (s1, t)
                  = (Ok (filter (complete s1) (pending_result s1)), (s1, t))).
  { intros t. apply scan_finished_ok; [|exact Hregs1].
    eapply Forall_impl; [|exact Hcnt1]. intros kv Hkv. rewrite Hkv. discriminate. }
  assert (Hothers : forall j v, In (j, v) (pending_result s1) ->
                      complete s1 (j, v) = true -> j = k).
  { intros j v Hj Hc. destruct (String.eqb_spec j k) as [Heq|Hneq]; [exact Heq|].
    rewrite (complete_elsewhere k j v s1 s Hfor1 Hneq) in Hc.
    rewrite (proj1 (Forall_forall _ _) Hidle (j, v)) in Hc; [discriminate|].
    rewrite <- Hfor1. unfold forget. cbn [pending_result].
    apply In_dict_remove; assumption. }
  cbn [map sink_loop]. unfold sink_turn, on_receiver.
  rewrite !bind_assoc. rewrite (bind_ok _ _ _ _ _ Hcollect).
  unfold check_finished. mstep. rewrite (bind_ok _ _ _ _ _ (Hscan _)).
  destruct todo as [|o' todo'].
  - (* the last result: the job is complete *)
    assert (Hdone : done ++ [(label, X)] = outs) by (symmetry; exact Ho).
    rewrite Hdone in Hparts1, Hrec1.
    rewrite (filter_only (complete s1) k (map part_of outs) _ Hnd1 Hparts1);
      [|unfold complete; cbn [fst]; rewrite Hreg1, Hrec1, Htot; apply Z.eqb_refl
       |exact Hothers].
    destruct (reassembly k d tl enc m seqs (map part_of outs) Hm Hat Hexp)
      as (sorted & Hsorted & Hcat).
    assert (Hpr : dict_get k (pending_result s1) <> None) by congruence.
    assert (Hpc : dict_get k (pending_checksum s1) <> None).
    { rewrite Forall_forall in Hcnt1.
      specialize (Hcnt1 _ (dict_get_In _ _ _ Hparts1)). cbn [fst snd] in Hcnt1.
      rewrite Hcnt1. discriminate. }
    cbn [for_each]. rewrite bind_assoc.
    rewrite (bind_ok _ _ _ _ _
               (send_back_ok k (map part_of outs) s1 _ n sorted client req_id _
                  Hreg1 Hsorted Hsplit Hcat Hpr Hpc)).
    mstep. cbn [map sink_loop]. rewrite ret_run.
    exists [CollectJob k c n; SendBack n k].
    rewrite Hfor1. cbn [map app]. rewrite <- !app_assoc. reflexivity.
  - (* an earlier result: the job is not complete yet *)
    rewrite filter_none.
    2:{ intros [j v] Hj. destruct (complete s1 (j, v)) eqn:Hc; [|reflexivity].
        pose proof (Hothers j v Hj Hc) as ->.
        rewrite (dict_In_get k v _ Hnd1 Hj) in Hparts1. injection Hparts1 as ->.
        unfold complete in Hc. cbn [fst] in Hc. rewrite Hreg1, Hrec1 in Hc.
        apply Z.eqb_eq in Hc.
        exfalso. exact (early_results_are_short done (label, X) (o' :: todo') Ho
                          ltac:(discriminate) Hc). }
    cbn [for_each]. mstep.
    destruct (IH (done ++ [(label, X)]) s1 (tr_cur ++ [Log INFO (CollectJob k c n)]))
      as (logs & Hloop).
    + rewrite <- app_assoc. exact Ho.
    + discriminate.
    + repeat split; assumption.
    + exact Hfor1.
    + exact Hreg1.
    + unfold parts_of. rewrite Hparts1. reflexivity.
    + exists (CollectJob k c n :: logs).
      change (sink_loop (map (fun o => (Some (worker_output o), None)) (o' :: todo')))
        with (sink_loop (map (fun o => (Some (worker_output o), None)) (o' :: todo'))) in Hloop.
      cbn [map sink_loop] in Hloop |- *. rewrite Hloop.
      cbn [map app]. rewrite <- !app_assoc. reflexivity.
Qed.

End Reassembly.

(** The sink puts a batch together exactly once, whatever the order in
    which the results of its chunks arrive.  For a client address without
    [#] and [@] and a request id that [int()] reads: after the ventilator's
    [NEW_JOB] message for a batch of [n] items, and the results of the
    chunks of that batch (one array of one row per item for each chunk, as
    the ventilator cut them for a batch limit [m >= 1]) arriving one per
    turn in any order, the sink has logged, and then published once, as its
    last effect, the rows of the whole batch in the order of the client's
    items, addressed to the client with its request id; and its tables are
    what they were before the job. *)
Theorem results_in_any_order_are_put_together_once
    (client req_id : bytes) (r : Z) (d : string) (tl : list nat) (enc : json -> bytes)
    (m : Z) (seqs : list json) (outs : list (bytes * ndarray))
    (s : Sink) (tr : list effect) :
  let k := client +++ "#" +++ req_id in
  let n := Z.of_nat (length seqs) in
  0 < m ->
  contains "#" client = false ->
  contains "@" client = false ->
  py_int req_id = Some r ->
  sink_inv s ->
  unknown k s ->
  Forall (fun kv => complete s kv = false) (pending_result s) ->
  Permutation outs (results_of k d tl enc m seqs) ->
  Forall (fun o => decodable (snd o)) outs ->
  exists logs,
    sink_loop ((None, Some [client; new_job; fmt_d n; req_id])
               :: map (fun o => (Some (worker_output o), None)) outs) (s, tr)
    = (Ok tt,
       (s, tr ++ map (Log INFO) logs
              ++ [Send SinkSender
                    (ndarray_frames client (encoded d tl enc seqs) req_id)])).
Proof.
  intros k n Hm Hc Hca Hr Hinv Hunk Hidle Hperm Hdec.
  assert (Hq : contains "#" req_id = false /\ contains "@" req_id = false).
  { split.
    - destruct (contains "#" req_id) eqn:Hx; [|reflexivity].
      rewrite py_int_rejects_sentinels in Hr by (left; exact Hx). discriminate.
    - destruct (contains "@" req_id) eqn:Hx; [|reflexivity].
      rewrite py_int_rejects_sentinels in Hr by (right; exact Hx). discriminate. }
  destruct Hq as [Hq1 Hq2].
  assert (Hsplit : split "#" k = [client; req_id]).
  { unfold k. change (client +++ "#" +++ req_id) with (client +++ String "#" req_id).
    rewrite split_app by exact Hc. rewrite split_no_sep by exact Hq1. reflexivity. }
  assert (Hat : contains "@" k = false).
  { unfold k. clear - Hca Hq2. induction client as [|x q IH]; cbn in *.
    - exact Hq2.
    - apply orb_false_iff in Hca as [-> Hca]. cbn. apply IH. exact Hca. }
  set (s_reg := set_job_checksum (dict_set k n (job_checksum s)) s).
  assert (Hfront : on_frontend [client; new_job; fmt_d n; req_id] (s, tr)
                   = (Ok tt, (s_reg, tr ++ [Log INFO (JobRegister n k)]))).
  { unfold on_frontend. rewrite String.eqb_refl, py_int_fmt_d. mstep. reflexivity. }
  cbn [sink_loop]. unfold sink_turn. mstep. rewrite (bind_ok _ _ _ _ _ Hfront).
  destruct (outs_facts client req_id d tl enc m seqs outs Hm Hat Hperm)
    as (_ & _ & _ & _ & Hne).
  destruct (loop_reassembles client req_id d tl enc m seqs outs s Hm Hsplit Hat Hidle
              Hperm Hdec outs [] s_reg (tr ++ [Log INFO (JobRegister n k)]))
    as (logs & Hloop).
  - reflexivity.
  - exact Hne.
  - exact (sink_inv_on_frontend _ _ _ _ _ Hinv Hfront).
  - unfold s_reg, forget, set_job_checksum.
    cbn [pending_checksum pending_result job_checksum].
    rewrite dict_remove_set. apply forget_unknown_id. exact Hunk.
  - unfold s_reg. cbn [job_checksum set_job_checksum]. apply dict_get_set_eq.
  - unfold parts_of, s_reg, set_job_checksum. cbn [pending_result]. fold k.
    rewrite (proj1 (proj2 Hunk)). reflexivity.
  - exists (JobRegister n k :: logs). fold k n in Hloop. rewrite Hloop.
    cbn [map app]. rewrite <- !app_assoc. reflexivity.
Qed.

Lemma In_forget_all (j : bytes) (v : list part) (fin : list (bytes * list part)) :
  forall s, In (j, v) (pending_result (forget_all fin s)) ->
            In (j, v) (pending_result s) /\ ~ In j (keys fin).
Proof.
  induction fin as [|[k u] r IH]; intros s H; cbn [forget_all fold_left] in H.
  - split; [exact H|intros []].
  - apply IH in H as [H Hr]. unfold forget in H. cbn [pending_result fst] in H.
    unfold dict_remove in H. apply filter_In in H as [H Hk]. cbn [fst] in Hk.
    split; [exact H|]. intros [Heq|Hin]; [|exact (Hr Hin)].
    cbn [fst] in Heq. subst k. rewrite String.eqb_refl in Hk. discriminate.
Qed.

(** A complete job does not stay in the tables: after every worker output
    the sink handles without raising, no job that still has parts has
    received as many rows as were registered for it (the complete ones were
    published and popped by the check that follows the output). *)
Theorem no_complete_job_is_left_waiting
    (msg : list bytes) (s s' : Sink) (tr tr' : list effect) :
  sink_inv s ->
  on_receiver msg (s, tr) = (Ok tt, (s', tr')) ->
  Forall (fun kv => complete s' kv = false) (pending_result s').
Proof.
  intros Hinv H. unfold on_receiver in H.
  destruct (collect msg (s, tr)) as [[[]|e|] [s1 tr1]] eqn:Hc;
    [|rewrite (bind_err _ _ _ _ _ Hc) in H; discriminate
     |unfold bind in H; rewrite Hc in H; discriminate].
  rewrite (bind_ok _ _ _ _ _ Hc) in H.
  assert (Hinv1 : sink_inv s1).
  { destruct (collect_ok_inv _ _ _ _ Hc)
      as (ci & h & p & rest & ai & X & j & pid & e' & _ & _ & _ & _ & _ & Hj & Hw).
    injection Hw as -> _. apply sink_inv_store; [congruence|exact Hinv]. }
  unfold check_finished in H. revert H. mstep.
  destruct (scan_finished (pending_result s1) (s1, tr1)) as [[fin|e|] w1] eqn:Hscan;
    [|rewrite (bind_err _ _ _ _ _ Hscan); discriminate
     |unfold bind; rewrite Hscan; discriminate].
  rewrite (bind_ok _ _ _ _ _ Hscan). intros H.
  destruct Hinv1 as (Hnd & Hcnt & _ & _).
  destruct (scan_finished_pure s1 tr1 _ _ _
              ltac:(eapply Forall_impl; [|exact Hcnt]; intros kv Hkv; rewrite Hkv; discriminate)
              Hscan) as (-> & -> & _).
  destruct (deliver_all_inv _ _ _ _ _ (NoDup_keys_filter _ _ Hnd) H) as (-> & _).
  apply Forall_forall. intros [j v] Hin.
  apply In_forget_all in Hin as [Hin Hnot].
  assert (Hfin : complete s1 (j, v) = false).
  { destruct (complete s1 (j, v)) eqn:Hcomp; [|reflexivity].
    exfalso. apply Hnot. unfold keys. apply in_map_iff. exists (j, v).
    split; [reflexivity|]. apply filter_In. split; assumption. }
  set (fin := filter (complete s1) (pending_result s1)) in *.
  destruct (forget_all_other j fin s1 Hnot) as (_ & Hpc & Hjc).
  rewrite <- Hfin. unfold complete, received. cbn [fst]. rewrite Hpc, Hjc. reflexivity.
Qed.

Lemma registered_trace (f : Sink -> Sink) :
  (forall s, job_checksum (f s) = job_checksum s) ->
  forall s tr, registered_with_hash (s, tr) -> registered_with_hash (f s, tr).
Proof. intros Hf s tr H. unfold registered_with_hash in *. cbn [fst] in *. rewrite Hf. exact H. Qed.

Lemma registered_emit (e : effect) :
  forall (s : Sink) tr, registered_with_hash (s, tr) -> registered_with_hash (s, tr ++ [e]).
Proof. intros s tr H. exact H. Qed.

Lemma keeps_registered_read_pending_checksum (k : bytes) :
  keeps registered_with_hash (read_pending_checksum k).
Proof.
  unfold read_pending_checksum. keeps_steps.
  destruct (dict_get k _); keeps_steps.
  apply keeps_modify. apply registered_trace. reflexivity.
Qed.

Lemma keeps_registered_read_pending_result (k : bytes) :
  keeps registered_with_hash (read_pending_result k).
Proof.
  unfold read_pending_result. keeps_steps.
  destruct (dict_get k _); keeps_steps.
  apply keeps_modify. apply registered_trace. reflexivity.
Qed.

Lemma keeps_registered_collect (msg : list bytes) :
  keeps registered_with_hash (collect msg).
Proof.
  unfold collect. keeps_steps.
  destruct (parse_chunk_id _) as [job_id partial_id]. keeps_steps.
  - apply keeps_registered_read_pending_result.
  - apply keeps_modify. apply registered_trace. reflexivity.
  - apply keeps_registered_read_pending_checksum.
  - apply keeps_modify. apply registered_trace. reflexivity.
  - apply keeps_registered_read_pending_checksum.
  - unfold read_job_checksum. keeps_steps.
  - apply keeps_emit. apply registered_emit.
Qed.

Lemma keeps_registered_scan (items : list (bytes * list part)) :
  keeps registered_with_hash (scan_finished items).
Proof.
  induction items as [|[k v] r IH]; cbn [scan_finished]; keeps_steps.
  - apply keeps_registered_read_pending_checksum.
  - unfold read_job_checksum. keeps_steps.
  - exact IH.
Qed.

Lemma keeps_registered_send_back (job : bytes * list part) :
  keeps registered_with_hash (send_back job).
Proof.
  destruct job as [k v]. unfold send_back, read_job_checksum. keeps_steps.
  - apply keeps_emit. apply registered_emit.
  - destruct (split "#" k) as [|ca [|rid [|x q]]]; keeps_steps.
    + unfold send_ndarray. apply keeps_emit. apply registered_emit.
    + unfold pop_pending_result. keeps_steps.
      destruct (dict_pop k _) as [[u d]|]; keeps_steps.
      apply keeps_modify. apply registered_trace. reflexivity.
    + unfold pop_pending_checksum. keeps_steps.
      destruct (dict_pop k _) as [[u d]|]; keeps_steps.
      apply keeps_modify. apply registered_trace. reflexivity.
    + intros [s tr] r w' HI H. unfold pop_job_checksum in H. revert H. mstep.
      destruct (dict_pop k (job_checksum s)) as [[u d]|] eqn:Hpop; mstep;
        intros H; injection H as _ <-; [|exact HI].
      apply dict_pop_some in Hpop as [-> _].
      unfold registered_with_hash in *. cbn [fst job_checksum set_job_checksum] in *.
      apply Forall_dict_remove. exact HI.
Qed.

Lemma keeps_registered_on_frontend (msg : list bytes) :
  keeps registered_with_hash (on_frontend msg).
Proof.
  unfold on_frontend.
  destruct msg as [|a [|b [|c [|d [|x q]]]]]; keeps_steps;
    try (apply keeps_emit; apply registered_emit).
  apply keeps_modify. intros s tr H.
  unfold registered_with_hash in *. cbn [fst job_checksum set_job_checksum] in *.
  apply Forall_dict_set; [|exact H]. cbn [fst].
  change (a +++ "#" +++ d) with (a +++ String "#" d). apply contains_sep_app.
Qed.

Lemma keeps_registered_sink_loop (polls : list (option (list bytes) * option (list bytes))) :
  keeps registered_with_hash (sink_loop polls).
Proof.
  induction polls as [|[rx fx] rest IH]; cbn [sink_loop]; [apply keeps_ret|].
  apply keeps_bind; [|intros _; exact IH].
  unfold sink_turn. apply keeps_bind; [|intros _].
  - destruct rx; [|apply keeps_ret]. unfold on_receiver, check_finished.
    keeps_steps; [apply keeps_registered_collect|apply keeps_registered_scan|].
    apply keeps_for_each. intros job _. apply keeps_registered_send_back.
  - destruct fx; [apply keeps_registered_on_frontend|apply keeps_ret].
Qed.

Lemma sink_loop_app (a b : list (option (list bytes) * option (list bytes)))
    (w : Sink * list effect) :
  sink_loop (a ++ b) w = bind (sink_loop a) (fun _ => sink_loop b) w.
Proof.
  revert w. induction a as [|[rx fx] r IH]; intros w; cbn [app sink_loop].
  - reflexivity.
  - rewrite bind_assoc. unfold bind at 1. symmetry. unfold bind at 1.
    destruct (sink_turn rx fx w) as [[[]|e|] w1];
      [symmetry; apply IH|reflexivity|reflexivity].
Qed.

(** As the worker is written, its first output ends the sink.  The
    generator of [input_fn_builder] labels every item with the client id
    ['test'], and a job id the sink registers always holds a [#]; so when
    the output of a worker arrives, whatever the sink handled before, the
    job ['test'] is not registered, the progress log line raises
    [KeyError], and the loop of the sink is over. *)
Theorem worker_output_ends_the_sink
    (graph : features -> ndarray) (max_seq_len : nat) (info : json)
    (before after : list (option (list bytes) * option (list bytes)))
    (from_ventilator : option (list bytes)) (s : Sink) (tr : list effect) :
  let r := predict graph (gen max_seq_len) in
  jsonapi_loads (jsonapi_dumps (md (encodes r))) = Some info ->
  materialize info (buf (encodes r)) = Ok (encodes r) ->
  shape (encodes r) <> [] ->
  sink_loop before (sink_init, []) = (Ok tt, (s, tr)) ->
  sink_run
    (before
       ++ (Some (ndarray_frames (client_id r) (encodes r) default_req_id), from_ventilator)
       :: after)
    (sink_init, [])
  = (Raise KeyError, (store "test" (encodes r) (VInt 0) s, tr)).
Proof.
  intros r Hload Hmat Hshape Hbefore.
  assert (Hnone : dict_get "test" (job_checksum s) = None).
  { pose proof (keeps_registered_sink_loop before (sink_init, []) _ _
                  ltac:(constructor) Hbefore) as Hreg.
    unfold registered_with_hash in Hreg. cbn [fst] in Hreg.
    destruct (dict_get "test" (job_checksum s)) as [n|] eqn:Hg; [|reflexivity].
    apply dict_get_In in Hg. rewrite Forall_forall in Hreg.
    specialize (Hreg _ Hg). discriminate Hreg. }
  unfold sink_run, try_except. rewrite sink_loop_app, (bind_ok _ _ _ _ _ Hbefore).
  cbn [sink_loop]. unfold sink_turn. rewrite !bind_assoc.
  unfold ndarray_frames.
  rewrite (bind_err _ _ _ _ _
             (unregistered_partial_raises "test" _ _ [default_req_id] info (encodes r)
                "test" (VInt 0) s tr Hload Hmat Hshape eq_refl Hnone)).
  reflexivity.
Qed.

End SinkRuns.

(* ================================================================= *)
(** ** Loading the module and starting the workers *)

Lemma contains_fmt_d (x : ascii) (n : Z) :
  is_digit x = false -> Ascii.eqb "-" x = false -> contains x (fmt_d n) = false.
Proof.
  intros Hd Hm. unfold fmt_d. destruct (n <? 0).
  - cbn [contains]. rewrite Hm. cbn [orb]. rewrite contains_fmt_digits by exact Hd.
    reflexivity.
  - rewrite contains_fmt_digits by exact Hd. reflexivity.
Qed.

(** The import-time check of the TensorFlow version compares the first two
    fields of the version one by one: a version [major.minor] or
    [major.minor.rest] passes exactly when [major >= 1] and
    [minor >= 10]; otherwise the module fails to load with the assertion
    that TensorFlow 1.10 is required.  So the versions 2.0 to 2.9 are
    refused. *)
Theorem tf_version_is_checked_field_by_field (major minor : Z) (rest : string) :
  let verdict :=
    if (major >=? 1) && (minor >=? 10) then Imported
    else AssertionError "Tensorflow >=1.10 is required!" in
  check_tf_version (fmt_d major +++ "." +++ fmt_d minor) = verdict
  /\ check_tf_version (fmt_d major +++ "." +++ fmt_d minor +++ "." +++ rest) = verdict.
Proof.
  assert (Hdot : forall n, contains "." (fmt_d n) = false)
    by (intros n; apply contains_fmt_d; reflexivity).
  assert (H : forall tail,
            check_tf_version (fmt_d major +++ String "." (fmt_d minor +++ tail))
            = match split "." (fmt_d minor +++ tail) with
              | v1 :: _ =>
                  if major >=? 1
                  then match py_int v1 with
                       | Some mi => if mi >=? 10 then Imported
                                    else AssertionError "Tensorflow >=1.10 is required!"
                       | None => ImportRaises ValueError
                       end
                  else AssertionError "Tensorflow >=1.10 is required!"
              | [] => ImportRaises IndexError
              end).
  { intros tail. unfold check_tf_version. rewrite split_app by apply Hdot.
    cbn [nth_error]. rewrite py_int_fmt_d.
    pose proof (split_not_nil "." (fmt_d minor +++ tail)) as Hne.
    destruct (split "." (fmt_d minor +++ tail)); [contradiction|].
    destruct (major >=? 1); reflexivity. }
  intros verdict. split.
  - rewrite <- (append_empty (fmt_d minor)) at 1.
    change (fmt_d major +++ "." +++ fmt_d minor +++ "")
      with (fmt_d major +++ String "." (fmt_d minor +++ "")).
    rewrite H, append_empty, split_no_sep by apply Hdot.
    rewrite py_int_fmt_d. unfold verdict.
    destruct (major >=? 1), (minor >=? 10); reflexivity.
  - change (fmt_d major +++ "." +++ fmt_d minor +++ "." +++ rest)
      with (fmt_d major +++ String "." (fmt_d minor +++ String "." rest)).
    rewrite H, split_app by apply Hdot.
    rewrite py_int_fmt_d. unfold verdict.
    destruct (major >=? 1), (minor >=? 10); reflexivity.
Qed.

Lemma py_repeat_nil {A : Type} (n : Z) : py_repeat (@nil A) n = [].
Proof. unfold py_repeat. induction (Z.to_nat n); cbn; [reflexivity|assumption]. Qed.

Lemma py_slice_prefix {A : Type} (l : list A) (n : Z) :
  0 <= n -> py_slice l 0 n = firstn (Z.to_nat n) l.
Proof.
  intros Hn. unfold py_slice, clamp_index. cbn [Z.ltb Z.compare].
  assert (Hlt : (n <? 0) = false) by (apply Z.ltb_ge; exact Hn). rewrite Hlt.
  rewrite (Z.min_l 0) by lia. cbn [Z.to_nat skipn]. rewrite Z.sub_0_r.
  destruct (Z.le_ge_cases n (Z.of_nat (length l))) as [H|H].
  - rewrite Z.min_l by exact H. reflexivity.
  - rewrite Z.min_r by lia. rewrite Nat2Z.id.
    rewrite (firstn_all2 (n := length l)) by lia.
    rewrite (firstn_all2 (n := Z.to_nat n)) by lia. reflexivity.
Qed.

Lemma length_concat_repeat {A : Type} (l : list A) (n : nat) :
  length (concat (repeat l n)) = (n * length l)%nat.
Proof. induction n as [|n IH]; cbn; [reflexivity|]. rewrite length_app, IH. reflexivity. Qed.

Lemma nth_concat_repeat {A : Type} (d : A) (l : list A) (n : nat) :
  forall i, (i < n * length l)%nat ->
    nth i (concat (repeat l n)) d = nth (i mod length l) l d.
Proof.
  induction n as [|n IH]; intros i Hi; [cbn in Hi; lia|].
  cbn [repeat concat].
  destruct (Nat.lt_ge_cases i (length l)) as [Hlt|Hge].
  - rewrite app_nth1 by exact Hlt. rewrite Nat.mod_small by exact Hlt. reflexivity.
  - rewrite app_nth2 by exact Hge. rewrite IH by (cbn in Hi; lia).
    f_equal. replace i with ((i - length l) + 1 * length l)%nat at 2 by lia.
    rewrite Nat.Div0.mod_add. reflexivity.
Qed.

Lemma enumerate_from_nth {A : Type} (d : A) (l : list A) :
  forall i, enumerate_from i l
            = map (fun j => (i + Z.of_nat j, nth j l d)) (seq 0 (length l)).
Proof.
  induction l as [|a r IH]; intros i; [reflexivity|].
  cbn [enumerate_from length seq map nth]. f_equal; [f_equal; lia|].
  rewrite IH, <- seq_shift, map_map. apply map_ext. intros j.
  cbn [nth]. f_equal. lia.
Qed.

Lemma nth_map_seq {A : Type} (f : nat -> A) (d : A) (n i : nat) :
  (i < n)%nat -> nth i (map f (seq 0 n)) d = f i.
Proof.
  intros Hi.
  rewrite (nth_indep (map f (seq 0 n)) d (f 0%nat))
    by (rewrite length_map, length_seq; exact Hi).
  rewrite (map_nth f (seq 0 n) 0%nat i). rewrite seq_nth by exact Hi. reflexivity.
Qed.

Lemma device_map_shared (avail_gpu : list Z) (num_worker : Z) :
  0 <= num_worker -> avail_gpu <> [] ->
  py_slice (py_repeat avail_gpu num_worker) 0 num_worker
  = shared avail_gpu (Z.to_nat num_worker).
Proof.
  intros Hn Hne. rewrite py_slice_prefix by exact Hn. unfold py_repeat, shared.
  set (n := Z.to_nat num_worker).
  assert (Hlen : (1 <= length avail_gpu)%nat) by (destruct avail_gpu; [contradiction|cbn; lia]).
  apply (nth_ext _ _ 0 0).
  - rewrite length_firstn, length_concat_repeat, length_map, length_seq. nia.
  - intros i Hi. rewrite length_firstn, length_concat_repeat in Hi.
    assert (Hin : (i < n)%nat) by lia.
    rewrite nth_firstn. destruct (Nat.ltb_spec i n) as [_|]; [|lia].
    rewrite nth_concat_repeat by nia.
    rewrite nth_map_seq by exact Hin. reflexivity.
Qed.

(** When the server does not run with [-cpu] and [GPUtil] reports free
    GPUs, [num_worker] workers are started, numbered from 0, and the free
    GPUs are given to them in turn: worker [i] runs on the GPU at place
    [i mod len(avail_gpu)] of the list of free GPUs, and [run_on_gpu] is
    set. *)
Theorem free_gpus_are_given_to_the_workers_in_turn
    (num_worker : Z) (all_gpus : list Z) (getAvailable : Z -> list Z) :
  let avail_gpu := getAvailable (Z.min (Z.of_nat (length all_gpus)) num_worker) in
  0 <= num_worker ->
  avail_gpu <> [] ->
  exists b logs,
    start_workers false num_worker (Gpus all_gpus getAvailable) = Started b
    /\ st_run_on_gpu b = true
    /\ st_device_map b = shared avail_gpu (Z.to_nat num_worker)
    /\ st_events b
       = map StartLog logs
         ++ map (fun i => StartWorker (Z.of_nat i) (nth (i mod length avail_gpu) avail_gpu 0))
                (seq 0 (Z.to_nat num_worker)).
Proof.
  intros avail_gpu Hn Hne. unfold start_workers. fold avail_gpu.
  rewrite device_map_shared by assumption.
  eexists. eexists (_ ++ [_]). split; [reflexivity|]. cbn [st_run_on_gpu st_device_map st_events].
  split; [reflexivity|]. split; [reflexivity|].
  rewrite map_app, <- app_assoc. f_equal. cbn [map app]. f_equal.
  unfold enumerate. rewrite (enumerate_from_nth 0).
  unfold shared at 1 2. rewrite length_map, length_seq, map_map.
  apply map_ext_in. intros i Hi. apply in_seq in Hi. cbn [fst snd]. f_equal.
  unfold shared. rewrite nth_map_seq by lia. reflexivity.
Qed.

(** When the server does not run with [-cpu] and [GPUtil] finds nvidia-smi
    but reports no free GPU, no worker is started at all, whatever
    [num_worker] is: the device map is empty.  The server does not fall
    back to the CPU, and [run_on_gpu] is set. *)
Theorem no_free_gpu_starts_no_worker
    (num_worker : Z) (all_gpus : list Z) (getAvailable : Z -> list Z) :
  getAvailable (Z.min (Z.of_nat (length all_gpus)) num_worker) = [] ->
  exists b,
    start_workers false num_worker (Gpus all_gpus getAvailable) = Started b
    /\ st_run_on_gpu b = true
    /\ st_device_map b = []
    /\ forall worker_id device_id, ~ In (StartWorker worker_id device_id) (st_events b).
Proof.
  intros H. unfold start_workers. rewrite H, py_repeat_nil.
  assert (Hs : py_slice (@nil Z) 0 num_worker = []).
  { unfold py_slice. cbn [length skipn]. apply firstn_nil. }
  rewrite Hs. eexists. split; [reflexivity|]. cbn [st_run_on_gpu st_device_map st_events].
  split; [reflexivity|]. split; [reflexivity|].
  intros w dv Hin. cbn [enumerate enumerate_from map] in Hin. rewrite app_nil_r in Hin.
  apply in_app_or in Hin as [Hin|[Hin|[]]]; [|discriminate].
  apply in_map_iff in Hin as (x & Hx & _). discriminate.
Qed.

(* ================================================================= *)
(** ** The theorems at concrete inputs *)

Lemma complete_jobs_are_delivered_witness :
  sink_inv ex_sink
  /\ exists X,
       shape0 X = Ok 3
       /\ buf X = "aaaabbbbccccddddeeeeffffgggghhhh0000111122223333"
       /\ In (Send SinkSender
                ["c"; @jsonapi_dumps Mini.extern (md X); buf X; "7"])
             (snd (snd (on_receiver (E := Mini.extern) (ex_output "c#7@0" ex_rows)
                          (ex_sink, []))))
       /\ unknown "c#7"
            (fst (snd (on_receiver (E := Mini.extern) (ex_output "c#7@0" ex_rows)
                         (ex_sink, [])))).
Proof.
  assert (Hinv : sink_inv ex_sink).
  { unfold sink_inv, ex_sink. cbn [pending_result pending_checksum job_checksum].
    split; [|split; [|split]].
    - constructor; [intros []|constructor].
    - constructor; [reflexivity|constructor].
    - intros k. cbn [dict_get].
      destruct (String.eqb "c#7" k); [discriminate|reflexivity].
    - constructor; [discriminate|constructor]. }
  split; [exact Hinv|].
  pose (w1 := snd (collect (E := Mini.extern) (ex_output "c#7@0" ex_rows) (ex_sink, []))).
  assert (Hready : Forall (ready (E := Mini.extern) (fst w1)) (pending_result (fst w1))).
  { constructor; [|constructor]. intros _.
    exists "c", "7". eexists. eexists. repeat split. }
  destruct (complete_jobs_are_delivered_in_input_order (E := Mini.extern)
              (ex_output "c#7@0" ex_rows) ex_sink (fst w1) [] (snd w1)
              Hinv eq_refl Hready) as (s' & new & Hrun & Hjobs).
  destruct (Hjobs "c#7" [(ex_row, VBytes "2"); (ex_rows, VBytes "0")] eq_refl)
    as (expected & Hexp & Hdel).
  injection Hexp as <-.
  change (received "c#7" (fst w1) =? 3) with true in Hdel. cbv iota in Hdel.
  destruct Hdel as (ca & rid & sorted & X & Hsplit & Hsorted & _ & _ & HX & Hshape
                    & Hsent & Hunknown & _).
  injection Hsplit as <- <-. injection Hsorted as <-.
  injection HX as <-.
  assert (Hw2 : snd (on_receiver (E := Mini.extern) (ex_output "c#7@0" ex_rows)
                       (ex_sink, []))
                = (s', snd w1 ++ new)).
  { change (on_receiver (E := Mini.extern) (ex_output "c#7@0" ex_rows) (ex_sink, []))
      with (check_finished (E := Mini.extern) (fst w1, snd w1)).
    rewrite Hrun. reflexivity. }
  eexists. split; [exact Hshape|]. split; [reflexivity|].
  rewrite Hw2. cbn [fst snd].
  split; [|exact Hunknown].
  apply in_or_app. right. exact Hsent.
Defined.


Lemma partial_before_registration_witness :
  on_receiver (E := Mini.extern) (ex_output "c#1" ex_row) (sink_init, [])
  = (Raise KeyError,
     ({| pending_checksum := [("c#1", 1)];
         pending_result := [("c#1", [(ex_row, VInt 0)])];
         job_checksum := [] |}, []))
  /\ sink_run (E := Mini.extern)
       [(Some (ex_output "c#1" ex_row), Some ["c"; "REGISTER"; "1"; "1"])]
       (sink_init, [])
     = (Raise KeyError,
        ({| pending_checksum := [("c#1", 1)];
            pending_result := [("c#1", [(ex_row, VInt 0)])];
            job_checksum := [] |}, [])).
Proof.
  apply (partial_before_registration_kills_the_sink (E := Mini.extern)
           "c#1" _ _ [EmptyString] (md ex_row) ex_row "c#1" (VInt 0) sink_init []
           (Some ["c"; "REGISTER"; "1"; "1"]) []);
    [reflexivity|reflexivity|discriminate|reflexivity|reflexivity].
Defined.

Lemma late_partial_after_delivery_witness :
  send_back (E := Mini.extern) ("c#1", [(ex_row, VInt 0)]) (ex_sink_full, [])
  = (Ok tt,
     (sink_init,
      [Log INFO (SendBack 1 "c#1");
       Send SinkSender (ndarray_frames (E := Mini.extern) "c" ex_row "1")]))
  /\ unknown "c#1" sink_init
  /\ on_receiver (E := Mini.extern) (ex_output "c#1" ex_row)
       (sink_init,
        [Log INFO (SendBack 1 "c#1");
         Send SinkSender (ndarray_frames (E := Mini.extern) "c" ex_row "1")])
     = (Raise KeyError,
        ({| pending_checksum := [("c#1", 1)];
            pending_result := [("c#1", [(ex_row, VInt 0)])];
            job_checksum := [] |},
         [Log INFO (SendBack 1 "c#1");
          Send SinkSender (ndarray_frames (E := Mini.extern) "c" ex_row "1")])).
Proof.
  assert (Hsb : send_back (E := Mini.extern) ("c#1", [(ex_row, VInt 0)]) (ex_sink_full, [])
                = (Ok tt,
                   (sink_init,
                    [Log INFO (SendBack 1 "c#1");
                     Send SinkSender (ndarray_frames (E := Mini.extern) "c" ex_row "1")])))
    by reflexivity.
  split; [exact Hsb|].
  destruct (late_partial_after_delivery_raises (E := Mini.extern)
              "c#1" [(ex_row, VInt 0)] ex_sink_full sink_init [] _
              "c#1" (@jsonapi_dumps Mini.extern (md ex_row)) (buf ex_row) [EmptyString]
              (md ex_row) ex_row (VInt 0) Hsb)
    as (Hu & Hraise & _).
  - reflexivity.
  - reflexivity.
  - discriminate.
  - reflexivity.
  - split; [exact Hu|exact Hraise].
Defined.


Lemma wrong_frame_count_witness :
  length ["c"; ex_payload] <> 3%nat
  /\ serve (E := Mini.extern) 3 ex_srv "12:00" ["c"; ex_payload] (ex_vent, [])
     = (Ok tt, (ex_vent, [Log ERROR (WronglyFormatted 2);
                          Log ERROR (Fields ["c"; ex_payload])]))
  /\ ventilator_run (E := Mini.extern) 3 ex_srv
       [("12:00", ["c"; ex_payload]); ("12:01", ["c"; ex_payload; "7"])] (ex_vent, [])
     = (Ok tt,
        ({| num_req := 1 |},
         [Log ERROR (WronglyFormatted 2);
          Log ERROR (Fields ["c"; ex_payload]);
          Log INFO (NewEncodeRequest 7 "c");
          Send VentSink ["c"; "REGISTER"; "3"; "7"];
          chunk_send (E := Mini.extern) "c#7" (0, [JStr "first"; JStr "second"]);
          chunk_send (E := Mini.extern) "c#7" (2, [JStr "third"])])).
Proof.
  split; [discriminate|].
  destruct (wrong_frame_count_is_logged_and_dropped (E := Mini.extern)
              3 ex_srv "12:00" ["c"; ex_payload] ex_vent []
              [("12:01", ["c"; ex_payload; "7"])]) as [H1 H2]; [discriminate|].
  split; [exact H1|]. exact (eq_trans H2 eq_refl).
Defined.

Lemma zero_batch_limit_witness :
  serve (E := Mini.extern) 1000
    {| max_batch_size := 0; num_processes := 2; addr_backend := "ipc://backend";
       addr_sink := "ipc://sink"; addr_front2sink := "ipc://pair";
       run_on_gpu := false; args_dict := [] |}
    "12:00" ["c"; ex_payload; "7"] (ex_vent, [])
  = (NoFuel,
     ({| num_req := 1 |},
      [Log INFO (NewEncodeRequest 7 "c");
       Send VentSink ["c"; "REGISTER"; "3"; "7"]])).
Proof.
  apply (zero_batch_limit_never_ends (E := Mini.extern) 1000 _ "12:00" "c" ex_payload "7"
           7 ex_batch ex_vent []);
    [reflexivity|discriminate|discriminate|reflexivity|reflexivity].
Defined.

Lemma unparseable_payload_witness :
  serve (E := Mini.extern) 3 ex_srv "12:00" ["c"; "[first"; "7"] (ex_vent, [])
  = (Ok tt,
     ({| num_req := 1 |},
      [Log INFO (NewEncodeRequest 7 "c");
       Log ERROR (WronglyFormatted 3);
       Log ERROR (Fields ["c"; "[first"; "7"])])).
Proof.
  apply (unparseable_payload_is_counted_and_dropped (E := Mini.extern)
           3 ex_srv "12:00" "c" "[first" "7" 7 ex_vent []);
    [discriminate|reflexivity|reflexivity].
Defined.

Lemma sink_inv_loop_witness :
  sink_inv
    (fst (snd (sink_loop (E := Mini.extern)
                 [(None, Some ["c"; "REGISTER"; "3"; "7"]);
                  (Some (ex_output "c#7@2" ex_row), None)]
                 (sink_init, [])))).
Proof.
  apply (sink_inv_loop (E := Mini.extern)
           [(None, Some ["c"; "REGISTER"; "3"; "7"]);
            (Some (ex_output "c#7@2" ex_row), None)]
           sink_init []
           _ (snd (snd (sink_loop (E := Mini.extern)
                          [(None, Some ["c"; "REGISTER"; "3"; "7"]);
                           (Some (ex_output "c#7@2" ex_row), None)]
                          (sink_init, []))))
           sink_inv_init).
  reflexivity.
Defined.


Lemma sentinel_in_request_id_witness :
  contains "#" "7#1" = true
  /\ serve (E := Mini.extern) 3 ex_srv "12:00" ["c"; ex_payload; "7#1"] (ex_vent, [])
     = (Ok tt, (ex_vent, [Log ERROR (WronglyFormatted 3);
                          Log ERROR (Fields ["c"; ex_payload; "7#1"])])).
Proof.
  split; [reflexivity|].
  apply (sentinel_in_request_id_is_dropped (E := Mini.extern)
           3 ex_srv "12:00" "c" ex_payload "7#1" ex_vent []).
  left. reflexivity.
Defined.

(** A client address that holds [#] or [@] is not refused: the job is
    registered at the sink and its chunk is pushed to the workers. *)
Lemma sentinel_in_client_address_is_dispatched :
  contains "#" "a#b" = true
  /\ serve (E := Mini.extern) 3 ex_srv "12:00" ["a#b"; ex_payload; "7"] (ex_vent, [])
     = (Ok tt,
        ({| num_req := 1 |},
         [Log INFO (NewEncodeRequest 7 "a#b");
          Send VentSink ["a#b"; "REGISTER"; "3"; "7"];
          chunk_send (E := Mini.extern) "a#b#7" (0, [JStr "first"; JStr "second"]);
          chunk_send (E := Mini.extern) "a#b#7" (2, [JStr "third"])]))
  /\ contains "@" "a@b" = true
  /\ serve (E := Mini.extern) 3 ex_srv "12:00" ["a@b"; ex_payload; "7"] (ex_vent, [])
     = (Ok tt,
        ({| num_req := 1 |},
         [Log INFO (NewEncodeRequest 7 "a@b");
          Send VentSink ["a@b"; "REGISTER"; "3"; "7"];
          chunk_send (E := Mini.extern) "a@b#7" (0, [JStr "first"; JStr "second"]);
          chunk_send (E := Mini.extern) "a@b#7" (2, [JStr "third"])])).
Proof. repeat split. Qed.

(** The message of a worker has four frames, not three. *)
Lemma worker_output_has_four_frames :
  worker_step (E := Mini.extern) {| client_id := "c#7@0"; encodes := ex_rows |} (tt, [])
  = (Ok tt,
     (tt, [Send WorkerSink (ex_output "c#7@0" ex_rows);
           Log INFO (JobDone [2%nat; 4%nat] "c#7@0")]))
  /\ length (ex_output "c#7@0" ex_rows) = 4%nat
  /\ length (ex_output "c#7@0" ex_rows) <> 3%nat
  /\ nth 3 (ex_output "c#7@0" ex_rows) "none" = EmptyString.
Proof. repeat split. discriminate. Qed.

Lemma unsized_payload_witness :
  ventilator_run (E := Mini.extern) 3 ex_srv
    [("12:00", ["c"; "5"; "7"]); ("12:01", ["c"; ex_payload; "8"])] (ex_vent, [])
  = (Raise TypeError, ({| num_req := 1 |}, [Log INFO (NewEncodeRequest 7 "c")])).
Proof.
  apply (unsized_payload_stops_the_ventilator (E := Mini.extern)
           3 ex_srv "12:00" "c" "5" "7" 7 (JInt 5) ex_vent []
           [("12:01", ["c"; ex_payload; "8"])]);
    [discriminate|reflexivity|reflexivity|reflexivity].
Defined.


Lemma request_counter_witness :
  num_req
    (fst (snd (ventilator_run (E := Mini.extern) 3 ex_srv
                 [("12:00", ["c"; "SHOW_CONFIG"; "1"]);
                  ("12:01", ["c"; ex_payload; "2"]);
                  ("12:02", ["c"; "[first"; "3"]);
                  ("12:03", ["c"; ex_payload; "x"]);
                  ("12:04", ["c"; ex_payload])]
                 (ex_vent, []))))
  = 0 + 2.
Proof.
  apply (request_counter_counts_numbered_encode_requests (E := Mini.extern) 3 ex_srv
           [("12:00", ["c"; "SHOW_CONFIG"; "1"]);
            ("12:01", ["c"; ex_payload; "2"]);
            ("12:02", ["c"; "[first"; "3"]);
            ("12:03", ["c"; ex_payload; "x"]);
            ("12:04", ["c"; ex_payload])]
           ex_vent [] _
           (snd (snd (ventilator_run (E := Mini.extern) 3 ex_srv
                        [("12:00", ["c"; "SHOW_CONFIG"; "1"]);
                         ("12:01", ["c"; ex_payload; "2"]);
                         ("12:02", ["c"; "[first"; "3"]);
                         ("12:03", ["c"; ex_payload; "x"]);
                         ("12:04", ["c"; ex_payload])]
                        (ex_vent, []))))).
  reflexivity.
Defined.

Lemma sink_accepts_witness :
  exists new,
    snd (snd (ventilator_run (E := Mini.extern) 3 ex_srv
                [("12:00", ["c"; "SHOW_CONFIG"; "1"]);
                 ("12:01", ["c"; ex_payload; "2"]);
                 ("12:02", ["c"; "5"; "3"])]
                (ex_vent, [])))
    = [] ++ new
    /\ forall frames, In (Send VentSink frames) new -> accepted frames.
Proof.
  apply (sink_accepts_what_the_ventilator_sends (E := Mini.extern) 3 ex_srv
           [("12:00", ["c"; "SHOW_CONFIG"; "1"]);
            ("12:01", ["c"; ex_payload; "2"]);
            ("12:02", ["c"; "5"; "3"])]
           ex_vent [] (Raise TypeError) {| num_req := 2 |}).
  reflexivity.
Defined.

Lemma chunk_labels_witness :
  exists new,
    snd (snd (serve (E := Mini.extern) 3 ex_srv "12:00" ["c"; ex_payload; "7"]
                (ex_vent, [])))
    = [] ++ new
    /\ forall frames, In (Send VentBackend frames) new ->
         exists label payload partial_id off,
           frames = [label; payload]
           /\ parse_chunk_id label = ("c" +++ "#" +++ "7", partial_id)
           /\ int_of partial_id = Some off.
Proof.
  apply (chunk_labels_name_their_job (E := Mini.extern) 3 ex_srv "12:00" "c" ex_payload "7"
           ex_vent [] (Ok tt) {| num_req := 1 |}); reflexivity.
Defined.


Lemma undeliverable_job_witness :
  sink_run (E := Mini.extern)
    [(Some (ex_output "a#b#7" ex_row), None);
     (None, Some ["c"; "REGISTER"; "1"; "1"])]
    (ex_sink_hash, [])
  = (Raise ValueError,
     ({| pending_checksum := [("a#b#7", 1)];
         pending_result := [("a#b#7", [(ex_row, VInt 0)])];
         job_checksum := [("a#b#7", 1)] |},
      [Log INFO (CollectJob "a#b#7" 1 1)] ++ [Log INFO (SendBack 1 "a#b#7")])).
Proof.
  apply (undeliverable_job_ends_the_sink (E := Mini.extern)
           (ex_output "a#b#7" ex_row) ex_sink_hash _ [] _
           "a#b#7" [(ex_row, VInt 0)] 1 None [(None, Some ["c"; "REGISTER"; "1"; "1"])]).
  - unfold sink_inv, ex_sink_hash. cbn [pending_result pending_checksum job_checksum].
    split; [|split; [|split]];
      [constructor|constructor|intros k _; reflexivity|constructor].
  - reflexivity.
  - reflexivity.
  - reflexivity.
  - reflexivity.
  - intros (a & b & sorted & X & Hsplit & _). discriminate Hsplit.
  - intros j v [Hin|[]] _. injection Hin as <- _. reflexivity.
Defined.

Lemma hash_in_client_address_witness :
  contains "#" "a#b" = true
  /\ send_back (E := Mini.extern) ("a#b#7", [(ex_row, VInt 0)])
       ({| pending_checksum := [("a#b#7", 1)];
           pending_result := [("a#b#7", [(ex_row, VInt 0)])];
           job_checksum := [("a#b#7", 1)] |}, [])
     = (Raise ValueError,
        ({| pending_checksum := [("a#b#7", 1)];
            pending_result := [("a#b#7", [(ex_row, VInt 0)])];
            job_checksum := [("a#b#7", 1)] |},
         [] ++ [Log INFO (SendBack 1 "a#b#7")])).
Proof.
  split; [reflexivity|].
  apply (hash_in_client_address_is_never_answered (E := Mini.extern)
           "a#b" "7" [(ex_row, VInt 0)] _ [] 1); reflexivity.
Defined.

Lemma at_in_client_address_witness :
  contains "@" ("a@b" +++ "#" +++ "7") = true
  /\ ~ In (Send SinkSender
             ["a@b"; @jsonapi_dumps Mini.extern (md ex_row); buf ex_row; "7"])
          (snd (snd (sink_run (E := Mini.extern)
                       [(None, Some ["a@b"; "REGISTER"; "1"; "7"]);
                        (None, Some ["a"; "REGISTER"; "1"; "7"]);
                        (Some (ex_output "a@b#7" ex_row), None)]
                       (sink_init, [])))).
Proof.
  split; [reflexivity|].
  apply (at_in_client_address_is_never_answered (E := Mini.extern)
           [(None, Some ["a@b"; "REGISTER"; "1"; "7"]);
            (None, Some ["a"; "REGISTER"; "1"; "7"]);
            (Some (ex_output "a@b#7" ex_row), None)]
           (fst (sink_run (E := Mini.extern)
                   [(None, Some ["a@b"; "REGISTER"; "1"; "7"]);
                    (None, Some ["a"; "REGISTER"; "1"; "7"]);
                    (Some (ex_output "a@b#7" ex_row), None)]
                   (sink_init, [])))
           (fst (snd (sink_run (E := Mini.extern)
                        [(None, Some ["a@b"; "REGISTER"; "1"; "7"]);
                         (None, Some ["a"; "REGISTER"; "1"; "7"]);
                         (Some (ex_output "a@b#7" ex_row), None)]
                        (sink_init, []))))
           _ "a@b" "7"); reflexivity.
Defined.

Lemma results_in_any_order_witness :
  exists logs,
    sink_loop (E := Mini.extern)
      [(None, Some ["c"; "REGISTER"; "3"; "7"]);
       (Some (ex_output "c#7@2" ex_row), None);
       (Some (ex_output "c#7@0" ex_rows), None)]
      (sink_init, [])
    = (Ok tt,
       (sink_init,
        [] ++ map (Log INFO) logs
           ++ [Send SinkSender
                 (ndarray_frames (E := Mini.extern) "c"
                    (mk_ndarray "float32" [3%nat; 4%nat]
                       "aaaabbbbccccddddeeeeffffgggghhhh0000111122223333") "7")])).
Proof.
  apply (results_in_any_order_are_put_together_once (E := Mini.extern)
           "c" "7" 7 "float32" [4%nat] ex_enc 2 ex_batch
           [("c#7@2", ex_row); ("c#7@0", ex_rows)] sink_init []).
  - reflexivity.
  - reflexivity.
  - reflexivity.
  - reflexivity.
  - exact sink_inv_init.
  - repeat split.
  - constructor.
  - apply perm_swap.
  - constructor; [|constructor; [|constructor]]; eexists; split; reflexivity.
Defined.

Lemma no_complete_job_witness :
  sink_inv ex_sink
  /\ Forall
       (fun kv =>
          complete
            (fst (snd (on_receiver (E := Mini.extern) (ex_output "c#7@0" ex_row)
                         (ex_sink, []))))
            kv = false)
       (pending_result
          (fst (snd (on_receiver (E := Mini.extern) (ex_output "c#7@0" ex_row)
                       (ex_sink, []))))).
Proof.
  assert (Hinv : sink_inv ex_sink).
  { unfold sink_inv, ex_sink. cbn [pending_result pending_checksum job_checksum].
    split; [|split; [|split]].
    - constructor; [intros []|constructor].
    - constructor; [reflexivity|constructor].
    - intros k. cbn [dict_get].
      destruct (String.eqb "c#7" k); [discriminate|reflexivity].
    - constructor; [discriminate|constructor]. }
  split; [exact Hinv|].
  apply (no_complete_job_is_left_waiting (E := Mini.extern)
           (ex_output "c#7@0" ex_row) ex_sink _ []
           (snd (snd (on_receiver (E := Mini.extern) (ex_output "c#7@0" ex_row)
                        (ex_sink, []))))
           Hinv).
  reflexivity.
Defined.

Lemma worker_output_ends_the_sink_witness :
  sink_run (E := Mini.extern)
    ([(None, Some ["c"; "REGISTER"; "1"; "7"])]
       ++ [(Some (ndarray_frames (E := Mini.extern) "test" ex_row default_req_id), None)])
    (sink_init, [])
  = (Raise KeyError,
     ({| pending_checksum := [("test", 1)];
         pending_result := [("test", [(ex_row, VInt 0)])];
         job_checksum := [("c#7", 1)] |},
      [Log INFO (JobRegister 1 "c#7")])).
Proof.
  apply (worker_output_ends_the_sink (E := Mini.extern)
           (fun _ => ex_row) 4 (md ex_row)
           [(None, Some ["c"; "REGISTER"; "1"; "7"])] [] None
           {| pending_checksum := []; pending_result := [];
              job_checksum := [("c#7", 1)] |}
           [Log INFO (JobRegister 1 "c#7")]);
    [reflexivity|reflexivity|discriminate|reflexivity].
Defined.

Lemma free_gpus_witness :
  exists b logs,
    start_workers false 3 (Gpus [0; 1] (fun _ => [1; 0])) = Started b
    /\ st_run_on_gpu b = true
    /\ st_device_map b = [1; 0; 1]
    /\ st_events b
       = map StartLog logs ++ [StartWorker 0 1; StartWorker 1 0; StartWorker 2 1].
Proof.
  apply (free_gpus_are_given_to_the_workers_in_turn 3 [0; 1] (fun _ => [1; 0]));
    [lia|discriminate].
Defined.

Lemma no_free_gpu_witness :
  exists b,
    start_workers false 4 (Gpus [0; 1] (fun _ => [])) = Started b
    /\ st_run_on_gpu b = true
    /\ st_device_map b = []
    /\ forall worker_id device_id, ~ In (StartWorker worker_id device_id) (st_events b).
Proof.
  apply (no_free_gpu_starts_no_worker 4 [0; 1] (fun _ => [])). reflexivity.
Defined.

Lemma complete_job_with_hash_witness :
  serve (E := Mini.extern) 3 ex_srv "12:00" ["a#b"; ex_single_payload; "7"] (ex_vent, [])
  = (Ok tt,
     ({| num_req := 1 |},
      [Log INFO (NewEncodeRequest 7 "a#b");
       Send VentSink ["a#b"; "REGISTER"; "1"; "7"];
       Send VentBackend ["a#b#7"; ex_single_payload]]))
  /\ on_frontend ["a#b"; "REGISTER"; "1"; "7"] (sink_init, [])
     = (Ok tt, (ex_sink_hash, [Log INFO (JobRegister 1 "a#b#7")]))
  /\ received "a#b#7" (store "a#b#7" ex_row (VInt 0) ex_sink_hash) = 1
  /\ dict_get "a#b#7" (job_checksum (store "a#b#7" ex_row (VInt 0) ex_sink_hash)) = Some 1
  /\ dict_get "a#b#7" (pending_result (store "a#b#7" ex_row (VInt 0) ex_sink_hash))
     = Some ([] ++ [(ex_row, VInt 0)])
  /\ sink_run (E := Mini.extern)
       [(Some (ex_output "a#b#7" ex_row), None);
        (Some (ex_output "c#1" ex_row), Some ["c"; "REGISTER"; "1"; "1"])]
       (ex_sink_hash, [Log INFO (JobRegister 1 "a#b#7")])
     = (Raise ValueError,
        (store "a#b#7" ex_row (VInt 0) ex_sink_hash,
         [Log INFO (JobRegister 1 "a#b#7")]
           ++ [Log INFO (CollectJob "a#b#7" 1 1); Log INFO (SendBack 1 "a#b#7")]))
  /\ forall ev,
       In ev [Log INFO (CollectJob "a#b#7" 1 1); Log INFO (SendBack 1 "a#b#7")] ->
       ~ delivers "a#b#7" ev.
Proof.
  split; [reflexivity|]. split; [reflexivity|].
  apply (complete_job_with_hash_in_client_address_is_not_delivered (E := Mini.extern)
           "a#b" "7" "a#b#7" (@jsonapi_dumps Mini.extern (md ex_row)) (buf ex_row)
           [EmptyString] (md ex_row) ex_row (VInt 0) ex_sink_hash
           [Log INFO (JobRegister 1 "a#b#7")] 1 None
           [(Some (ex_output "c#1" ex_row), Some ["c"; "REGISTER"; "1"; "1"])]).
  - reflexivity.
  - unfold sink_inv, ex_sink_hash. cbn [pending_result pending_checksum job_checksum].
    split; [|split; [|split]];
      [constructor|constructor|intros k _; reflexivity|constructor].
  - constructor.
  - reflexivity.
  - reflexivity.
  - reflexivity.
  - discriminate.
  - reflexivity.
  - reflexivity.
Defined.
